(** * State unemployment pipeline: validation, reconciliation, gate and pivot

    A shallow embedding of [states.py], [validate.py] and [clean.py], of
    the helpers of [output.py] and of the counts of [main.py], and the
    properties of the validation-and-reconciliation engine and of the
    steps around it proved on it.

    Conventions of the embedding.
    - Python [str] is [string]; the model covers ASCII text (code points
      above 127 are ordinary characters: no whitespace, no digit, no case).
      In Python a text outside ASCII may hold further blanks, such as
      U+00A0, that [strip] removes, and further digits that [\d] and [int]
      read; what is proved speaks of ASCII text.
    - Python [float] is the kernel's binary64 [float]; [<], [>=] and [!=] are
      [PrimFloat.ltb], [PrimFloat.leb] and the negation of [PrimFloat.eqb].
    - Python [int] is [Z].
    - A float is its value: the model has no object identity. Where Python
      looks a key up in a set it takes one NaN object met twice for equal,
      although [nan == nan] is false; the model compares by [==] alone.
    - A [dict] is a [gmap], a [set] a [gset]; the pivot's dictionary, whose
      values are returned as a list in insertion order, is an association
      list.
    - A function that can raise returns an [option] (validate.py, where the
      callers catch the exception), a [res] (clean.py, where they do not)
      or a sum with the exception on the left (output.py).
    - A loop that may not end takes a bound on the number of its rounds and
      returns [None] when they do not suffice.
    - The passes that mutate the rows of a list in place return the new list;
      the rows of a batch are distinct objects, so no aliasing is lost.
    - Logging, the clock and the file system are left out. *)

From Stdlib Require Import ZArith Floats String Ascii List Lia DecimalString
  DecimalPos DecimalZ OrderedTypeEx.
From stdpp Require Import gmap strings list fin_maps sorting.

Set Warnings "-clear-no-such-hyp".

Local Open Scope string_scope.
Local Open Scope list_scope.

(* ===================================================================== *)
(** * Python text primitives *)
(* ===================================================================== *)

(** [str.isspace] on ASCII: TAB, LF, VT, FF, CR, FS, GS, RS, US and space. *)
Definition is_space (c : ascii) : bool :=
  let n := nat_of_ascii c in
  ((9 <=? n)%nat && (n <=? 13)%nat) || ((28 <=? n)%nat && (n <=? 32)%nat).

(** [\d] on ASCII. *)
Definition is_digit (c : ascii) : bool :=
  let n := nat_of_ascii c in (48 <=? n)%nat && (n <=? 57)%nat.

Fixpoint lstrip (s : string) : string :=
  match s with
  | EmptyString => EmptyString
  | String c s' => if is_space c then lstrip s' else s
  end.

Fixpoint rstrip (s : string) : string :=
  match s with
  | EmptyString => EmptyString
  | String c s' =>
      match rstrip s' with
      | EmptyString => if is_space c then EmptyString else String c EmptyString
      | t => String c t
      end
  end.

(** [s.strip()] *)
Definition strip (s : string) : string := rstrip (lstrip s).

Definition upper_ascii (c : ascii) : ascii :=
  let n := nat_of_ascii c in
  if (97 <=? n)%nat && (n <=? 122)%nat then ascii_of_nat (n - 32) else c.

(** [s.upper()] *)
Fixpoint upper (s : string) : string :=
  match s with
  | EmptyString => EmptyString
  | String c s' => String (upper_ascii c) (upper s')
  end.

(** [s.split(sep)] for a one-character separator. *)
Fixpoint split_on (sep : ascii) (s : string) : list string :=
  match s with
  | EmptyString => [EmptyString]
  | String c s' =>
      if Ascii.eqb c sep then EmptyString :: split_on sep s'
      else match split_on sep s' with
           | h :: t => String c h :: t
           | [] => [String c EmptyString]
           end
  end.

(** The digits of an [int(...)] literal: decimal digits, single underscores
    allowed between two digits. *)
Fixpoint int_digits (acc : Z) (after_digit : bool) (s : string) : option Z :=
  match s with
  | EmptyString => if after_digit then Some acc else None
  | String c s' =>
      if is_digit c
      then int_digits (10 * acc + (Z.of_nat (nat_of_ascii c) - 48))%Z true s'
      else if Ascii.eqb c "_"
           then if after_digit then int_digits acc false s' else None
           else None
  end.

(** The blanks that [int] skips around a number: TAB, LF, VT, FF, CR and
    space. The separators FS, GS, RS and US, which [str.strip] removes, are
    not among them: [int] refuses a text that has one. *)
Definition is_int_space (c : ascii) : bool :=
  let n := nat_of_ascii c in
  ((9 <=? n)%nat && (n <=? 13)%nat) || (n =? 32)%nat.

Fixpoint int_lstrip (s : string) : string :=
  match s with
  | EmptyString => EmptyString
  | String c s' => if is_int_space c then int_lstrip s' else s
  end.

Fixpoint int_rstrip (s : string) : string :=
  match s with
  | EmptyString => EmptyString
  | String c s' =>
      match int_rstrip s' with
      | EmptyString =>
          if is_int_space c then EmptyString else String c EmptyString
      | t => String c t
      end
  end.

Definition int_strip (s : string) : string := int_rstrip (int_lstrip s).

(** [int(s)]: the blanks of [int] on both sides, an optional sign, then the
    digits. [None] stands for [ValueError]. *)
Definition py_int (s : string) : option Z :=
  match int_strip s with
  | String "+" t => int_digits 0 false t
  | String "-" t => Z.opp <$> int_digits 0 false t
  | t => int_digits 0 false t
  end.

(** [str(n)] for an [int]. *)
Definition str_of_int (n : Z) : string := NilZero.string_of_int (Z.to_int n).

(** [f"{n:02d}"]: zero-padded to two characters, the sign counted in. *)
Definition fmt_02d (n : Z) : string :=
  if ((0 <=? n) && (n <=? 9))%Z then "0" +:+ str_of_int n else str_of_int n.

(** [a < b] on [str]. *)
Definition str_lt (a b : string) : bool := String.ltb a b.

(* ===================================================================== *)
(** * states.py *)
(* ===================================================================== *)

Record state_ref := {
  name : string;
  usps_code : string;
  fips_code : string;
  census_region : string;
  census_division : string;
}.

Definition STATES : list state_ref := [
  Build_state_ref "Alabama" "AL" "01" "South" "East South Central";
  Build_state_ref "Alaska" "AK" "02" "West" "Pacific";
  Build_state_ref "Arizona" "AZ" "04" "West" "Mountain";
  Build_state_ref "Arkansas" "AR" "05" "South" "West South Central";
  Build_state_ref "California" "CA" "06" "West" "Pacific";
  Build_state_ref "Colorado" "CO" "08" "West" "Mountain";
  Build_state_ref "Connecticut" "CT" "09" "Northeast" "New England";
  Build_state_ref "Delaware" "DE" "10" "South" "South Atlantic";
  Build_state_ref "Florida" "FL" "12" "South" "South Atlantic";
  Build_state_ref "Georgia" "GA" "13" "South" "South Atlantic";
  Build_state_ref "Hawaii" "HI" "15" "West" "Pacific";
  Build_state_ref "Idaho" "ID" "16" "West" "Mountain";
  Build_state_ref "Illinois" "IL" "17" "Midwest" "East North Central";
  Build_state_ref "Indiana" "IN" "18" "Midwest" "East North Central";
  Build_state_ref "Iowa" "IA" "19" "Midwest" "West North Central";
  Build_state_ref "Kansas" "KS" "20" "Midwest" "West North Central";
  Build_state_ref "Kentucky" "KY" "21" "South" "East South Central";
  Build_state_ref "Louisiana" "LA" "22" "South" "West South Central";
  Build_state_ref "Maine" "ME" "23" "Northeast" "New England";
  Build_state_ref "Maryland" "MD" "24" "South" "South Atlantic";
  Build_state_ref "Massachusetts" "MA" "25" "Northeast" "New England";
  Build_state_ref "Michigan" "MI" "26" "Midwest" "East North Central";
  Build_state_ref "Minnesota" "MN" "27" "Midwest" "West North Central";
  Build_state_ref "Mississippi" "MS" "28" "South" "East South Central";
  Build_state_ref "Missouri" "MO" "29" "Midwest" "West North Central";
  Build_state_ref "Montana" "MT" "30" "West" "Mountain";
  Build_state_ref "Nebraska" "NE" "31" "Midwest" "West North Central";
  Build_state_ref "Nevada" "NV" "32" "West" "Mountain";
  Build_state_ref "New Hampshire" "NH" "33" "Northeast" "New England";
  Build_state_ref "New Jersey" "NJ" "34" "Northeast" "Middle Atlantic";
  Build_state_ref "New Mexico" "NM" "35" "West" "Mountain";
  Build_state_ref "New York" "NY" "36" "Northeast" "Middle Atlantic";
  Build_state_ref "North Carolina" "NC" "37" "South" "South Atlantic";
  Build_state_ref "North Dakota" "ND" "38" "Midwest" "West North Central";
  Build_state_ref "Ohio" "OH" "39" "Midwest" "East North Central";
  Build_state_ref "Oklahoma" "OK" "40" "South" "West South Central";
  Build_state_ref "Oregon" "OR" "41" "West" "Pacific";
  Build_state_ref "Pennsylvania" "PA" "42" "Northeast" "Middle Atlantic";
  Build_state_ref "Rhode Island" "RI" "44" "Northeast" "New England";
  Build_state_ref "South Carolina" "SC" "45" "South" "South Atlantic";
  Build_state_ref "South Dakota" "SD" "46" "Midwest" "West North Central";
  Build_state_ref "Tennessee" "TN" "47" "South" "East South Central";
  Build_state_ref "Texas" "TX" "48" "South" "West South Central";
  Build_state_ref "Utah" "UT" "49" "West" "Mountain";
  Build_state_ref "Vermont" "VT" "50" "Northeast" "New England";
  Build_state_ref "Virginia" "VA" "51" "South" "South Atlantic";
  Build_state_ref "Washington" "WA" "53" "West" "Pacific";
  Build_state_ref "West Virginia" "WV" "54" "South" "South Atlantic";
  Build_state_ref "Wisconsin" "WI" "55" "Midwest" "East North Central";
  Build_state_ref "Wyoming" "WY" "56" "West" "Mountain"
].

(** [{s["usps_code"].upper(): s for s in STATES}]: a later entry would
    replace an earlier one with the same key. *)
Definition _BY_CODE : gmap string state_ref :=
  foldl (fun m s => <[upper (usps_code s) := s]> m) ∅ STATES.

Definition get_state_by_code (code : string) : option state_ref :=
  _BY_CODE !! upper code.

(* ===================================================================== *)
(** * validate.py: constants and models *)
(* ===================================================================== *)

Definition IMPLAUSIBLE_RATE_LOWER_BOUND : float := 0%float.
Definition IMPLAUSIBLE_RATE_UPPER_BOUND : float := 100%float.
Definition RATE_WARNING_THRESHOLD : float := 15%float.
(** The literal [0.40], that is the binary64 number nearest to it. *)
Definition PUBLISH_GATE_THRESHOLD : float := 0x1.999999999999ap-2%float.
Definition TOTAL_STATES : Z := 50.

(** [float(n)] for an [int]: the nearest binary64 number, ties to even. *)
Definition float_of_int (n : Z) : float :=
  SF2Prim (binary_normalize prec emax n 0 false).

(** What the language and the validation library do with text and floats,
    and this development does not define: the decimal rendering of a
    float, and the lax-mode reading of a [str] or a [bool] where a float is
    expected. *)
Class Builtins := {
  str_of_float : float -> string;
  float_of_str : string -> option float;
  float_of_bool : bool -> option float;
}.

(** A spreadsheet cell as the reader hands it over: [None], a [str], an
    [int], a [float], a [bool], or a date object given by the text [str()]
    renders for it. *)
Inductive cell :=
| CNone
| CStr (s : string)
| CInt (n : Z)
| CFloat (x : float)
| CBool (b : bool)
| CDate (text : string).

Module RawRow.
Record t := mk {
  state : string;
  state_code : string;
  month : string;
  unemployment_rate : option float;
  unemployment_rate_prev_month : option float;
  source : string;
}.
End RawRow.

Record ValidatedRow := {
  state_canonical : string;
  state_code : string;
  month_canonical : string;
  unemployment_rate : option float;
  unemployment_rate_prev_month : option float;
  source : string;
  source_row_index : Z;
  qa_flags : list string;
  is_publishable : bool;
}.

Module CleanRow.
Record t := mk {
  state_canonical : string;
  state_code : string;
  date : string;
  value : float;
  source : string;
  ingest_run : string;
  source_row_index : Z;
}.
End CleanRow.

(** [row.qa_flags.append(flag)] *)
Definition append_flag (row : ValidatedRow) (flag : string) : ValidatedRow :=
  {| state_canonical := state_canonical row;
     state_code := state_code row;
     month_canonical := month_canonical row;
     unemployment_rate := unemployment_rate row;
     unemployment_rate_prev_month := unemployment_rate_prev_month row;
     source := source row;
     source_row_index := source_row_index row;
     qa_flags := qa_flags row ++ [flag];
     is_publishable := is_publishable row |}.

(** [row.is_publishable = False] *)
Definition set_unpublishable (row : ValidatedRow) : ValidatedRow :=
  {| state_canonical := state_canonical row;
     state_code := state_code row;
     month_canonical := month_canonical row;
     unemployment_rate := unemployment_rate row;
     unemployment_rate_prev_month := unemployment_rate_prev_month row;
     source := source row;
     source_row_index := source_row_index row;
     qa_flags := qa_flags row;
     is_publishable := false |}.

(** [a != b] on floats. *)
Definition float_ne (a b : float) : bool := negb (PrimFloat.eqb a b).

(** [x in flags] for a list of [str]. *)
Definition has_flag (flag : string) (flags : list string) : bool :=
  existsb (String.eqb flag) flags.

(* ===================================================================== *)
(** * validate.py: helpers *)
(* ===================================================================== *)

(** [_DATE_PATTERN.match(raw.strip())] with
    [_DATE_PATTERN = ^(\d{4})[/-](\d{2})$]: after [strip] no trailing newline
    is left, so [$] is the end of the text. On ASCII text, where [strip]
    removes the ten ASCII blanks and [\d] is one of [0] to [9]. *)
Definition _normalize_date (raw : string) : option string :=
  match list_ascii_of_string (strip raw) with
  | [y1; y2; y3; y4; sep; m1; m2] =>
      if forallb is_digit [y1; y2; y3; y4; m1; m2]
         && (Ascii.eqb sep "/" || Ascii.eqb sep "-")
      then Some (string_of_list_ascii [y1; y2; y3; y4] +:+ "-"
                 +:+ string_of_list_ascii [m1; m2])
      else None
  | _ => None
  end.

(** ['YYYY-MM'] to the previous month; [None] is the [ValueError] of a text
    that does not split into two integers. *)
Definition _prev_month (year_month : string) : option string :=
  match split_on "-" year_month with
  | [y; m] =>
      match py_int y, py_int m with
      | Some year, Some month =>
          let month := (month - 1)%Z in
          let '(year, month) :=
            if (month =? 0)%Z then ((year - 1)%Z, 12%Z) else (year, month) in
          Some (str_of_int year +:+ "-" +:+ fmt_02d month)
      | _, _ => None
      end
  | _ => None
  end.

Section validate.
Context `{Builtins}.

(** [str(x)] *)
Definition py_str (c : cell) : string :=
  match c with
  | CNone => "None"
  | CStr s => s
  | CInt n => str_of_int n
  | CFloat x => str_of_float x
  | CBool b => if b then "True" else "False"
  | CDate text => text
  end.

(** A field annotated [str], lax mode: only a [str] is one. *)
Definition lax_str (c : cell) : option string :=
  match c with
  | CStr s => Some s
  | _ => None
  end.

(** A field annotated [float | None], lax mode. An [int] too large for a
    float is refused. *)
Definition lax_opt_float (c : cell) : option (option float) :=
  match c with
  | CNone => Some None
  | CFloat x => Some (Some x)
  | CInt n =>
      let x := float_of_int n in
      if PrimFloat.is_infinity x then None else Some (Some x)
  | CStr s => Some <$> float_of_str s
  | CBool b => Some <$> float_of_bool b
  | CDate _ => None
  end.

(** [RawRow] built from the keys of [raw_dict]: four required [str]
    fields, two optional rates that default to [None]; other keys are
    ignored. [None] is the validation error. *)
Definition RawRow_init (raw_dict : gmap string cell) : option RawRow.t :=
  state ← raw_dict !! "state" ≫= lax_str;
  state_code ← raw_dict !! "state_code" ≫= lax_str;
  month ← raw_dict !! "month" ≫= lax_str;
  rate ← from_option lax_opt_float (Some None)
         (raw_dict !! "unemployment_rate");
  prev ← from_option lax_opt_float (Some None)
         (raw_dict !! "unemployment_rate_prev_month");
  source ← raw_dict !! "source" ≫= lax_str;
  Some (RawRow.mk state state_code month rate prev source).

(** The first statement of [_validate_row]: a month that is present and
    not [None] is replaced by [str(month).strip()]. *)
Definition coerce_month (raw_dict : gmap string cell) : gmap string cell :=
  match raw_dict !! "month" with
  | Some CNone | None => raw_dict
  | Some c => <["month" := CStr (strip (py_str c))]> raw_dict
  end.

Definition _validate_row (raw_dict : gmap string cell) (row_index : Z)
  : option ValidatedRow :=
  let raw_dict := coerce_month raw_dict in
  match RawRow_init raw_dict with
  | None => None
  | Some raw =>
      let flags : list string := [] in
      let publishable := true in
      (* state resolution *)
      let code_upper := upper (strip (RawRow.state_code raw)) in
      let '(flags, publishable, canonical_name) :=
        match get_state_by_code code_upper with
        | None =>
            (flags ++ ["unknown_state_code: " +:+ code_upper], false,
             strip (RawRow.state raw))
        | Some state_ref =>
            let canonical_name := name state_ref in
            (if negb (String.eqb (strip (RawRow.state raw)) canonical_name)
             then flags ++ ["state_name_normalized: original='"
                            +:+ strip (RawRow.state raw) +:+ "' canonical='"
                            +:+ canonical_name +:+ "'"]
             else flags,
             publishable, canonical_name)
        end in
      (* date normalization *)
      let '(flags, publishable, month_canonical) :=
        match _normalize_date (RawRow.month raw) with
        | None =>
            (flags ++ ["unparseable_date: '" +:+ RawRow.month raw +:+ "'"],
             false, RawRow.month raw)
        | Some month_canonical =>
            (if negb (String.eqb (strip (RawRow.month raw)) month_canonical)
             then flags ++ ["date_corrected: original='"
                            +:+ strip (RawRow.month raw) +:+ "' canonical='"
                            +:+ month_canonical +:+ "'"]
             else flags,
             publishable, month_canonical)
        end in
      (* rate plausibility *)
      let '(flags, publishable) :=
        match RawRow.unemployment_rate raw with
        | None => (flags ++ ["missing_rate"], false)
        | Some rate =>
            if PrimFloat.ltb rate IMPLAUSIBLE_RATE_LOWER_BOUND
               || PrimFloat.leb IMPLAUSIBLE_RATE_UPPER_BOUND rate
            then (flags ++ ["implausible_rate: " +:+ str_of_float rate], false)
            else if PrimFloat.leb RATE_WARNING_THRESHOLD rate
            then (flags ++ ["rate_unusually_high: " +:+ str_of_float rate],
                  publishable)
            else (flags, publishable)
        end in
      (* null prev_month *)
      let flags :=
        match RawRow.unemployment_rate_prev_month raw with
        | None => flags ++ ["missing_prev_month"]
        | Some _ => flags
        end in
      Some {| state_canonical := canonical_name;
              state_code := code_upper;
              month_canonical := month_canonical;
              unemployment_rate := RawRow.unemployment_rate raw;
              unemployment_rate_prev_month :=
                RawRow.unemployment_rate_prev_month raw;
              source := RawRow.source raw;
              source_row_index := row_index;
              qa_flags := flags;
              is_publishable := publishable |}
  end.

(** The body of the first loop of [_check_rate_conflicts]. *)
Definition add_claim (claims : gmap (string * string) (list (float * Z)))
  (row : ValidatedRow) : gmap (string * string) (list (float * Z)) :=
  if negb (is_publishable row) then claims
  else match unemployment_rate_prev_month row with
       | None => claims
       | Some prev =>
           match _prev_month (month_canonical row) with
           | None => claims
           | Some ref_month =>
               let key := (state_code row, ref_month) in
               <[key := default [] (claims !! key)
                        ++ [(prev, source_row_index row)]]> claims
           end
       end.

(** The first loop of [_check_rate_conflicts]: the claims that publishable
    rows make about the month before their own. *)
Definition prev_month_claims (validated : list ValidatedRow)
  : gmap (string * string) (list (float * Z)) :=
  foldl add_claim ∅ validated.

(** The body of the second loop of [_check_rate_conflicts] for one row. *)
Definition check_rate_conflict
  (claims : gmap (string * string) (list (float * Z)))
  (row : ValidatedRow) : ValidatedRow :=
  if negb (is_publishable row) then row
  else match unemployment_rate row with
       | None => row
       | Some rate =>
           let key := (state_code row, month_canonical row) in
           match List.find (fun claim => float_ne rate (fst claim))
                   (default [] (claims !! key)) with
           | Some (claimed_value, claiming_row_idx) =>
               set_unpublishable
                 (append_flag row
                    ("rate_conflict: current=" +:+ str_of_float rate
                     +:+ " vs prev_month=" +:+ str_of_float claimed_value
                     +:+ " (from source row " +:+ str_of_int claiming_row_idx
                     +:+ ")"))
           | None => row
           end
       end.

Definition _check_rate_conflicts (validated : list ValidatedRow)
  : list ValidatedRow :=
  let claims := prev_month_claims validated in
  check_rate_conflict claims <$> validated.

(** The body of the first loop of [_check_prev_month_imputed]. *)
Definition add_value (seen : gset (string * string)) (row : ValidatedRow)
  : gset (string * string) :=
  if negb (is_publishable row) then seen
  else
    let seen :=
      match unemployment_rate row with
      | Some _ => seen ∪ {[ (state_code row, month_canonical row) ]}
      | None => seen
      end in
    match unemployment_rate_prev_month row with
    | Some _ =>
        match _prev_month (month_canonical row) with
        | Some prev => seen ∪ {[ (state_code row, prev) ]}
        | None => seen
        end
    | None => seen
    end.

(** The first loop of [_check_prev_month_imputed]: the [(state_code,
    month)] pairs that will have a value after the pivot. *)
Definition will_have_value (validated : list ValidatedRow)
  : gset (string * string) :=
  foldl add_value ∅ validated.

(** The body of the second loop of [_check_prev_month_imputed]. *)
Definition check_imputed (seen : gset (string * string))
  (row : ValidatedRow) : ValidatedRow :=
  if negb (is_publishable row)
     || negb (has_flag "missing_prev_month" (qa_flags row))
  then row
  else match _prev_month (month_canonical row) with
       | None => row
       | Some prev =>
           if bool_decide ((state_code row, prev) ∈ seen)
           then append_flag row ("prev_month_imputed: sourced from " +:+ prev)
           else row
       end.

Definition _check_prev_month_imputed (validated : list ValidatedRow)
  : list ValidatedRow :=
  let seen := will_have_value validated in
  check_imputed seen <$> validated.

(** [state_rows[row.state_code].append(row)] *)
Definition add_state_row (groups : gmap string (list ValidatedRow))
  (row : ValidatedRow) : gmap string (list ValidatedRow) :=
  <[state_code row := default [] (groups !! state_code row) ++ [row]]>
    groups.

(** [state_rows] of [_check_publish_gate]: the rows of each state code. *)
Definition state_rows (validated : list ValidatedRow)
  : gmap string (list ValidatedRow) :=
  foldl add_state_row ∅ validated.

(** [sum(1 for rows in state_rows.values() if all(...))] *)
Definition fully_unpublishable (validated : list ValidatedRow) : Z :=
  Z.of_nat
    (length
       (List.filter
          (fun kv => forallb (fun r => negb (is_publishable r)) (snd kv))
          (map_to_list (state_rows validated)))).

(** [int / int] is the quotient rounded to the nearest float; for operands
    below 2^53 that is the float division of the two converted operands. *)
Definition _check_publish_gate (validated : list ValidatedRow) : bool :=
  let fraction :=
    PrimFloat.div (float_of_int (fully_unpublishable validated))
                  (float_of_int TOTAL_STATES) in
  if PrimFloat.ltb PUBLISH_GATE_THRESHOLD fraction then false else true.

(** [max(publishable_months) if publishable_months else ""] *)
Definition latest_month (months : list string) : string :=
  match months with
  | [] => ""
  | m :: rest => foldl (fun best x => if str_lt best x then x else best) m rest
  end.

(** The rows [run_validation] builds from the raw records: row 1 of the
    sheet is the header, so the records are numbered from 2. *)
Definition validate_records (raw_records : list (gmap string cell))
  : list ValidatedRow :=
  omap (fun '(i, rec) => _validate_row rec i)
       (zip (seqZ 2 (Z.of_nat (length raw_records))) raw_records).

(** [run_validation] without the files: the validated rows, the gate and
    the latest publishable month. *)
Definition run_validation (raw_records : list (gmap string cell))
  : list ValidatedRow * bool * string :=
  let validated := validate_records raw_records in
  let validated := _check_rate_conflicts validated in
  let validated := _check_prev_month_imputed validated in
  let publishable_months :=
    month_canonical <$> List.filter is_publishable validated in
  let latest_data_month := latest_month publishable_months in
  let gate_passed := _check_publish_gate validated in
  (validated, gate_passed, latest_data_month).

End validate.

(* ===================================================================== *)
(** * clean.py *)
(* ===================================================================== *)

(** The exceptions that leave [run_clean]: the model library refusing a
    [CleanRow] without a value, and [int()] refusing a month. *)
Inductive exn := ValidationError | ValueError.

Inductive res (A : Type) :=
| Ok (a : A)
| Raise (e : exn).
Arguments Ok {A} a.
Arguments Raise {A} e.

#[global] Instance res_bind : MBind res := fun A B k r =>
  match r with
  | Ok a => k a
  | Raise e => Raise e
  end.

(** ['YYYY-MM'] to the first day of the month before. *)
Definition _prev_month_date (year_month : string) : res string :=
  match split_on "-" year_month with
  | [y; m] =>
      match py_int y, py_int m with
      | Some year, Some month =>
          let month := (month - 1)%Z in
          let '(year, month) :=
            if (month =? 0)%Z then ((year - 1)%Z, 12%Z) else (year, month) in
          Ok (str_of_int year +:+ "-" +:+ fmt_02d month +:+ "-01")
      | _, _ => Raise ValueError
      end
  | _ => Raise ValueError
  end.

(** [==] on [float | None]. A NaN equals no float, itself included. *)
Definition opt_float_eq (a b : option float) : bool :=
  match a, b with
  | None, None => true
  | Some x, Some y => PrimFloat.eqb x y
  | _, _ => false
  end.

(** The tuple [_dedupe] is called with in [run_clean]:
    [("state_code", "month_canonical", "unemployment_rate",
      "unemployment_rate_prev_month")]. *)
Definition dedupe_key (row : ValidatedRow)
  : string * string * option float * option float :=
  (state_code row, month_canonical row, unemployment_rate row,
   unemployment_rate_prev_month row).

(** [==] on two such tuples. *)
Definition dedupe_key_eq (a b : string * string * option float * option float)
  : bool :=
  let '(s1, m1, r1, p1) := a in
  let '(s2, m2, r2, p2) := b in
  String.eqb s1 s2 && String.eqb m1 m2 && opt_float_eq r1 r2
  && opt_float_eq p1 p2.

(** The loop of [_dedupe], [seen] being the keys met so far. [key in seen]
    is true of a key equal to one of [seen]. Python's lookup also finds a
    key whose NaN is the very object of a key of [seen] (the rows read from
    one JSON document share one NaN object) and drops the row; here such a
    row is kept. On rows whose rates are numbers the two agree. *)
Fixpoint dedupe_from (seen : list (string * string * option float * option float))
  (rows : list ValidatedRow) : list ValidatedRow :=
  match rows with
  | [] => []
  | row :: rest =>
      let key := dedupe_key row in
      if existsb (dedupe_key_eq key) seen then dedupe_from seen rest
      else row :: dedupe_from (key :: seen) rest
  end.

Definition _dedupe (rows : list ValidatedRow) : list ValidatedRow :=
  dedupe_from [] rows.

Definition _pivot_row (row : ValidatedRow) (ingest_run : string)
  : res (list CleanRow.t) :=
  let current_date := month_canonical row +:+ "-01" in
  match unemployment_rate row with
  | None => Raise ValidationError
  | Some rate =>
      let results :=
        [CleanRow.mk (state_canonical row) (state_code row) current_date rate
                     (source row) ingest_run (source_row_index row)] in
      match unemployment_rate_prev_month row with
      | Some prev =>
          prev_date ← _prev_month_date (month_canonical row);
          Ok (results ++
              [CleanRow.mk (state_canonical row) (state_code row) prev_date
                           prev (source row) ingest_run
                           (source_row_index row)])
      | None => Ok results
      end
  end.

(** [sorted(rows, key=...)]: the stable sort, by insertion; only [<] is
    used on the keys. *)
Fixpoint insert_sorted {A} (key : A -> string) (x : A) (l : list A) : list A :=
  match l with
  | [] => [x]
  | y :: l' =>
      if str_lt (key y) (key x) then y :: insert_sorted key x l'
      else x :: y :: l'
  end.

Definition sorted {A} (l : list A) (key : A -> string) : list A :=
  foldr (insert_sorted key) [] l.

(** [pivoted_lookup]: an insertion-ordered dictionary keyed by
    [(state_code, date)]. *)
Definition pivot_dict := list ((string * string) * CleanRow.t).

Definition dict_get (key : string * string) (d : pivot_dict)
  : option CleanRow.t :=
  snd <$> List.find (fun kv => bool_decide (fst kv = key)) d.

(** [d[key] = v]: in place for a key already there, at the end otherwise. *)
Fixpoint dict_set (key : string * string) (v : CleanRow.t) (d : pivot_dict)
  : pivot_dict :=
  match d with
  | [] => [(key, v)]
  | (k, old) :: d' =>
      if bool_decide (k = key) then (k, v) :: d'
      else (k, old) :: dict_set key v d'
  end.

(** The body of the inner loop of the pivot. *)
Definition record_point (st : pivot_dict * Z) (clean_row : CleanRow.t)
  : pivot_dict * Z :=
  let '(pivoted_lookup, revisions) := st in
  let key := (CleanRow.state_code clean_row, CleanRow.date clean_row) in
  let revisions :=
    match dict_get key pivoted_lookup with
    | Some old =>
        if float_ne (CleanRow.value old) (CleanRow.value clean_row)
        then (revisions + 1)%Z else revisions
    | None => revisions
    end in
  (dict_set key clean_row pivoted_lookup, revisions).

(** The outer loop of the pivot over the sorted rows. *)
Fixpoint pivot_loop (rows : list ValidatedRow) (ingest_run : string)
  (st : pivot_dict * Z) : res (pivot_dict * Z) :=
  match rows with
  | [] => Ok st
  | row :: rest =>
      points ← _pivot_row row ingest_run;
      pivot_loop rest ingest_run (foldl record_point st points)
  end.

(** The pivot of [run_clean]: sort by month, then last-write-wins on
    [(state_code, date)]. *)
Definition pivot (deduped_validated : list ValidatedRow) (ingest_run : string)
  : res (pivot_dict * Z) :=
  let sorted_validated := sorted deduped_validated month_canonical in
  pivot_loop sorted_validated ingest_run ([], 0%Z).

(** What [run_clean] returns and writes to its manifest. *)
Record clean_output := {
  final_rows : list CleanRow.t;
  rows_deduped_input : nat;
  revisions_applied : Z;
}.

Definition run_clean (validated_rows : list ValidatedRow)
  (ingest_run_ts : string) : res clean_output :=
  let publishable := List.filter is_publishable validated_rows in
  let deduped_input := _dedupe publishable in
  let rows_deduped_input := (length publishable - length deduped_input)%nat in
  '(pivoted_lookup, revisions) ← pivot deduped_input ingest_run_ts;
  Ok {| final_rows := snd <$> pivoted_lookup;
        rows_deduped_input := rows_deduped_input;
        revisions_applied := revisions |}.

(* ===================================================================== *)
(** * Notions used to state the properties *)
(* ===================================================================== *)

(** The category of a flag, as [_qa_summary] groups flags:
    [flag.split(":")[0]]. *)
Definition flag_category (flag : string) : string :=
  hd "" (split_on ":" flag).

Definition has_category (cat : string) (flags : list string) : bool :=
  existsb (fun flag => String.eqb (flag_category flag) cat) flags.

(** The claim a row makes about [key], a pair [(state_code, month)]: its
    prior rate, when the row is publishable, has one, and the month before
    its own is [key]'s. *)
Definition claim_on (key : string * string) (row : ValidatedRow)
  : option (float * Z) :=
  if is_publishable row then
    match unemployment_rate_prev_month row,
          _prev_month (month_canonical row) with
    | Some prev, Some ref_month =>
        if bool_decide ((state_code row, ref_month) = key)
        then Some (prev, source_row_index row) else None
    | _, _ => None
    end
  else None.

(** The claims about [key] in a batch, in row order. *)
Definition claims_on (key : string * string) (validated : list ValidatedRow)
  : list (float * Z) :=
  omap (claim_on key) validated.

(** The text of the flag a conflicting claim leaves. *)
Definition rate_conflict_flag `{Builtins} (rate claimed : float) (idx : Z)
  : string :=
  "rate_conflict: current=" +:+ str_of_float rate
  +:+ " vs prev_month=" +:+ str_of_float claimed
  +:+ " (from source row " +:+ str_of_int idx +:+ ")".

(** A row gives [key] a value in the pivot: [key] is its own month and it
    has a current rate, or [key] is the month before and it has a prior
    rate. *)
Definition gives_value (key : string * string) (row : ValidatedRow) : Prop :=
  is_publishable row = true /\
  ((is_Some (unemployment_rate row)
    /\ key = (state_code row, month_canonical row))
   \/ (is_Some (unemployment_rate_prev_month row)
       /\ exists prev, _prev_month (month_canonical row) = Some prev
                       /\ key = (state_code row, prev))).

(** The state codes of a batch all of whose rows are unpublishable. *)
Definition fully_unpublishable_states (validated : list ValidatedRow)
  : gset string :=
  filter
    (fun code =>
       Forall (fun row => state_code row = code -> is_publishable row = false)
              validated)
    (list_to_set (state_code <$> validated) : gset string).

(** The key and the [(state_code, date, value)] point of a long-format
    row. *)
Definition key_of (c : CleanRow.t) : string * string :=
  (CleanRow.state_code c, CleanRow.date c).

Definition point_of (c : CleanRow.t) : string * string * float :=
  (CleanRow.state_code c, CleanRow.date c, CleanRow.value c).

Definition points (d : pivot_dict) : list (string * string * float) :=
  (fun kv => point_of (snd kv)) <$> d.

(** A calendar month as the canonical text, and the month after it. *)
Definition month_text (year month : Z) : string :=
  str_of_int year +:+ "-" +:+ fmt_02d month.

Definition next_month (year month : Z) : Z * Z :=
  if (month =? 12)%Z then ((year + 1)%Z, 1%Z) else (year, (month + 1)%Z).

(** An instance of [Builtins] for the closed examples. None of them
    depends on it: no example has a float in month position, or a [str] or
    a [bool] where a rate is expected, and no example reads the digits of a
    float inside a flag. *)
Definition example_builtins : Builtins :=
  {| str_of_float := fun _ => "<float>";
     float_of_str := fun _ => None;
     float_of_bool := fun _ => None |}.

(** The flags each check of [_validate_row] leaves, in the order of the
    checks, stated apart from the function to compare it with. *)
Definition state_flags (raw : RawRow.t) : list string :=
  let code_upper := upper (strip (RawRow.state_code raw)) in
  match get_state_by_code code_upper with
  | None => ["unknown_state_code: " +:+ code_upper]
  | Some ref =>
      if String.eqb (strip (RawRow.state raw)) (name ref) then []
      else ["state_name_normalized: original='" +:+ strip (RawRow.state raw)
            +:+ "' canonical='" +:+ name ref +:+ "'"]
  end.

Definition date_flags (raw : RawRow.t) : list string :=
  match _normalize_date (RawRow.month raw) with
  | None => ["unparseable_date: '" +:+ RawRow.month raw +:+ "'"]
  | Some canonical =>
      if String.eqb (strip (RawRow.month raw)) canonical then []
      else ["date_corrected: original='" +:+ strip (RawRow.month raw)
            +:+ "' canonical='" +:+ canonical +:+ "'"]
  end.

Definition rate_flags `{Builtins} (raw : RawRow.t) : list string :=
  match RawRow.unemployment_rate raw with
  | None => ["missing_rate"]
  | Some rate =>
      if PrimFloat.ltb rate 0 || PrimFloat.leb 100 rate
      then ["implausible_rate: " +:+ str_of_float rate]
      else if PrimFloat.leb 15 rate
           then ["rate_unusually_high: " +:+ str_of_float rate]
           else []
  end.

Definition prev_flags (raw : RawRow.t) : list string :=
  match RawRow.unemployment_rate_prev_month raw with
  | None => ["missing_prev_month"]
  | Some _ => []
  end.

(** The three blocking checks of [_validate_row]. *)
Definition state_known (raw : RawRow.t) : bool :=
  bool_decide
    (is_Some (get_state_by_code (upper (strip (RawRow.state_code raw))))).

Definition date_parses (raw : RawRow.t) : bool :=
  bool_decide (is_Some (_normalize_date (RawRow.month raw))).

Definition rate_plausible (raw : RawRow.t) : bool :=
  match RawRow.unemployment_rate raw with
  | None => false
  | Some rate => negb (PrimFloat.ltb rate 0 || PrimFloat.leb 100 rate)
  end.

(** Text made of whitespace only. *)
Fixpoint all_space (s : string) : bool :=
  match s with
  | EmptyString => true
  | String c s' => is_space c && all_space s'
  end.

(** [s] is four digits, a ['/'] or a ['-'], and two digits, between
    optional whitespace; [canonical] is the same digits around a ['-']. *)
Definition month_shaped (s canonical : string) : Prop :=
  exists (lead trail : string) (y1 y2 y3 y4 sep m1 m2 : ascii),
    all_space lead = true /\ all_space trail = true /\
    forallb is_digit [y1; y2; y3; y4; m1; m2] = true /\
    (sep = "/"%char \/ sep = "-"%char) /\
    s = lead +:+ string_of_list_ascii [y1; y2; y3; y4; sep; m1; m2] +:+ trail /\
    canonical = string_of_list_ascii [y1; y2; y3; y4; "-"%char; m1; m2].

(* ===================================================================== *)
(** * Notions used in the proofs and the examples *)
(* ===================================================================== *)

Fixpoint all_digits (s : string) : bool :=
  match s with
  | EmptyString => true
  | String c s' => is_digit c && all_digits s'
  end.

Definition prev_of (year month : Z) : Z * Z :=
  if (month - 1 =? 0)%Z then ((year - 1)%Z, 12%Z) else (year, (month - 1)%Z).

Fixpoint strictly_before (a b : string) : bool :=
  match a, b with
  | String c a', String d b' =>
      match Ascii.compare c d with
      | Lt => Nat.eqb (String.length a') (String.length b')
      | Eq => strictly_before a' b'
      | Gt => false
      end
  | _, _ => false
  end.

Fixpoint years_ordered_from (fuel : nat) (y : Z) : bool :=
  match fuel with
  | O => true
  | S fuel' =>
      if strictly_before (str_of_int y) (str_of_int (y + 1))
      then years_ordered_from fuel' (y + 1)%Z else false
  end.

Definition GATE_CHECKED_UP_TO : Z := 65536.

Fixpoint gate_agrees_from (fuel : nat) (n : Z) : bool :=
  match fuel with
  | O => true
  | S fuel' =>
      if Bool.eqb (PrimFloat.ltb PUBLISH_GATE_THRESHOLD
                     (PrimFloat.div (float_of_int n) (float_of_int TOTAL_STATES)))
                  (20 <? n)%Z
      then gate_agrees_from fuel' (n + 1)%Z else false
  end.

Definition key_le {A} (key : A -> string) (x y : A) : Prop :=
  str_lt (key y) (key x) = false.

Definition dict_wf (d : pivot_dict) : Prop :=
  NoDup d.*1 /\ Forall (fun kv => kv.1 = key_of kv.2) d.

Definition agree_on (s : string) (d1 d2 : pivot_dict) : Prop :=
  forall date, dict_get (s, date) d1 = dict_get (s, date) d2.

(** The binary64 number nearest to 4.6. *)
Definition rate_4_6 : float := 0x1.2666666666666p+2%float.

(** Example rows in the shape of the repository's tests. *)
Definition example_row (code month : string) (rate prev : option float)
  (idx : Z) (flags : list string) (publishable : bool) : ValidatedRow :=
  {| state_canonical := code; state_code := code; month_canonical := month;
     unemployment_rate := rate; unemployment_rate_prev_month := prev;
     source := "BLS"; source_row_index := idx; qa_flags := flags;
     is_publishable := publishable |}.

(** 4.7, 5.2, 5.3, 9.9, 4.5 and 4.4 as binary64 numbers. *)
Definition rate_4_7 : float := 0x1.2cccccccccccdp+2%float.
Definition rate_5_2 : float := 0x1.4cccccccccccdp+2%float.
Definition rate_5_3 : float := 0x1.5333333333333p+2%float.
Definition rate_9_9 : float := 0x1.3cccccccccccdp+3%float.
Definition rate_4_4 : float := 0x1.199999999999ap+2%float.

(** Three months of one state: each later row restates the month before. *)
Definition chain_oct : ValidatedRow :=
  example_row "RI" "2025-10" (Some 27%float) (Some rate_5_2) 2
    ["rate_unusually_high: 27.0"] true.
Definition chain_nov : ValidatedRow :=
  example_row "RI" "2025-11" (Some 5.5%float) (Some rate_5_3) 3 [] true.
Definition chain_dec : ValidatedRow :=
  example_row "RI" "2025-12" (Some 6%float) (Some rate_9_9) 4 [] true.

(** Two rows of one state and month that differ in their current rate. *)
Definition twin_a : ValidatedRow :=
  example_row "AL" "2025-12" (Some rate_4_6) None 2 ["missing_prev_month"] true.
Definition twin_b : ValidatedRow :=
  example_row "AL" "2025-12" (Some rate_4_7) None 3 ["missing_prev_month"] true.

(** The two rows of the revision example for December 999 and January
    1000, months that [_normalize_date] returns as ["0999-12"] and
    ["1000-01"]. *)
Definition early_a : ValidatedRow :=
  example_row "AL" "0999-12" (Some 10%float) (Some 9%float) 2 [] true.
Definition early_b : ValidatedRow :=
  example_row "AL" "1000-01" (Some rate_4_6) (Some 5%float) 3 [] true.

(** A publishable November row and an unpublishable December row that
    lacks both rates. *)
Definition nov_ok : ValidatedRow :=
  example_row "AL" "2025-11" (Some 4.5%float) (Some rate_4_4) 2 [] true.
Definition dec_blocked : ValidatedRow :=
  example_row "AL" "2025-12" None None 3
    ["missing_rate"; "missing_prev_month"] false.
Definition dec_no_prev : ValidatedRow :=
  example_row "AL" "2025-12" (Some rate_4_6) None 3 ["missing_prev_month"] true.

(** [n] states with one unpublishable row each, then [m] states with one
    publishable row each. *)
Definition example_batch (n m : Z) : list ValidatedRow :=
  ((fun i => example_row ("S" +:+ str_of_int i) "2025-12" None None 0
               ["missing_rate"] false) <$> seqZ 0 n)
  ++ ((fun i => example_row ("S" +:+ str_of_int i) "2025-12" (Some 4%float)
                  (Some 4%float) 0 [] true) <$> seqZ n m).

Definition example_raw (state code : string) (month rate prev : cell)
  : gmap string cell :=
  <["state" := CStr state]> (<["state_code" := CStr code]>
  (<["month" := month]> (<["unemployment_rate" := rate]>
  (<["unemployment_rate_prev_month" := prev]>
  (<["source" := CStr "BLS"]> ∅))))).

Definition example_month_int : gmap string cell :=
  <["state" := CStr "Alabama"]> (<["state_code" := CStr "AL"]>
  (<["month" := CInt 202512]> (<["unemployment_rate" := CFloat 4.5]>
  (<["unemployment_rate_prev_month" := CFloat 4.5]>
  (<["source" := CStr "BLS"]> ∅))))).

(* ===================================================================== *)
(** * More of the program: states.py, validate.py, output.py, main.py *)
(* ===================================================================== *)

(** ** states.py: lookup by name, derived counts *)

Definition lower_ascii (c : ascii) : ascii :=
  let n := nat_of_ascii c in
  if (65 <=? n)%nat && (n <=? 90)%nat then ascii_of_nat (n + 32) else c.

(** [s.lower()] *)
Fixpoint lower (s : string) : string :=
  match s with
  | EmptyString => EmptyString
  | String c s' => String (lower_ascii c) (lower s')
  end.

(** [{s["name"].lower(): s for s in STATES}] *)
Definition _BY_NAME : gmap string state_ref :=
  foldl (fun m s => <[lower (name s) := s]> m) ∅ STATES.

Definition get_state_by_name (state_name : string) : option state_ref :=
  _BY_NAME !! lower state_name.

(** [counts[key] += 1] on a [Counter]: a key that is absent counts 0. *)
Definition tally (counts : gmap string nat) (key : string)
  : gmap string nat :=
  <[key := S (default 0%nat (counts !! key))]> counts.

(** [dict(Counter(keys))] *)
Definition Counter (keys : list string) : gmap string nat :=
  foldl tally ∅ keys.

Definition REGION_STATE_COUNTS : gmap string nat :=
  Counter (census_region <$> STATES).

Definition DIVISION_STATE_COUNTS : gmap string nat :=
  Counter (census_division <$> STATES).

(** ** validate.py: the summary of the flags *)

Definition _qa_summary (validated : list ValidatedRow) : gmap string nat :=
  foldl
    (fun counts row =>
       foldl (fun counts flag => tally counts (flag_category flag))
             counts (qa_flags row))
    ∅ validated.

(** The number of occurrences of [key] in [keys]. *)
Definition occurrences (key : string) (keys : list string) : nat :=
  length (List.filter (String.eqb key) keys).

(** ** output.py: dates, ordinals, the latest version of each row *)

Module output.

(** The exceptions that leave the helpers below. *)
Inductive exn := ValueError | KeyError.

Definition _MONTH_ABBREVS : gmap Z string :=
list_to_map
  [(1, "Jan."); (2, "Feb."); (3, "March"); (4, "April"); (5, "May");
   (6, "June"); (7, "July"); (8, "Aug."); (9, "Sept."); (10, "Oct.");
   (11, "Nov."); (12, "Dec.")]%Z.

(** ['2025-12-01'] to ['Dec. 1, 2025']. The three parts are read by
  [int] before the month is looked up; a text that does not split into
  three integers is a [ValueError], a month without an abbreviation a
  [KeyError]. *)
Definition _format_ap_date (date_str : string) : exn + string :=
match split_on "-" date_str with
| [y; m; d] =>
    match py_int y, py_int m, py_int d with
    | Some year, Some month, Some day =>
        match _MONTH_ABBREVS !! month with
        | Some abbrev =>
            inr (abbrev +:+ " " +:+ str_of_int day +:+ ", "
                 +:+ str_of_int year)
        | None => inl KeyError
        end
    | _, _, _ => inl ValueError
    end
| _ => inl ValueError
end.

(** [%] with a positive modulus is [Z.modulo]. *)
Definition ordinal (n : Z) : string :=
if ((11 <=? n mod 100) && (n mod 100 <=? 13))%Z
then str_of_int n +:+ "th"
else if (n mod 10 =? 1)%Z then str_of_int n +:+ "st"
else if (n mod 10 =? 2)%Z then str_of_int n +:+ "nd"
else if (n mod 10 =? 3)%Z then str_of_int n +:+ "rd"
else str_of_int n +:+ "th".

(** ['2025-12-01'] to ['2025-11-01']. *)
Definition _prev_month_date (date_str : string) : exn + string :=
match split_on "-" date_str with
| [y; m; d] =>
    match py_int y, py_int m, py_int d with
    | Some year, Some month, Some _ =>
        let month := (month - 1)%Z in
        let '(year, month) :=
          if (month =? 0)%Z then ((year - 1)%Z, 12%Z) else (year, month) in
        inr (str_of_int year +:+ "-" +:+ fmt_02d month +:+ "-01")
    | _, _, _ => inl ValueError
    end
| _ => inl ValueError
end.

(** The body of the loop of [_read_latest_clean_data] for one parsed
  line. *)
Definition keep_latest (by_key : pivot_dict) (row : CleanRow.t)
: pivot_dict :=
let key := (CleanRow.state_code row, CleanRow.date row) in
match dict_get key by_key with
| None => dict_set key row by_key
| Some old =>
    if str_lt (CleanRow.ingest_run old) (CleanRow.ingest_run row)
    then dict_set key row by_key
    else by_key
end.

(** [_read_latest_clean_data] on the lines of the file, parsed. *)
Definition _read_latest_clean_data (rows : list CleanRow.t)
: list CleanRow.t :=
(foldl keep_latest [] rows).*2.

(** [a < b] on the sort keys, the other way round under [reverse=True]. *)
Definition key_lt (reverse : bool) (a b : float) : bool :=
if reverse then PrimFloat.ltb b a else PrimFloat.ltb a b.

(** [sorted(items, key=lambda x: x[1], reverse=reverse)]: the stable sort,
  by insertion. On values that are numbers every stable sort returns
  this list. With a value that is not a number the comparisons are not
  an order, and the list Python returns may be another permutation of
  the items. *)
Fixpoint insert_by_value (reverse : bool) (x : string * float)
(l : list (string * float)) : list (string * float) :=
match l with
| [] => [x]
| y :: l' =>
    if key_lt reverse (snd y) (snd x)
    then y :: insert_by_value reverse x l'
    else x :: y :: l'
end.

Definition sorted_by_value (items : list (string * float)) (reverse : bool)
: list (string * float) :=
foldr (insert_by_value reverse) [] items.

(** The inner [while] of [_competition_ranks]: how far [j] moves from
  [i], [rest] being the sorted items from index [i] on and [v] the value
  at [i]. *)
Fixpoint run_length (v : float) (rest : list (string * float)) : nat :=
match rest with
| [] => O
| item :: rest' =>
    if PrimFloat.eqb (snd item) v then S (run_length v rest') else O
end.

(** [ranks[sorted_items[k][0]] = i + 1] *)
Definition assign_rank (i : nat) (ranks : gmap string Z)
(item : string * float) : gmap string Z :=
<[fst item := (Z.of_nat i + 1)%Z]> ranks.

(** The outer [while] of [_competition_ranks], from index [i]. [fuel]
  bounds the number of rounds; [None] says that they did not suffice. *)
Fixpoint rank_runs (fuel : nat) (sorted_items : list (string * float))
(i : nat) (ranks : gmap string Z) : option (gmap string Z) :=
match fuel with
| O => None
| S fuel' =>
    match sorted_items !! i with
    | None => Some ranks
    | Some item =>
        let rest := drop i sorted_items in
        let j := (i + run_length (snd item) rest)%nat in
        rank_runs fuel' sorted_items j
          (foldl (assign_rank i) ranks (take (j - i) rest))
    end
end.

Definition _competition_ranks (fuel : nat) (items : list (string * float))
(reverse : bool) : option (gmap string Z) :=
rank_runs fuel (sorted_by_value items reverse) 0 ∅.

End output.

(** ** main.py: what the manifest says of the validated rows *)

(** [sum(1 for r in validated_rows if r.is_publishable)] *)
Definition publishable_count (validated_rows : list ValidatedRow) : Z :=
  Z.of_nat (length (List.filter is_publishable validated_rows)).

(** [state_set]: the state codes of the publishable rows. *)
Definition state_set (validated_rows : list ValidatedRow) : gset string :=
  foldl (fun set r => if is_publishable r then set ∪ {[ state_code r ]} else set)
        ∅ validated_rows.

(* ===================================================================== *)
(** * Notions used to state the further properties *)
(* ===================================================================== *)

(** Text without a ['-']. *)
Fixpoint no_dash (s : string) : bool :=
  match s with
  | EmptyString => true
  | String c s' => negb (Ascii.eqb c "-") && no_dash s'
  end.

(** ASCII text: every code point is below 128. *)
Fixpoint is_ascii_text (s : string) : bool :=
  match s with
  | EmptyString => true
  | String c s' => (nat_of_ascii c <? 128)%nat && is_ascii_text s'
  end.

(** Equality of two entries of the reference table is decidable. *)
#[global] Instance state_ref_eq_dec : EqDecision state_ref :=
  ltac:(solve_decision).

(** Two rows that differ at most in their flags and their verdict. *)
Definition same_observation (a b : ValidatedRow) : Prop :=
  state_canonical a = state_canonical b /\
  state_code a = state_code b /\
  month_canonical a = month_canonical b /\
  unemployment_rate a = unemployment_rate b /\
  unemployment_rate_prev_month a = unemployment_rate_prev_month b /\
  source a = source b /\
  source_row_index a = source_row_index b.

(** Neither rate of the row is a NaN. *)
Definition rates_are_numbers (row : ValidatedRow) : bool :=
  match unemployment_rate row with
  | Some x => negb (PrimFloat.is_nan x)
  | None => true
  end
  && match unemployment_rate_prev_month row with
     | Some x => negb (PrimFloat.is_nan x)
     | None => true
     end.

(** The categories of the flags that come with [publishable = False] or
    [row.is_publishable = False] in validate.py. *)
Definition BLOCKING_CATEGORIES : list string :=
  ["unknown_state_code"; "unparseable_date"; "missing_rate";
   "implausible_rate"; "rate_conflict"].

Definition has_blocking_flag (flags : list string) : bool :=
  existsb (fun cat => has_category cat flags) BLOCKING_CATEGORIES.

(** A record with a lower-case name and code, a slash in its month and no
    rate, and the row the validator makes of it. *)
Definition example_lowercase : gmap string cell :=
  example_raw "alabama" " al " (CStr "2025/12") CNone CNone.

Definition example_lowercase_row : ValidatedRow :=
  {| state_canonical := "Alabama"; state_code := "AL";
     month_canonical := "2025-12";
     unemployment_rate := None; unemployment_rate_prev_month := None;
     source := "BLS"; source_row_index := 2;
     qa_flags :=
       ["state_name_normalized: original='alabama' canonical='Alabama'";
        "date_corrected: original='2025/12' canonical='2025-12'";
        "missing_rate"; "missing_prev_month"];
     is_publishable := false |}.

(** A record whose rate is not a number, and its row. *)
Definition example_nan : gmap string cell :=
  example_raw "Alabama" "AL" (CStr "2025-12") (CFloat nan) CNone.

Definition example_nan_row : ValidatedRow :=
  {| state_canonical := "Alabama"; state_code := "AL";
     month_canonical := "2025-12";
     unemployment_rate := Some nan; unemployment_rate_prev_month := None;
     source := "BLS"; source_row_index := 2;
     qa_flags := ["missing_prev_month"];
     is_publishable := true |}.

(** ** The order of the floats that are numbers *)

(** A float that is a number as a triple of integers that compare, in
    lexicographic order, as the floats do: the class (infinities, negative,
    zero, positive), then the exponent and the mantissa, negated for a
    negative float. *)
Definition float_code (f : spec_float) : Z * Z * Z :=
  match f with
  | S754_zero _ => (0, 0, 0)%Z
  | S754_nan => (0, 0, 0)%Z
  | S754_infinity true => (-2, 0, 0)%Z
  | S754_infinity false => (2, 0, 0)%Z
  | S754_finite true m e => (-1, - e, Zneg m)%Z
  | S754_finite false m e => (1, e, Zpos m)%Z
  end.

(** The lexicographic order of the triples. *)
Definition code_lt (a b : Z * Z * Z) : Prop :=
  (a.1.1 < b.1.1
   \/ (a.1.1 = b.1.1
       /\ (a.1.2 < b.1.2 \/ (a.1.2 = b.1.2 /\ a.2 < b.2))))%Z.

(** Equality of the triples, component by component. *)
Definition code_eq (a b : Z * Z * Z) : Prop :=
  a.1.1 = b.1.1 /\ a.1.2 = b.1.2 /\ a.2 = b.2.

(** ** Notions for the ranking *)

(** An item whose value is a number. *)
Definition is_number (item : string * float) : Prop :=
  PrimFloat.is_nan (snd item) = false.

(** The number of items that sort strictly before the value [v]: under
    [reverse=True], the items with a greater value. *)
Definition sorts_before (reverse : bool) (v : float)
  (items : list (string * float)) : nat :=
  length (List.filter (fun item => output.key_lt reverse (snd item) v) items).

(** Index [i] starts a run: every item before it sorts strictly before
    every item from it on. *)
Definition run_boundary (reverse : bool) (s : list (string * float))
  (i : nat) : Prop :=
  forall p q x y, (p < i)%nat -> (i <= q)%nat ->
    s !! p = Some x -> s !! q = Some y ->
    output.key_lt reverse x.2 y.2 = true.

#[local] Opaque _BY_CODE.

(* ===================================================================== *)
(** * The reconciliation passes *)
(* ===================================================================== *)

Section reconciliation.
Context `{Builtins}.

Lemma append_flag_publishable row flag :
  is_publishable (append_flag row flag) = is_publishable row.
Proof. reflexivity. Qed.

Lemma check_rate_conflict_cases claims row :
  check_rate_conflict claims row = row
  \/ exists rate claimed idx,
      is_publishable row = true /\
      unemployment_rate row = Some rate /\
      List.find (fun claim => float_ne rate (fst claim))
        (default [] (claims !! (state_code row, month_canonical row)))
      = Some (claimed, idx) /\
      check_rate_conflict claims row
      = set_unpublishable
          (append_flag row (rate_conflict_flag rate claimed idx)).
Proof.
  unfold check_rate_conflict.
  destruct (is_publishable row) eqn:Hpub; simpl; [|by left].
  destruct (unemployment_rate row) as [rate|] eqn:Hrate; [|by left].
  destruct (List.find _ _) as [[claimed idx]|] eqn:Hfind; [|by left].
  right. exists rate, claimed, idx. done.
Qed.

Lemma check_rate_conflict_publishable claims row :
  is_publishable (check_rate_conflict claims row) = true ->
  is_publishable row = true.
Proof.
  destruct (check_rate_conflict_cases claims row)
    as [-> | (rate & claimed & idx & Hpub & _ & _ & ->)]; done.
Qed.

Lemma check_imputed_cases seen row :
  check_imputed seen row = row
  \/ exists prev,
      is_publishable row = true /\
      has_flag "missing_prev_month" (qa_flags row) = true /\
      _prev_month (month_canonical row) = Some prev /\
      (state_code row, prev) ∈ seen /\
      check_imputed seen row
      = append_flag row ("prev_month_imputed: sourced from " +:+ prev).
Proof.
  unfold check_imputed.
  destruct (is_publishable row) eqn:Hpub; simpl; [|by left].
  destruct (has_flag _ _) eqn:Hflag; simpl; [|by left].
  destruct (_prev_month _) as [prev|] eqn:Hprev; [|by left].
  case_bool_decide; [|by left].
  right. by exists prev.
Qed.

Lemma check_imputed_publishable seen row :
  is_publishable (check_imputed seen row) = is_publishable row.
Proof.
  destruct (check_imputed_cases seen row)
    as [-> | (prev & _ & _ & _ & _ & ->)]; done.
Qed.

Lemma prev_month_claims_lookup validated key :
  default [] (prev_month_claims validated !! key) = claims_on key validated.
Proof.
  unfold prev_month_claims, claims_on.
  enough (Hgen : forall (l : list ValidatedRow) acc,
    default [] (foldl add_claim acc l !! key)
    = default [] (acc !! key) ++ omap (claim_on key) l).
  { rewrite Hgen, lookup_empty. done. }
  induction l as [|row l IH]; intros acc; simpl.
  { by rewrite app_nil_r. }
  rewrite IH. unfold claim_on, add_claim.
  destruct (is_publishable row); simpl; [|done].
  destruct (unemployment_rate_prev_month row) as [prev|]; [|done].
  destruct (_prev_month (month_canonical row)) as [ref_month|]; [|done].
  case_bool_decide as Hkey.
  - rewrite Hkey, lookup_insert_eq. simpl. by rewrite <- app_assoc.
  - by rewrite lookup_insert_ne.
Qed.

Lemma elem_of_claims_on key validated claimed idx :
  (claimed, idx) ∈ claims_on key validated <->
  exists B, B ∈ validated /\ is_publishable B = true /\
    unemployment_rate_prev_month B = Some claimed /\
    source_row_index B = idx /\
    exists ref_month, _prev_month (month_canonical B) = Some ref_month /\
                      (state_code B, ref_month) = key.
Proof.
  unfold claims_on. rewrite list_elem_of_omap. unfold claim_on.
  split.
  - intros (B & HB & Hc). exists B. split; [done|].
    destruct (is_publishable B); [|done].
    destruct (unemployment_rate_prev_month B) as [prev|]; [|done].
    destruct (_prev_month (month_canonical B)) as [ref_month|]; [|done].
    case_bool_decide; [|done]. simplify_eq. eauto 10.
  - intros (B & HB & Hpub & Hprev & Hidx & ref_month & Href & Hkey).
    exists B. split; [done|].
    rewrite Hpub, Hprev, Href. rewrite bool_decide_eq_true_2 by done.
    by rewrite Hidx.
Qed.

Lemma elem_of_add_value seen row key :
  key ∈ add_value seen row <-> key ∈ seen \/ gives_value key row.
Proof.
  unfold add_value, gives_value.
  destruct (is_publishable row); simpl; [|naive_solver].
  destruct (unemployment_rate row) as [rate|];
    destruct (unemployment_rate_prev_month row) as [prev|];
    try destruct (_prev_month (month_canonical row)) as [pm|];
    rewrite ?elem_of_union, ?elem_of_singleton;
    unfold is_Some; naive_solver.
Qed.

Lemma elem_of_will_have_value validated key :
  key ∈ will_have_value validated <->
  exists row, row ∈ validated /\ gives_value key row.
Proof.
  unfold will_have_value.
  enough (Hgen : forall (l : list ValidatedRow) (acc : gset (string * string)),
    key ∈ foldl add_value acc l
    <-> key ∈ acc \/ exists row, row ∈ l /\ gives_value key row).
  { rewrite Hgen. set_solver. }
  induction l as [|row l IH]; intros acc; simpl.
  { set_solver. }
  rewrite IH, elem_of_add_value. set_solver.
Qed.

Lemma has_flag_elem_of flag flags :
  has_flag flag flags = true <-> flag ∈ flags.
Proof.
  unfold has_flag. rewrite existsb_exists. split.
  - intros (x & Hx & Heq). apply String.eqb_eq in Heq as ->.
    by apply list_elem_of_In.
  - intros Hin. exists flag. split; [by apply list_elem_of_In|].
    apply String.eqb_refl.
Qed.

Lemma find_conflict_exists rate (claims : list (float * Z)) claimed idx :
  (claimed, idx) ∈ claims -> float_ne rate claimed = true ->
  exists claimed' idx',
    List.find (fun claim => float_ne rate (fst claim)) claims
    = Some (claimed', idx').
Proof.
  intros Hin Hne.
  destruct (List.find _ claims) as [[c' i']|] eqn:Hfind; [eauto|].
  apply list_elem_of_In in Hin.
  pose proof (find_none _ _ Hfind _ Hin) as Hnone. simpl in Hnone.
  congruence.
Qed.

(** C4. Across [_check_rate_conflicts] followed by
    [_check_prev_month_imputed] the batch keeps its length, and for the
    row at every index the verdict can only go down: a row publishable
    after a pass was publishable before it, so a row unpublishable before
    the passes is unpublishable after them. *)
Theorem verdict_never_raised (validated : list ValidatedRow) :
  let after1 := _check_rate_conflicts validated in
  let after2 := _check_prev_month_imputed after1 in
  length after2 = length validated /\
  forall (i : nat) (row : ValidatedRow),
    validated !! i = Some row ->
    exists row1 row2,
      after1 !! i = Some row1 /\ after2 !! i = Some row2 /\
      (is_publishable row1 = true -> is_publishable row = true) /\
      (is_publishable row2 = true -> is_publishable row1 = true) /\
      (is_publishable row = false -> is_publishable row2 = false).
Proof.
  intros after1 after2. split.
  { unfold after2, after1, _check_prev_month_imputed, _check_rate_conflicts.
    by rewrite !length_fmap. }
  intros i row Hi.
  unfold after2, after1, _check_prev_month_imputed, _check_rate_conflicts.
  rewrite !list_lookup_fmap, Hi. simpl.
  eexists _, _. split; [done|]. split; [done|].
  set (claims := prev_month_claims validated).
  set (seen := will_have_value _).
  pose proof (check_rate_conflict_publishable claims row) as H1.
  pose proof (check_imputed_publishable seen (check_rate_conflict claims row))
    as H2.
  split; [done|]. split; [by rewrite H2|].
  intros Hf. rewrite H2.
  destruct (is_publishable (check_rate_conflict claims row)); [|done].
  rewrite H1 in Hf; done.
Qed.

(** C3, amended. A publishable row with a current rate, about whose own
    month a publishable row [B] of the same state claims a different prior
    rate, leaves the pass with exactly one more flag, of category
    [rate_conflict], naming the first conflicting claim, and unpublishable.
    The claiming row is left as it was provided no claim about its own
    month differs from its own current rate. *)
Theorem rate_conflict_blocks_row (validated : list ValidatedRow) (i : nat)
  (row B : ValidatedRow) (rate claimed : float) :
  validated !! i = Some row ->
  is_publishable row = true ->
  unemployment_rate row = Some rate ->
  B ∈ validated ->
  is_publishable B = true ->
  unemployment_rate_prev_month B = Some claimed ->
  state_code B = state_code row ->
  _prev_month (month_canonical B) = Some (month_canonical row) ->
  float_ne rate claimed = true ->
  (exists row' v idx,
      _check_rate_conflicts validated !! i = Some row' /\
      List.find (fun claim => float_ne rate (fst claim))
        (claims_on (state_code row, month_canonical row) validated)
      = Some (v, idx) /\
      row' = set_unpublishable (append_flag row (rate_conflict_flag rate v idx)) /\
      qa_flags row' = qa_flags row ++ [rate_conflict_flag rate v idx] /\
      flag_category (rate_conflict_flag rate v idx) = "rate_conflict" /\
      is_publishable row' = false)
  /\ forall j : nat,
      validated !! j = Some B ->
      (forall (C : ValidatedRow) (r v : float),
          C ∈ validated -> is_publishable C = true ->
          unemployment_rate_prev_month C = Some v ->
          state_code C = state_code B ->
          _prev_month (month_canonical C) = Some (month_canonical B) ->
          unemployment_rate B = Some r ->
          float_ne r v = false) ->
      _check_rate_conflicts validated !! j = Some B.
Proof.
  intros Hi Hpub Hrate HB HBpub HBprev HBstate HBmonth Hne. split.
  - assert (Hin : (claimed, source_row_index B)
                  ∈ claims_on (state_code row, month_canonical row) validated).
    { apply elem_of_claims_on. exists B. repeat split; try done.
      exists (month_canonical row). split; [done|]. by rewrite HBstate. }
    destruct (find_conflict_exists rate _ _ _ Hin Hne) as (v & idx & Hfind).
    unfold _check_rate_conflicts. rewrite list_lookup_fmap, Hi. simpl.
    eexists _, v, idx. split; [done|]. split; [done|].
    unfold check_rate_conflict.
    rewrite Hpub, Hrate, prev_month_claims_lookup, Hfind. simpl.
    done.
  - intros j Hj Hnone.
    unfold _check_rate_conflicts. rewrite list_lookup_fmap, Hj. simpl.
    f_equal.
    destruct (check_rate_conflict_cases (prev_month_claims validated) B)
      as [-> | (r & v & idx & _ & Hr & Hfind & _)]; [done|].
    rewrite prev_month_claims_lookup in Hfind.
    apply find_some in Hfind as [Hin Hv]. simpl in Hv.
    apply list_elem_of_In, elem_of_claims_on in Hin
      as (C & HC & HCpub & HCprev & _ & ref & Href & Hkey).
    injection Hkey as Hs Hm. subst ref.
    rewrite (Hnone C r v) in Hv; done.
Qed.

(** C7, amended. [_check_prev_month_imputed] keeps the length of the
    batch and every row's verdict, and every publishable row that carries
    [missing_prev_month] and whose month before is given a value by some
    row of the batch leaves the pass with the flag
    [prev_month_imputed: sourced from <month>] appended. *)
Theorem imputation_flags_publishable_rows (validated : list ValidatedRow) :
  let after := _check_prev_month_imputed validated in
  length after = length validated /\
  (forall (i : nat) (row : ValidatedRow),
      validated !! i = Some row ->
      exists row', after !! i = Some row' /\
                   is_publishable row' = is_publishable row) /\
  (forall (i : nat) (row source_row : ValidatedRow) (prev : string),
      validated !! i = Some row ->
      is_publishable row = true ->
      "missing_prev_month" ∈ qa_flags row ->
      _prev_month (month_canonical row) = Some prev ->
      source_row ∈ validated ->
      gives_value (state_code row, prev) source_row ->
      after !! i
      = Some (append_flag row ("prev_month_imputed: sourced from " +:+ prev))).
Proof.
  intros after. unfold after, _check_prev_month_imputed.
  split; [by rewrite length_fmap|]. split.
  - intros i row Hi. rewrite list_lookup_fmap, Hi. simpl.
    eexists. split; [done|]. apply check_imputed_publishable.
  - intros i row source_row prev Hi Hpub Hflag Hprev Hsrc Hgives.
    rewrite list_lookup_fmap, Hi. simpl. f_equal.
    unfold check_imputed.
    apply has_flag_elem_of in Hflag. rewrite Hpub, Hflag, Hprev. simpl.
    rewrite bool_decide_eq_true_2; [done|].
    apply elem_of_will_have_value. eauto.
Qed.

End reconciliation.

(* ===================================================================== *)
(** * The row validator *)
(* ===================================================================== *)

(* floats *)
Lemma SFcompare_antisym x y c :
  SFcompare x y = Some c -> SFcompare y x = Some (CompOpp c).
Proof.
  destruct x as [sx|sx| |sx mx ex], y as [sy|sy| |sy my ey]; simpl;
    try discriminate; intros [= <-]; f_equal;
    try (destruct sx; reflexivity);
    try (destruct sy; reflexivity);
    try (destruct sx, sy; reflexivity).
  destruct sx, sy; try reflexivity;
    rewrite (Z.compare_antisym ex ey);
    destruct (ex ?= ey)%Z; simpl; try reflexivity;
    change (PosDef.Pos.compare_cont Eq my mx) with (Pos.compare my mx);
    change (PosDef.Pos.compare_cont Eq mx my) with (Pos.compare mx my);
    rewrite (Pos.compare_antisym mx my); reflexivity.
Qed.

Lemma float_ltb_not_leb (a b : float) :
  PrimFloat.ltb a b = true -> PrimFloat.leb b a = false.
Proof.
  rewrite ltb_spec, leb_spec. unfold SFltb, SFleb.
  destruct (SFcompare (Prim2SF a) (Prim2SF b)) as [c|] eqn:Hc; [|done].
  rewrite (SFcompare_antisym _ _ _ Hc). by destruct c.
Qed.

Lemma float_leb_not_ltb (a b : float) :
  PrimFloat.leb a b = true -> PrimFloat.ltb b a = false.
Proof.
  rewrite ltb_spec, leb_spec. unfold SFltb, SFleb.
  destruct (SFcompare (Prim2SF a) (Prim2SF b)) as [c|] eqn:Hc; [|done].
  rewrite (SFcompare_antisym _ _ _ Hc). by destruct c.
Qed.

Lemma is_digit_not_space c : is_digit c = true -> is_space c = false.
Proof. destruct c as [[] [] [] [] [] [] [] []]; vm_compute; congruence. Qed.

Lemma lstrip_all_space lead s :
  all_space lead = true -> lstrip (lead +:+ s) = lstrip s.
Proof.
  induction lead as [|c lead IH]; simpl; [done|].
  intros [Hc Hl]%andb_prop. rewrite Hc. auto.
Qed.

Lemma rstrip_all_space trail : all_space trail = true -> rstrip trail = "".
Proof.
  induction trail as [|c trail IH]; simpl; [done|].
  intros [Hc Hl]%andb_prop. rewrite IH, Hc; done.
Qed.

Lemma strip_month_shaped s canonical :
  month_shaped s canonical ->
  exists sep, (sep = "/"%char \/ sep = "-"%char) /\
    exists y1 y2 y3 y4 m1 m2,
    forallb is_digit [y1; y2; y3; y4; m1; m2] = true /\
    strip s = string_of_list_ascii [y1; y2; y3; y4; sep; m1; m2] /\
    canonical = string_of_list_ascii [y1; y2; y3; y4; "-"%char; m1; m2].
Proof.
  intros (lead & trail & y1 & y2 & y3 & y4 & sep & m1 & m2
          & Hlead & Htrail & Hdig & Hsep & -> & ->).
  exists sep. split; [done|]. exists y1, y2, y3, y4, m1, m2.
  split; [done|]. split; [|done].
  simpl in Hdig. repeat (apply andb_prop in Hdig as [? Hdig]).
  unfold strip. rewrite lstrip_all_space by done. simpl.
  rewrite (is_digit_not_space y1) by done. simpl.
  change ("" +:+ trail) with trail.
  rewrite (rstrip_all_space trail) by done.
  by rewrite (is_digit_not_space m2).
Qed.

Lemma normalize_date_month_shaped s canonical :
  month_shaped s canonical -> _normalize_date s = Some canonical.
Proof.
  intros (sep & Hsep & y1 & y2 & y3 & y4 & m1 & m2 & Hdig & Hs & ->)
    %strip_month_shaped.
  unfold _normalize_date. rewrite Hs. simpl list_ascii_of_string.
  cbv beta iota. rewrite Hdig.
  by destruct Hsep as [-> | ->].
Qed.

Section row_validator.
Context `{Builtins}.

Lemma validate_row_checks raw_dict row_index :
  _validate_row raw_dict row_index =
  match RawRow_init (coerce_month raw_dict) with
  | None => None
  | Some raw =>
      Some {| state_canonical :=
                match get_state_by_code (upper (strip (RawRow.state_code raw))) with
                | Some ref => name ref
                | None => strip (RawRow.state raw)
                end;
              state_code := upper (strip (RawRow.state_code raw));
              month_canonical :=
                default (RawRow.month raw) (_normalize_date (RawRow.month raw));
              unemployment_rate := RawRow.unemployment_rate raw;
              unemployment_rate_prev_month :=
                RawRow.unemployment_rate_prev_month raw;
              source := RawRow.source raw;
              source_row_index := row_index;
              qa_flags := state_flags raw ++ date_flags raw ++ rate_flags raw
                          ++ prev_flags raw;
              is_publishable :=
                state_known raw && date_parses raw && rate_plausible raw |}
  end.
Proof.
  unfold _validate_row.
  destruct (RawRow_init (coerce_month raw_dict)) as [raw|]; [|done].
  unfold state_flags, date_flags, rate_flags, prev_flags, state_known,
    date_parses, rate_plausible.
  unfold IMPLAUSIBLE_RATE_LOWER_BOUND, IMPLAUSIBLE_RATE_UPPER_BOUND,
    RATE_WARNING_THRESHOLD.
  destruct (get_state_by_code _) as [ref|];
    destruct (_normalize_date _) as [canonical|];
    destruct (RawRow.unemployment_rate raw) as [rate|];
    destruct (RawRow.unemployment_rate_prev_month raw) as [prev|];
    simpl;
    repeat match goal with
           | |- context [String.eqb ?a ?b] => destruct (String.eqb a b)
           | |- context [PrimFloat.ltb ?a ?b] => destruct (PrimFloat.ltb a b)
           | |- context [PrimFloat.leb ?a ?b] => destruct (PrimFloat.leb a b)
           end; simpl; try reflexivity.
Qed.

Lemma has_category_app cat flags1 flags2 :
  has_category cat (flags1 ++ flags2)
  = has_category cat flags1 || has_category cat flags2.
Proof. apply existsb_app. Qed.

Lemma has_category_elem_of cat flags flag :
  flag ∈ flags -> flag_category flag = cat -> has_category cat flags = true.
Proof.
  intros Hin Hcat. unfold has_category. apply existsb_exists.
  exists flag. split; [by apply list_elem_of_In|].
  rewrite Hcat. apply String.eqb_refl.
Qed.

Lemma has_category_singleton cat flag :
  has_category cat [flag] = String.eqb (flag_category flag) cat.
Proof. unfold has_category, existsb. apply orb_false_r. Qed.

Lemma has_category_nil cat : has_category cat [] = false.
Proof. reflexivity. Qed.

Lemma state_flags_categories raw cat :
  has_category cat (state_flags raw) = true ->
  cat = "unknown_state_code" \/ cat = "state_name_normalized".
Proof.
  unfold state_flags.
  destruct (get_state_by_code _) as [ref|]; [destruct (String.eqb _ _)|];
    rewrite ?has_category_nil, ?has_category_singleton; try discriminate;
    intros <-%String.eqb_eq; auto.
Qed.

Lemma date_flags_categories raw cat :
  has_category cat (date_flags raw) = true ->
  cat = "unparseable_date" \/ cat = "date_corrected".
Proof.
  unfold date_flags.
  destruct (_normalize_date _) as [canonical|]; [destruct (String.eqb _ _)|];
    rewrite ?has_category_nil, ?has_category_singleton; try discriminate;
    intros <-%String.eqb_eq; auto.
Qed.

Lemma prev_flags_categories raw cat :
  has_category cat (prev_flags raw) = true -> cat = "missing_prev_month".
Proof.
  unfold prev_flags.
  destruct (RawRow.unemployment_rate_prev_month raw);
    rewrite ?has_category_nil, ?has_category_singleton; try discriminate;
    by intros <-%String.eqb_eq.
Qed.

Lemma has_category_other_checks raw cat :
  cat ∈ ["missing_rate"; "implausible_rate"; "rate_unusually_high"] ->
  has_category cat (state_flags raw ++ date_flags raw ++ rate_flags raw
                    ++ prev_flags raw)
  = has_category cat (rate_flags raw).
Proof.
  intros Hcat. rewrite !has_category_app.
  destruct (has_category cat (state_flags raw)) eqn:Hs.
  { apply state_flags_categories in Hs as [-> | ->];
      repeat (apply elem_of_cons in Hcat as [Hcat|Hcat]; [discriminate|]);
      by apply elem_of_nil in Hcat. }
  destruct (has_category cat (date_flags raw)) eqn:Hd.
  { apply date_flags_categories in Hd as [-> | ->];
      repeat (apply elem_of_cons in Hcat as [Hcat|Hcat]; [discriminate|]);
      by apply elem_of_nil in Hcat. }
  destruct (has_category cat (prev_flags raw)) eqn:Hp.
  { apply prev_flags_categories in Hp as ->;
      repeat (apply elem_of_cons in Hcat as [Hcat|Hcat]; [discriminate|]);
      by apply elem_of_nil in Hcat. }
  simpl. by rewrite orb_false_r.
Qed.

Lemma elem_of_checks raw flag :
  flag ∈ rate_flags raw ->
  flag ∈ state_flags raw ++ date_flags raw ++ rate_flags raw ++ prev_flags raw.
Proof.
  intros Hin. rewrite !elem_of_app. auto.
Qed.

(** C5. For a raw record that passes the structural stage, whose state
    code is in the reference table and whose month parses: without a
    current rate the row carries [missing_rate] and is unpublishable; with
    a rate below 0 or at least 100 it carries [implausible_rate: <rate>]
    and is unpublishable; with a rate from 0 up to, not including, 100 it
    is publishable, carries neither of these flags, and carries a flag of
    category [rate_unusually_high] exactly when the rate is at least 15. *)
Theorem rate_plausibility (raw_dict : gmap string cell) (row_index : Z)
  (raw : RawRow.t) (ref : state_ref) (canonical : string) :
  RawRow_init (coerce_month raw_dict) = Some raw ->
  get_state_by_code (upper (strip (RawRow.state_code raw))) = Some ref ->
  _normalize_date (RawRow.month raw) = Some canonical ->
  exists row,
    _validate_row raw_dict row_index = Some row /\
    unemployment_rate row = RawRow.unemployment_rate raw /\
    match RawRow.unemployment_rate raw with
    | None =>
        "missing_rate" ∈ qa_flags row /\ is_publishable row = false
    | Some r =>
        (PrimFloat.ltb r 0 = true \/ PrimFloat.leb 100 r = true ->
         "implausible_rate: " +:+ str_of_float r ∈ qa_flags row /\
         is_publishable row = false)
        /\ (PrimFloat.leb 0 r = true -> PrimFloat.ltb r 100 = true ->
            is_publishable row = true /\
            has_category "missing_rate" (qa_flags row) = false /\
            has_category "implausible_rate" (qa_flags row) = false /\
            has_category "rate_unusually_high" (qa_flags row)
            = PrimFloat.leb 15 r /\
            (PrimFloat.leb 15 r = true ->
             "rate_unusually_high: " +:+ str_of_float r ∈ qa_flags row))
    end.
Proof.
  intros Hraw Hstate Hdate.
  rewrite validate_row_checks, Hraw. eexists. split; [done|].
  cbv beta iota delta [unemployment_rate qa_flags is_publishable].
  split; [done|].
  assert (Hknown : state_known raw = true).
  { unfold state_known. rewrite Hstate. by apply bool_decide_eq_true_2. }
  assert (Hparses : date_parses raw = true).
  { unfold date_parses. rewrite Hdate. by apply bool_decide_eq_true_2. }
  rewrite Hknown, Hparses. rewrite !andb_true_l.
  rewrite !has_category_other_checks
    by (repeat first [apply list_elem_of_here | apply list_elem_of_further]).
  pose proof (elem_of_checks raw) as Hin.
  unfold rate_plausible, rate_flags in *.
  destruct (RawRow.unemployment_rate raw) as [r|].
  - split.
    + intros Hout.
      assert (Hor : PrimFloat.ltb r 0 || PrimFloat.leb 100 r = true).
      { destruct Hout as [-> | ->]; [done|apply orb_true_r]. }
      rewrite Hor in *. split; [|done]. apply Hin, list_elem_of_here.
    + intros Hlo Hhi.
      rewrite (float_leb_not_ltb _ _ Hlo), (float_ltb_not_leb _ _ Hhi) in *.
      cbv beta iota delta [orb negb] in *. split; [done|].
      destruct (PrimFloat.leb 15 r) eqn:Hwarn;
        rewrite ?has_category_nil, ?has_category_singleton.
      * repeat split; try done. intros _. apply Hin, list_elem_of_here.
      * done.
  - split; [|done]. apply Hin, list_elem_of_here.
Qed.
End row_validator.

Section row_validator2.
Context `{Builtins}.

Lemma coerce_month_lookup_ne raw_dict key :
  key <> "month" -> coerce_month raw_dict !! key = raw_dict !! key.
Proof.
  intros Hne. unfold coerce_month.
  destruct (raw_dict !! "month") as [[]|]; try done;
    by rewrite lookup_insert_ne.
Qed.

Lemma coerce_month_lookup raw_dict :
  coerce_month raw_dict !! "month" ≫= lax_str =
  match raw_dict !! "month" with
  | Some CNone | None => None
  | Some c => Some (strip (py_str c))
  end.
Proof.
  unfold coerce_month.
  destruct (raw_dict !! "month") as [[]|] eqn:Hm;
    rewrite ?lookup_insert_eq, ?Hm; done.
Qed.

Lemma RawRow_init_coerced raw_dict :
  RawRow_init (coerce_month raw_dict) =
  state ← raw_dict !! "state" ≫= lax_str;
  state_code ← raw_dict !! "state_code" ≫= lax_str;
  month ← match raw_dict !! "month" with
          | Some CNone | None => None
          | Some c => Some (strip (py_str c))
          end;
  rate ← from_option lax_opt_float (Some None)
         (raw_dict !! "unemployment_rate");
  prev ← from_option lax_opt_float (Some None)
         (raw_dict !! "unemployment_rate_prev_month");
  source ← raw_dict !! "source" ≫= lax_str;
  Some (RawRow.mk state state_code month rate prev source).
Proof.
  unfold RawRow_init.
  rewrite coerce_month_lookup.
  rewrite !coerce_month_lookup_ne by discriminate.
  done.
Qed.

Lemma month_cell_cases (c : cell) :
  c = CNone
  \/ (c <> CNone /\
      match c with
      | CNone => None
      | _ => Some (strip (py_str c))
      end = Some (strip (py_str c))).
Proof. destruct c; auto. Qed.

Lemma validate_row_None raw_dict row_index :
  _validate_row raw_dict row_index = None <->
  RawRow_init (coerce_month raw_dict) = None.
Proof.
  rewrite validate_row_checks.
  by destruct (RawRow_init (coerce_month raw_dict)).
Qed.

Lemma validate_row_Some raw_dict row_index row :
  _validate_row raw_dict row_index = Some row ->
  exists raw,
    RawRow_init (coerce_month raw_dict) = Some raw /\
    state_code row = upper (strip (RawRow.state_code raw)) /\
    month_canonical row
    = default (RawRow.month raw) (_normalize_date (RawRow.month raw)) /\
    unemployment_rate row = RawRow.unemployment_rate raw /\
    unemployment_rate_prev_month row
    = RawRow.unemployment_rate_prev_month raw /\
    source_row_index row = row_index /\
    qa_flags row = state_flags raw ++ date_flags raw ++ rate_flags raw
                   ++ prev_flags raw /\
    is_publishable row
    = state_known raw && date_parses raw && rate_plausible raw.
Proof.
  rewrite validate_row_checks.
  destruct (RawRow_init (coerce_month raw_dict)) as [raw|]; [|done].
  intros Hrow. apply (inj Some) in Hrow. subst row. exists raw.
  repeat split; reflexivity.
Qed.

Lemma RawRow_init_None raw_dict :
  RawRow_init (coerce_month raw_dict) = None <->
     raw_dict !! "state" ≫= lax_str = None
     \/ raw_dict !! "state_code" ≫= lax_str = None
     \/ raw_dict !! "source" ≫= lax_str = None
     \/ raw_dict !! "month" = None
     \/ raw_dict !! "month" = Some CNone
     \/ (exists c, raw_dict !! "unemployment_rate" = Some c
                   /\ lax_opt_float c = None)
     \/ (exists c, raw_dict !! "unemployment_rate_prev_month" = Some c
                   /\ lax_opt_float c = None).
Proof.
  rewrite RawRow_init_coerced.
  destruct (raw_dict !! "state" ≫= lax_str) as [state|];
    [|simpl; split; auto].
  destruct (raw_dict !! "state_code" ≫= lax_str) as [code|];
    [|simpl; split; auto].
  destruct (raw_dict !! "month") as [c|] eqn:Hm;
    [|simpl; split; auto 6].
  destruct (month_cell_cases c) as [-> | [Hc Hmonth]];
    [simpl; split; auto 6|].
  rewrite Hmonth. clear Hmonth. simpl.
  destruct (raw_dict !! "unemployment_rate") as [rc|] eqn:Hr; simpl.
  - destruct (lax_opt_float rc) as [rate|] eqn:Hrc; simpl;
      [|split; [intros _; do 5 right; left; eauto|done]].
    destruct (raw_dict !! "unemployment_rate_prev_month") as [pc|] eqn:Hp;
      simpl.
    + destruct (lax_opt_float pc) as [prev|] eqn:Hpc; simpl;
        [|split; [intros _; do 6 right; eauto|done]].
      destruct (raw_dict !! "source" ≫= lax_str) as [src|];
        [|simpl; split; auto].
      simpl. split; [done|]. naive_solver.
    + destruct (raw_dict !! "source" ≫= lax_str) as [src|];
        [|simpl; split; auto].
      simpl. split; [done|]. naive_solver.
  - destruct (raw_dict !! "unemployment_rate_prev_month") as [pc|] eqn:Hp;
      simpl.
    + destruct (lax_opt_float pc) as [prev|] eqn:Hpc; simpl;
        [|split; [intros _; do 6 right; eauto|done]].
      destruct (raw_dict !! "source" ≫= lax_str) as [src|];
        [|simpl; split; auto].
      simpl. split; [done|]. naive_solver.
    + destruct (raw_dict !! "source" ≫= lax_str) as [src|];
        [|simpl; split; auto].
      simpl. split; [done|]. naive_solver.
Qed.

Lemma RawRow_init_month raw_dict raw c :
  raw_dict !! "month" = Some c ->
  RawRow_init (coerce_month raw_dict) = Some raw ->
  c <> CNone /\ RawRow.month raw = strip (py_str c).
Proof.
  rewrite RawRow_init_coerced. intros -> Heq.
  destruct (month_cell_cases c) as [-> | [Hc Hmonth]].
  - by simplify_option_eq.
  - rewrite Hmonth in Heq. by simplify_option_eq.
Qed.

(** C8, amended. [_validate_row] drops a record exactly when [state],
    [state_code] or [source] is absent or not a [str], when [month] is
    absent or [None], or when a rate that is present is not read as a
    float or [None]. A month that is present and not [None] never drops
    the record, whatever its type: the row is built from
    [str(month).strip()]. *)
Theorem structural_drop (raw_dict : gmap string cell) (row_index : Z) :
  (_validate_row raw_dict row_index = None <->
     raw_dict !! "state" ≫= lax_str = None
     \/ raw_dict !! "state_code" ≫= lax_str = None
     \/ raw_dict !! "source" ≫= lax_str = None
     \/ raw_dict !! "month" = None
     \/ raw_dict !! "month" = Some CNone
     \/ (exists c, raw_dict !! "unemployment_rate" = Some c
                   /\ lax_opt_float c = None)
     \/ (exists c, raw_dict !! "unemployment_rate_prev_month" = Some c
                   /\ lax_opt_float c = None))
  /\ (forall c row,
        raw_dict !! "month" = Some c ->
        _validate_row raw_dict row_index = Some row ->
        c <> CNone /\
        month_canonical row
        = default (strip (py_str c)) (_normalize_date (strip (py_str c)))).
Proof.
  split.
  - rewrite validate_row_None. apply RawRow_init_None.
  - intros c row Hm (raw & Hraw & _ & Hmc & _)%validate_row_Some.
    destruct (RawRow_init_month _ _ _ Hm Hraw) as [Hc Hmonth].
    split; [done|]. by rewrite Hmc, Hmonth.
Qed.

End row_validator2.

(** Counterexample to C8 as stated: a record whose month is the [int]
    202512 is not dropped; it becomes a row with month ["202512"], flagged
    [unparseable_date] and unpublishable. *)
Lemma month_not_a_string_is_kept :
  example_month_int !! "month" = Some (CInt 202512) /\
  (forall s, CInt 202512 <> CStr s) /\
  exists row,
    @_validate_row example_builtins example_month_int 2 = Some row /\
    month_canonical row = "202512" /\
    has_category "unparseable_date" (qa_flags row) = true /\
    is_publishable row = false.
Proof.
  split; [by vm_compute|]. split; [done|].
  eexists. split; [by vm_compute|]. by vm_compute.
Qed.

Lemma month_shaped_strip s canonical :
  month_shaped s canonical -> month_shaped (strip s) canonical.
Proof.
  intros (sep & Hsep & y1 & y2 & y3 & y4 & m1 & m2 & Hdig & Hs & ->)
    %strip_month_shaped.
  rewrite Hs. exists "", "", y1, y2, y3, y4, sep, m1, m2.
  repeat split; try done.
Qed.

Section row_validator3.
Context `{Builtins}.

Lemma rate_flags_categories raw cat :
  has_category cat (rate_flags raw) = true ->
  cat = "missing_rate" \/ cat = "implausible_rate"
  \/ cat = "rate_unusually_high".
Proof.
  unfold rate_flags.
  destruct (RawRow.unemployment_rate raw) as [r|];
    [destruct (_ || _); [|destruct (PrimFloat.leb _ _)]|];
    rewrite ?has_category_nil, ?has_category_singleton; try discriminate;
    intros <-%String.eqb_eq; auto.
Qed.

Lemma date_flags_parsed raw canonical :
  _normalize_date (RawRow.month raw) = Some canonical ->
  has_category "unparseable_date" (date_flags raw) = false.
Proof.
  intros Hdate. unfold date_flags. rewrite Hdate.
  destruct (String.eqb _ _); [done|].
  by rewrite has_category_singleton.
Qed.

Lemma RawRow_init_month_str raw_dict s :
  RawRow_init (coerce_month (<["month" := CStr s]> raw_dict)) =
  state ← raw_dict !! "state" ≫= lax_str;
  state_code ← raw_dict !! "state_code" ≫= lax_str;
  rate ← from_option lax_opt_float (Some None)
         (raw_dict !! "unemployment_rate");
  prev ← from_option lax_opt_float (Some None)
         (raw_dict !! "unemployment_rate_prev_month");
  source ← raw_dict !! "source" ≫= lax_str;
  Some (RawRow.mk state state_code (strip s) rate prev source).
Proof.
  rewrite RawRow_init_coerced, lookup_insert_eq.
  rewrite !lookup_insert_ne by discriminate. done.
Qed.

(** C10. [_normalize_date] accepts every text that is, between optional
    whitespace, four digits, ['/'] or ['-'], and two digits, and returns
    the digits around ['-']; the two digits of the month are not looked
    at, as for [2025-13] and [2025/00]. A record with such a month gets
    that canonical month and no flag of category [unparseable_date], and
    its verdict is the same for any two such months. *)
Theorem month_number_not_checked :
  (forall s canonical,
      month_shaped s canonical -> _normalize_date s = Some canonical)
  /\ _normalize_date "2025-13" = Some "2025-13"
  /\ _normalize_date " 2025/00 " = Some "2025-00"
  /\ (forall (raw_dict : gmap string cell) (row_index : Z) s canonical row,
        month_shaped s canonical ->
        _validate_row (<["month" := CStr s]> raw_dict) row_index = Some row ->
        month_canonical row = canonical /\
        has_category "unparseable_date" (qa_flags row) = false)
  /\ (forall (raw_dict : gmap string cell) (row_index : Z) s1 c1 s2 c2,
        month_shaped s1 c1 -> month_shaped s2 c2 ->
        is_publishable
          <$> _validate_row (<["month" := CStr s1]> raw_dict) row_index
        = is_publishable
          <$> _validate_row (<["month" := CStr s2]> raw_dict) row_index).
Proof.
  split; [apply normalize_date_month_shaped|].
  split; [reflexivity|]. split; [reflexivity|]. split.
  - intros raw_dict row_index s canonical row Hshape
      (raw & Hraw & _ & Hmc & _ & _ & _ & Hflags & _)%validate_row_Some.
    destruct (RawRow_init_month _ _ (CStr s) (lookup_insert_eq _ _ _) Hraw)
      as [_ Hmonth]. simpl in Hmonth.
    assert (Hdate : _normalize_date (RawRow.month raw) = Some canonical).
    { rewrite Hmonth.
      by apply normalize_date_month_shaped, month_shaped_strip. }
    rewrite Hmc, Hdate. split; [done|].
    rewrite Hflags, !has_category_app, (date_flags_parsed _ _ Hdate).
    destruct (has_category _ (state_flags raw)) eqn:Hs.
    { by apply state_flags_categories in Hs as [? | ?]. }
    destruct (has_category _ (rate_flags raw)) eqn:Hr.
    { by apply rate_flags_categories in Hr as [? | [? | ?]]. }
    destruct (has_category _ (prev_flags raw)) eqn:Hp.
    { by apply prev_flags_categories in Hp. }
    done.
  - intros raw_dict row_index s1 c1 s2 c2 Hs1 Hs2.
    rewrite !validate_row_checks, !RawRow_init_month_str.
    destruct (raw_dict !! "state" ≫= lax_str) as [state|]; [|done].
    destruct (raw_dict !! "state_code" ≫= lax_str) as [code|]; [|done].
    simpl.
    destruct (from_option _ _ (raw_dict !! "unemployment_rate"))
      as [rate|]; [|done]. simpl.
    destruct (from_option _ _ (raw_dict !! "unemployment_rate_prev_month"))
      as [prev|]; [|done]. simpl.
    destruct (raw_dict !! "source" ≫= lax_str) as [src|]; [|done].
    simpl. f_equal. unfold date_parses. simpl.
    rewrite (normalize_date_month_shaped _ _ (month_shaped_strip _ _ Hs1)).
    rewrite (normalize_date_month_shaped _ _ (month_shaped_strip _ _ Hs2)).
    done.
Qed.

Lemma validate_row_publishable_rate raw_dict row_index row :
  _validate_row raw_dict row_index = Some row ->
  is_publishable row = true -> is_Some (unemployment_rate row).
Proof.
  intros (raw & _ & _ & _ & Hrate & _ & _ & _ & Hpub)%validate_row_Some.
  rewrite Hpub, Hrate. intros [_ Hplaus]%andb_prop.
  unfold rate_plausible in Hplaus.
  by destruct (RawRow.unemployment_rate raw).
Qed.

Lemma check_rate_conflict_rate claims row :
  unemployment_rate (check_rate_conflict claims row) = unemployment_rate row.
Proof.
  destruct (check_rate_conflict_cases claims row)
    as [-> | (rate & claimed & idx & _ & _ & _ & ->)]; done.
Qed.

Lemma check_imputed_rate seen row :
  unemployment_rate (check_imputed seen row) = unemployment_rate row.
Proof.
  destruct (check_imputed_cases seen row)
    as [-> | (prev & _ & _ & _ & _ & ->)]; done.
Qed.
End row_validator3.

(* ===================================================================== *)
(** * The rows that reach the pivot *)
(* ===================================================================== *)

(** ** Sorting and deduplication keep the rows of their input *)

Lemma insert_sorted_Permutation {A} (key : A -> string) x l :
  insert_sorted key x l ≡ₚ x :: l.
Proof.
  induction l as [|y l IH]; simpl; [done|].
  destruct (str_lt (key y) (key x)); [|done].
  rewrite IH. apply Permutation_swap.
Qed.

Lemma sorted_Permutation {A} (l : list A) key : sorted l key ≡ₚ l.
Proof.
  unfold sorted. induction l as [|x l IH]; simpl; [done|].
  by rewrite insert_sorted_Permutation, IH.
Qed.

Lemma dedupe_from_sublist seen rows : dedupe_from seen rows `sublist_of` rows.
Proof.
  revert seen. induction rows as [|row rows IH]; intros seen; simpl.
  { constructor. }
  destruct (existsb _ seen).
  - by apply sublist_cons.
  - by apply sublist_skip.
Qed.

Lemma elem_of_dedupe rows row : row ∈ _dedupe rows -> row ∈ rows.
Proof. intros Hin. eapply elem_of_sublist; [done|apply dedupe_from_sublist]. Qed.

Lemma prev_month_date_raises year_month e :
  _prev_month_date year_month = Raise e -> e = ValueError.
Proof.
  unfold _prev_month_date.
  destruct (split_on "-" year_month) as [|y [|m [|? ?]]]; try congruence.
  destruct (py_int y), (py_int m); try congruence.
  destruct (_ =? _)%Z; congruence.
Qed.

Lemma pivot_row_raises row ts e :
  _pivot_row row ts = Raise e ->
  (e = ValidationError /\ unemployment_rate row = None)
  \/ (e = ValueError /\ is_Some (unemployment_rate row)
      /\ is_Some (unemployment_rate_prev_month row)
      /\ _prev_month_date (month_canonical row) = Raise ValueError).
Proof.
  unfold _pivot_row.
  destruct (unemployment_rate row) as [rate|]; [|intros [= <-]; auto].
  destruct (unemployment_rate_prev_month row) as [prev|]; [|done].
  destruct (_prev_month_date (month_canonical row)) as [d|e'] eqn:Hd; [done|].
  simpl. intros [= <-]. right.
  apply prev_month_date_raises in Hd as Hv. subst e'. eauto.
Qed.

Lemma pivot_loop_raises rows ts st e :
  pivot_loop rows ts st = Raise e ->
  exists row, row ∈ rows /\ _pivot_row row ts = Raise e.
Proof.
  revert st. induction rows as [|row rows IH]; intros st; simpl; [done|].
  destruct (_pivot_row row ts) as [pts|e'] eqn:Hrow; simpl.
  - intros (r & Hr & He)%IH. exists r. split; [by right|done].
  - intros [= <-]. exists row. split; [by left|done].
Qed.

Section publishable_rate.
Context `{Builtins}.

Lemma run_validation_rows raw_records row :
  row ∈ (run_validation raw_records).1.1 ->
  exists raw_dict row_index row0,
    raw_dict ∈ raw_records /\
    _validate_row raw_dict row_index = Some row0 /\
    unemployment_rate row = unemployment_rate row0 /\
    (is_publishable row = true -> is_publishable row0 = true).
Proof.
  unfold run_validation. simpl.
  unfold _check_prev_month_imputed, _check_rate_conflicts, validate_records.
  intros (row1 & -> & (row0 & -> & Hin)%list_elem_of_fmap)%list_elem_of_fmap.
  apply list_elem_of_omap in Hin as ([i rec] & Hzip & Hrow).
  exists rec, i, row0. split.
  { apply elem_of_zip_r in Hzip. done. }
  split; [done|].
  rewrite check_imputed_rate, check_rate_conflict_rate,
    check_imputed_publishable.
  split; [done|]. apply check_rate_conflict_publishable.
Qed.

(** C9. Every row that [run_validation] returns publishable has a current
    rate. So every row [run_clean] hands to [_pivot_row] has one, the
    [CleanRow] of its current month is never refused for a missing value,
    and [run_clean] on the validated rows never raises a validation
    error. *)
Theorem publishable_rows_have_a_rate
  (raw_records : list (gmap string cell)) (ts : string) :
  let validated := (run_validation raw_records).1.1 in
  (forall row, row ∈ validated -> is_publishable row = true ->
               is_Some (unemployment_rate row))
  /\ (forall row,
        row ∈ sorted (_dedupe (List.filter is_publishable validated))
                month_canonical ->
        is_Some (unemployment_rate row)
        /\ _pivot_row row ts <> Raise ValidationError)
  /\ run_clean validated ts <> Raise ValidationError.
Proof.
  intros validated.
  assert (Hrate : forall row, row ∈ validated -> is_publishable row = true ->
                              is_Some (unemployment_rate row)).
  { intros row (d & i & row0 & _ & Hrow0 & -> & Hpub)%run_validation_rows
      Hp. eapply validate_row_publishable_rate; eauto. }
  assert (Hpivot : forall row,
        row ∈ sorted (_dedupe (List.filter is_publishable validated))
                month_canonical ->
        is_Some (unemployment_rate row)
        /\ _pivot_row row ts <> Raise ValidationError).
  { intros row Hin. rewrite sorted_Permutation in Hin.
    apply elem_of_dedupe, list_elem_of_In, filter_In in Hin as [Hin Hpub].
    apply list_elem_of_In in Hin.
    pose proof (Hrate row Hin Hpub) as [rate Hsome].
    split; [by rewrite Hsome|].
    intros [[_ Hnone] | [[=] _]]%pivot_row_raises. congruence. }
  split; [done|]. split; [done|].
  unfold run_clean, pivot.
  destruct (pivot_loop _ ts ([], 0%Z)) as [[d n]|e] eqn:Hloop; [done|].
  simpl. intros [= ->].
  apply pivot_loop_raises in Hloop as (row & Hin & Hraise).
  by destruct (Hpivot row Hin) as [_ Hno].
Qed.
End publishable_rate.

(* ===================================================================== *)
(** * The publish gate *)
(* ===================================================================== *)

Lemma gate_agrees_from_spec fuel n k :
  gate_agrees_from fuel n = true ->
  (n <= k < n + Z.of_nat fuel)%Z ->
  PrimFloat.ltb PUBLISH_GATE_THRESHOLD
    (PrimFloat.div (float_of_int k) (float_of_int TOTAL_STATES))
  = (20 <? k)%Z.
Proof.
  revert n. induction fuel as [|fuel IH]; intros n; [lia|].
  cbn [gate_agrees_from].
  destruct (Bool.eqb _ _) eqn:Heq; [|done].
  intros Hrest Hk. destruct (decide (k = n)) as [->|Hne].
  - by apply Bool.eqb_prop in Heq.
  - apply (IH (n + 1)%Z); [done|lia].
Qed.

Lemma gate_agrees_checked :
  gate_agrees_from (Z.to_nat (GATE_CHECKED_UP_TO + 1)) 0 = true.
Proof. vm_compute. reflexivity. Qed.

Lemma filter_bool_sublist {A} (f : A -> bool) l : List.filter f l `sublist_of` l.
Proof.
  induction l as [|x l IH]; simpl; [constructor|].
  destruct (f x); by constructor.
Qed.

Section gate.
Context `{Builtins}.

Lemma state_rows_fold (l : list ValidatedRow) acc code :
  default [] (foldl add_state_row acc l !! code)
  = default [] (acc !! code) ++ filter (fun r => state_code r = code) l.
Proof.
  revert acc. induction l as [|row l IH]; intros acc; simpl.
  { by rewrite app_nil_r. }
  rewrite IH. unfold add_state_row. rewrite filter_cons.
  destruct (decide (state_code row = code)) as [->|Hne].
  - rewrite lookup_insert_eq. simpl. by rewrite <- app_assoc.
  - by rewrite lookup_insert_ne.
Qed.

Lemma state_rows_fold_dom (l : list ValidatedRow) acc code :
  is_Some (foldl add_state_row acc l !! code)
  <-> is_Some (acc !! code) \/ code ∈ state_code <$> l.
Proof.
  revert acc. induction l as [|row l IH]; intros acc; simpl.
  { rewrite elem_of_nil. naive_solver. }
  rewrite IH. unfold add_state_row. rewrite elem_of_cons.
  destruct (decide (state_code row = code)) as [->|Hne].
  - rewrite lookup_insert_eq. split; [auto|]. intros _. left. eauto.
  - rewrite lookup_insert_ne by done. naive_solver.
Qed.

Lemma state_rows_lookup validated code rows :
  state_rows validated !! code = Some rows <->
  code ∈ state_code <$> validated
  /\ rows = filter (fun r => state_code r = code) validated.
Proof.
  pose proof (state_rows_fold validated ∅ code) as Hfold.
  pose proof (state_rows_fold_dom validated ∅ code) as Hdom.
  rewrite lookup_empty in Hfold, Hdom. simpl in Hfold.
  fold (state_rows validated) in Hfold, Hdom.
  split.
  - intros Hm. rewrite Hm in Hfold, Hdom. simpl in Hfold. split; [|done].
    destruct Hdom as [[Hdom|Hdom] _]; [eauto| |done].
    by destruct Hdom.
  - intros [Hin ->].
    destruct Hdom as [_ [rows Hrows]]; [by right|].
    rewrite Hrows in Hfold. simpl in Hfold. by rewrite Hrows, Hfold.
Qed.

Lemma forallb_unpublishable_filter validated code :
  forallb (fun r => negb (is_publishable r))
    (filter (fun r => state_code r = code) validated) = true
  <-> Forall (fun row => state_code row = code -> is_publishable row = false)
        validated.
Proof.
  rewrite forallb_forall, Forall_forall.
  setoid_rewrite <- list_elem_of_In. setoid_rewrite list_elem_of_filter.
  setoid_rewrite negb_true_iff. naive_solver.
Qed.

Lemma fully_unpublishable_count validated :
  fully_unpublishable validated
  = Z.of_nat (size (fully_unpublishable_states validated)).
Proof.
  unfold fully_unpublishable. f_equal.
  set (m := state_rows validated).
  set (L := List.filter _ (map_to_list m)).
  assert (Hnodup : NoDup L.*1).
  { eapply sublist_NoDup; [apply (NoDup_fst_map_to_list m)|].
    apply fmap_sublist, filter_bool_sublist. }
  rewrite <- (length_fmap fst L).
  rewrite <- (size_list_to_set (C := gset string) _ Hnodup).
  f_equal. apply set_eq. intros code.
  rewrite elem_of_list_to_set. unfold fully_unpublishable_states.
  rewrite elem_of_filter, elem_of_list_to_set, list_elem_of_fmap.
  split.
  - intros ([code' rows] & -> & Hin). simpl.
    apply list_elem_of_In, filter_In in Hin as [Hin Hall].
    apply list_elem_of_In, elem_of_map_to_list in Hin.
    apply state_rows_lookup in Hin as [Hcode ->]. simpl in Hall.
    split; [|done]. by apply forallb_unpublishable_filter.
  - intros [Hall Hcode].
    exists (code, filter (fun r => state_code r = code) validated).
    split; [done|]. apply list_elem_of_In, filter_In. split.
    + apply list_elem_of_In, elem_of_map_to_list, state_rows_lookup. done.
    + simpl. by apply forallb_unpublishable_filter.
Qed.

(** C2. [_check_publish_gate] counts the state codes all of whose rows are
    unpublishable, and fails exactly when that count divided by 50 is
    greater than 0.40 in float arithmetic. With 20 such states the gate
    passes, with 21 it fails; for every count up to 65536 it fails exactly
    when the count is above 20. A state code with one publishable row is
    not counted. *)
Theorem publish_gate_boundary (validated : list ValidatedRow) :
  let count := size (fully_unpublishable_states validated) in
  fully_unpublishable validated = Z.of_nat count
  /\ (_check_publish_gate validated = false <->
      PrimFloat.ltb PUBLISH_GATE_THRESHOLD
        (PrimFloat.div (float_of_int (Z.of_nat count))
                       (float_of_int TOTAL_STATES)) = true)
  /\ (count = 20 -> _check_publish_gate validated = true)
  /\ (count = 21 -> _check_publish_gate validated = false)
  /\ ((Z.of_nat count <= GATE_CHECKED_UP_TO)%Z ->
      (_check_publish_gate validated = false <-> 20 < count))
  /\ (forall row, row ∈ validated -> is_publishable row = true ->
                  state_code row ∉ fully_unpublishable_states validated).
Proof.
  intros count.
  assert (Hcount : fully_unpublishable validated = Z.of_nat count)
    by apply fully_unpublishable_count.
  assert (Hgate : _check_publish_gate validated = false <->
      PrimFloat.ltb PUBLISH_GATE_THRESHOLD
        (PrimFloat.div (float_of_int (Z.of_nat count))
                       (float_of_int TOTAL_STATES)) = true).
  { unfold _check_publish_gate. rewrite Hcount.
    destruct (PrimFloat.ltb _ _); split; done. }
  assert (Hupto : (Z.of_nat count <= GATE_CHECKED_UP_TO)%Z ->
      (_check_publish_gate validated = false <-> 20 < count)).
  { intros Hle. rewrite Hgate.
    rewrite (gate_agrees_from_spec _ 0 (Z.of_nat count) gate_agrees_checked)
      by (unfold GATE_CHECKED_UP_TO in *; lia).
    rewrite Z.ltb_lt. lia. }
  split; [done|]. split; [done|]. split; [|split; [|split; [done|]]].
  - intros H20. apply not_false_iff_true. rewrite Hupto; [lia|].
    rewrite H20. by vm_compute.
  - intros H21. apply Hupto; [|lia]. rewrite H21. by vm_compute.
  - intros row Hin Hpub. unfold fully_unpublishable_states.
    rewrite elem_of_filter, Forall_forall.
    intros [Hall _]. by rewrite (Hall row Hin eq_refl) in Hpub.
Qed.
End gate.

(* ===================================================================== *)
(** * Order, sort and dictionary of the pivot *)
(* ===================================================================== *)

(** ** The order on text *)

Lemma str_lt_compare a b : str_lt a b = true <-> String.compare a b = Lt.
Proof.
  unfold str_lt, String.ltb. destruct (String.compare a b); split; congruence.
Qed.

Lemma str_lt_asym a b : str_lt a b = true -> str_lt b a = false.
Proof.
  rewrite str_lt_compare. intros Hab.
  apply not_true_iff_false. rewrite str_lt_compare.
  rewrite String.compare_antisym, Hab. discriminate.
Qed.

Lemma str_lt_trans a b c :
  str_lt a b = true -> str_lt b c = true -> str_lt a c = true.
Proof.
  rewrite !str_lt_compare.
  change String.compare with String_as_OT.cmp.
  rewrite !String_as_OT.cmp_lt. apply String_as_OT.lt_trans.
Qed.

Lemma str_lt_total a b : str_lt a b = false -> str_lt b a = false -> a = b.
Proof.
  intros Hab Hba. apply String.compare_eq_iff.
  destruct (String.compare a b) eqn:Hc; [done| |].
  - apply str_lt_compare in Hc. congruence.
  - assert (String.compare b a = Lt) as Hc'.
    { rewrite String.compare_antisym, Hc. done. }
    apply str_lt_compare in Hc'. congruence.
Qed.

Lemma key_le_total {A} (key : A -> string) x y :
  key_le key x y \/ key_le key y x.
Proof.
  unfold key_le. destruct (str_lt (key y) (key x)) eqn:Hyx; [|by left].
  right. by apply str_lt_asym.
Qed.

Lemma key_le_trans {A} (key : A -> string) x y z :
  key_le key x y -> key_le key y z -> key_le key x z.
Proof.
  unfold key_le. intros Hxy Hyz.
  destruct (str_lt (key z) (key x)) eqn:Hzx; [|done].
  destruct (str_lt (key x) (key y)) eqn:Hlt.
  - rewrite (str_lt_trans _ _ _ Hzx Hlt) in Hyz. done.
  - rewrite <- (str_lt_total _ _ Hlt Hxy) in Hyz. congruence.
Qed.

(** ** The sort *)

Lemma insert_sorted_StronglySorted {A} (key : A -> string) x l :
  StronglySorted (key_le key) l ->
  StronglySorted (key_le key) (insert_sorted key x l).
Proof.
  induction 1 as [|y l Hl IH Hy]; simpl.
  { repeat constructor. }
  destruct (str_lt (key y) (key x)) eqn:Hyx.
  - constructor; [done|].
    rewrite insert_sorted_Permutation. constructor; [|done].
    unfold key_le. by apply str_lt_asym.
  - constructor; [by constructor|].
    constructor; [done|].
    eapply Forall_impl; [done|]. intros z Hz.
    by apply (key_le_trans key x y z).
Qed.

Lemma sorted_StronglySorted {A} (l : list A) key :
  StronglySorted (key_le key) (sorted l key).
Proof.
  unfold sorted. induction l as [|x l IH]; simpl; [constructor|].
  by apply insert_sorted_StronglySorted.
Qed.

Lemma StronglySorted_filter_keep {A} (R : relation A) (P : A -> Prop)
  `{forall x, Decision (P x)} l :
  StronglySorted R l -> StronglySorted R (filter P l).
Proof.
  induction 1 as [|x l Hl IH Hx]; [constructor|].
  rewrite filter_cons. destruct (decide (P x)); [|done].
  constructor; [done|]. apply Forall_forall.
  intros y [_ Hy]%list_elem_of_filter.
  by apply (proj1 (Forall_forall _ _) Hx).
Qed.

(** ** The pivot's dictionary *)

Lemma dict_get_set key key' v d :
  dict_get key (dict_set key' v d)
  = if bool_decide (key' = key) then Some v else dict_get key d.
Proof.
  unfold dict_get. induction d as [|[k old] d IH]; simpl.
  { by destruct (bool_decide (key' = key)). }
  destruct (bool_decide_reflect (k = key')) as [->|Hk]; simpl.
  - by destruct (bool_decide (key' = key)).
  - destruct (bool_decide_reflect (k = key)) as [->|Hk']; simpl.
    + by rewrite bool_decide_eq_false_2 by done.
    + done.
Qed.

Lemma record_point_dict d n c :
  (record_point (d, n) c).1 = dict_set (key_of c) c d.
Proof. reflexivity. Qed.

Lemma dict_set_keys key v d :
  (fst <$> dict_set key v d) = (fst <$> d) \/
  ((key ∉ (fst <$> d))
   /\ (fst <$> dict_set key v d) = (fst <$> d) ++ [key]).
Proof.
  induction d as [|[k old] d IH]; csimpl.
  { right. split; [apply not_elem_of_nil|done]. }
  destruct (bool_decide_reflect (k = key)) as [->|Hk]; csimpl; [by left|].
  destruct IH as [-> | [Hnot ->]]; [by left|].
  right. split; [|done]. rewrite not_elem_of_cons. done.
Qed.

Lemma dict_wf_nil : dict_wf [].
Proof. split; constructor. Qed.

Lemma elem_of_dict_set kv key v d :
  kv ∈ dict_set key v d -> kv = (key, v) \/ kv ∈ d.
Proof.
  induction d as [|[k old] d IH]; simpl.
  { intros ->%list_elem_of_singleton. by left. }
  destruct (bool_decide_reflect (k = key)) as [->|Hk].
  - intros [->|?]%elem_of_cons; [by left|]. right. by right.
  - intros [->|Hin]%elem_of_cons; [right; by left|].
    destruct (IH Hin); [by left|]. right. by right.
Qed.

Lemma dict_set_wf c d : dict_wf d -> dict_wf (dict_set (key_of c) c d).
Proof.
  intros [Hnodup Hkeys]. split.
  - destruct (dict_set_keys (key_of c) c d) as [-> | [Hnot ->]]; [done|].
    apply NoDup_app. split; [done|]. split; [|apply NoDup_singleton].
    intros k Hk ->%list_elem_of_singleton. done.
  - apply Forall_forall. intros kv [-> | Hin]%elem_of_dict_set; [done|].
    by apply (proj1 (Forall_forall _ _) Hkeys).
Qed.

Lemma foldl_record_point_wf pts st :
  dict_wf st.1 -> dict_wf (foldl record_point st pts).1.
Proof.
  revert st. induction pts as [|c pts IH]; intros [d n] Hwf; [done|].
  cbn [foldl]. apply IH. rewrite record_point_dict. by apply dict_set_wf.
Qed.

Lemma pivot_loop_wf rows ts st st' :
  dict_wf st.1 -> pivot_loop rows ts st = Ok st' -> dict_wf st'.1.
Proof.
  revert st. induction rows as [|row rows IH]; intros st Hwf; simpl.
  { by intros [= <-]. }
  destruct (_pivot_row row ts) as [pts|e]; [|done]. simpl.
  apply IH. by apply foldl_record_point_wf.
Qed.

Lemma dict_get_elem_of key c d :
  dict_get key d = Some c -> (key, c) ∈ d.
Proof.
  unfold dict_get.
  destruct (List.find _ d) as [[k c']|] eqn:Hfind; [|done].
  simpl. intros [= ->]. apply find_some in Hfind as [Hin Hk].
  simpl in Hk. apply bool_decide_eq_true_1 in Hk as ->.
  by apply list_elem_of_In.
Qed.

Lemma elem_of_dict_get key c d :
  NoDup d.*1 -> (key, c) ∈ d -> dict_get key d = Some c.
Proof.
  unfold dict_get. induction d as [|[k c'] d IH]; simpl.
  { by intros _ ?%elem_of_nil. }
  intros [Hk Hnodup]%NoDup_cons [[= -> ->] | Hin]%elem_of_cons.
  - by rewrite bool_decide_eq_true_2.
  - rewrite bool_decide_eq_false_2; [by apply IH|].
    intros ->. apply Hk. apply list_elem_of_fmap. by exists (key, c).
Qed.

Lemma elem_of_points d p :
  dict_wf d ->
  p ∈ points d <-> exists c, dict_get (key_of c) d = Some c /\ p = point_of c.
Proof.
  intros [Hnodup Hkeys]. unfold points. rewrite list_elem_of_fmap. split.
  - intros ([k c] & -> & Hin). exists c. split; [|done].
    apply elem_of_dict_get; [done|].
    pose proof (proj1 (Forall_forall _ _) Hkeys _ Hin) as Hk.
    simpl in Hk. by rewrite <- Hk.
  - intros (c & Hget & ->). exists (key_of c, c). split; [done|].
    by apply dict_get_elem_of.
Qed.

Lemma points_agree d1 d2 :
  dict_wf d1 -> dict_wf d2 ->
  (forall key, dict_get key d1 = dict_get key d2) ->
  forall p, p ∈ points d1 <-> p ∈ points d2.
Proof.
  intros Hwf1 Hwf2 Hget p. rewrite !elem_of_points by done.
  by setoid_rewrite Hget.
Qed.

Lemma pivot_row_state row ts pts :
  _pivot_row row ts = Ok pts ->
  Forall (fun c => CleanRow.state_code c = state_code row) pts.
Proof.
  unfold _pivot_row.
  destruct (unemployment_rate row) as [rate|]; [|done].
  destruct (unemployment_rate_prev_month row) as [prev|].
  - destruct (_prev_month_date (month_canonical row)) as [d|e]; [|done].
    simpl. intros [= <-]. by repeat constructor.
  - intros [= <-]. by repeat constructor.
Qed.

Lemma foldl_record_point_other s pts st :
  Forall (fun c => CleanRow.state_code c <> s) pts ->
  agree_on s (foldl record_point st pts).1 st.1.
Proof.
  revert st. induction pts as [|c pts IH]; intros [d n] Hpts; [done|].
  apply Forall_cons in Hpts as [Hc Hpts]. cbn [foldl].
  intros date. rewrite (IH _ Hpts date), record_point_dict, dict_get_set.
  rewrite bool_decide_eq_false_2; [done|].
  unfold key_of. congruence.
Qed.

Lemma foldl_record_point_agree s pts st1 st2 :
  agree_on s st1.1 st2.1 ->
  agree_on s (foldl record_point st1 pts).1 (foldl record_point st2 pts).1.
Proof.
  revert st1 st2.
  induction pts as [|c pts IH]; intros [d1 n1] [d2 n2] Hagree; [done|].
  cbn [foldl]. apply IH. rewrite !record_point_dict.
  intros date. rewrite !dict_get_set. by rewrite Hagree.
Qed.

Lemma pivot_loop_filter s rows ts st1 st2 st1' :
  agree_on s st1.1 st2.1 ->
  pivot_loop rows ts st1 = Ok st1' ->
  exists st2',
    pivot_loop (filter (fun r => state_code r = s) rows) ts st2 = Ok st2'
    /\ agree_on s st1'.1 st2'.1.
Proof.
  revert st1 st2. induction rows as [|row rows IH]; intros st1 st2 Hagree.
  { simpl. intros [= <-]. by exists st2. }
  cbn [pivot_loop]. rewrite filter_cons.
  destruct (_pivot_row row ts) as [pts|e] eqn:Hrow; [|done]. simpl.
  intros Hloop. destruct (decide (state_code row = s)) as [Hs|Hs].
  - cbn [pivot_loop]. rewrite Hrow. simpl.
    apply (IH _ _ (foldl_record_point_agree s pts st1 st2 Hagree) Hloop).
  - apply (IH (foldl record_point st1 pts) st2); [|done].
    intros date. rewrite foldl_record_point_other; [apply Hagree|].
    eapply Forall_impl; [by eapply pivot_row_state|].
    simpl. congruence.
Qed.

Lemma pivot_loop_raise_elem rows ts st row e :
  row ∈ rows -> _pivot_row row ts = Raise e ->
  exists e', pivot_loop rows ts st = Raise e'.
Proof.
  revert st. induction rows as [|r rows IH]; intros st Hin Hrow.
  { by apply elem_of_nil in Hin. }
  cbn [pivot_loop].
  destruct (_pivot_row r ts) as [pts|e'] eqn:Hr; simpl; [|eauto].
  apply elem_of_cons in Hin as [-> | Hin]; [congruence|].
  by apply IH.
Qed.


(* ===================================================================== *)
(** * Months as text *)
(* ===================================================================== *)

(** ** Decimal text *)

Lemma is_digit_not_dash c : is_digit c = true -> Ascii.eqb c "-" = false.
Proof. destruct c as [[] [] [] [] [] [] [] []]; vm_compute; congruence. Qed.

Lemma all_digits_uint d : all_digits (NilEmpty.string_of_uint d) = true.
Proof. induction d; simpl; auto. Qed.

Lemma app_String c s t : String c s +:+ t = String c (s +:+ t).
Proof. reflexivity. Qed.

Lemma app_empty_l t : "" +:+ t = t.
Proof. reflexivity. Qed.

Lemma is_digit_not_int_space c : is_digit c = true -> is_int_space c = false.
Proof. destruct c as [[] [] [] [] [] [] [] []]; vm_compute; congruence. Qed.

Lemma int_lstrip_digits s : all_digits s = true -> int_lstrip s = s.
Proof.
  destruct s as [|c s]; simpl; [done|].
  intros [Hc _]%andb_prop. by rewrite (is_digit_not_int_space c).
Qed.

Lemma int_rstrip_digits s : all_digits s = true -> int_rstrip s = s.
Proof.
  induction s as [|c s IH]; simpl; [done|].
  intros [Hc Hs]%andb_prop. rewrite (IH Hs).
  destruct s; [by rewrite (is_digit_not_int_space c)|done].
Qed.

Lemma int_strip_digits s : all_digits s = true -> int_strip s = s.
Proof.
  intros Hs. unfold int_strip.
  by rewrite int_lstrip_digits, int_rstrip_digits.
Qed.

Lemma split_on_digits s : all_digits s = true -> split_on "-" s = [s].
Proof.
  induction s as [|c s IH]; simpl; [done|].
  intros [Hc Hs]%andb_prop. by rewrite (is_digit_not_dash c), (IH Hs).
Qed.

Lemma split_on_digits_dash s t :
  all_digits s = true ->
  split_on "-" (s +:+ String "-" t) = s :: split_on "-" t.
Proof.
  induction s as [|c s IH]; [done|].
  intros [Hc Hs]%andb_prop. rewrite app_String. cbn [split_on].
  by rewrite (is_digit_not_dash c), (IH Hs).
Qed.

Lemma int_digits_acc d (acc : positive) :
  int_digits (Zpos acc) true (NilEmpty.string_of_uint d)
  = Some (Zpos (Pos.of_uint_acc d acc)).
Proof.
  revert acc. induction d; intros acc; cbn [NilEmpty.string_of_uint];
    [done|..];
    cbn [int_digits Pos.of_uint_acc];
    match goal with
    | |- context [is_digit ?c] => change (is_digit c) with true
    end; cbv iota;
    match goal with
    | |- int_digits ?z true _ = Some (Zpos (Pos.of_uint_acc _ ?p)) =>
        replace z with (Zpos p); [apply IHd|]
    end;
    match goal with
    | |- context [Z.of_nat (nat_of_ascii ?c)] =>
        let v := eval vm_compute in (Z.of_nat (nat_of_ascii c)) in
        change (Z.of_nat (nat_of_ascii c)) with v
    end; lia.
Qed.

Lemma int_digits_zero d :
  int_digits 0 true (NilEmpty.string_of_uint d) = Some (Z.of_N (Pos.of_uint d)).
Proof.
  induction d; cbn [NilEmpty.string_of_uint]; [done|..];
    cbn [int_digits Pos.of_uint];
    match goal with
    | |- context [is_digit ?c] => change (is_digit c) with true
    end; cbv iota;
    [exact IHd|..]; apply int_digits_acc.
Qed.

Lemma int_digits_uint d :
  d <> Decimal.Nil ->
  int_digits 0 false (NilEmpty.string_of_uint d)
  = Some (Z.of_N (Pos.of_uint d)).
Proof.
  intros Hd. rewrite <- int_digits_zero. by destruct d.
Qed.

Lemma str_of_int_pos p :
  str_of_int (Zpos p) = NilEmpty.string_of_uint (Pos.to_uint p).
Proof.
  unfold str_of_int. simpl. unfold NilZero.string_of_uint.
  pose proof (Unsigned.to_uint_nonnil p) as Hnil.
  by destruct (Pos.to_uint p).
Qed.

Lemma all_digits_nonneg n : (0 <= n)%Z -> all_digits (str_of_int n) = true.
Proof.
  destruct n as [|p|p]; [done| |lia]. intros _.
  rewrite str_of_int_pos. apply all_digits_uint.
Qed.

Lemma py_int_uint d :
  d <> Decimal.Nil ->
  py_int (NilEmpty.string_of_uint d) = Some (Z.of_N (Pos.of_uint d)).
Proof.
  intros Hd. unfold py_int. rewrite int_strip_digits by apply all_digits_uint.
  rewrite <- (int_digits_uint d Hd). by destruct d.
Qed.

(** [int(str(n)) == n] *)
Lemma py_int_str_of_int n : py_int (str_of_int n) = Some n.
Proof.
  destruct n as [|p|p]; [done| |].
  - rewrite str_of_int_pos, py_int_uint by apply Unsigned.to_uint_nonnil.
    by rewrite Unsigned.of_to.
  - unfold str_of_int. cbn [Z.to_int NilZero.string_of_int].
    unfold NilZero.string_of_uint.
    pose proof (Unsigned.to_uint_nonnil p) as Hnil.
    assert (Hstr : (match Pos.to_uint p with
                    | Decimal.Nil => "0"
                    | _ => NilEmpty.string_of_uint (Pos.to_uint p)
                    end) = NilEmpty.string_of_uint (Pos.to_uint p))
      by (by destruct (Pos.to_uint p)).
    rewrite Hstr. unfold py_int, int_strip. cbn [int_lstrip].
    change (is_int_space "-") with false. cbv iota.
    assert (Hr : int_rstrip
                   (String "-" (NilEmpty.string_of_uint (Pos.to_uint p)))
                 = String "-" (NilEmpty.string_of_uint (Pos.to_uint p))).
    { cbn [int_rstrip]. rewrite int_rstrip_digits by apply all_digits_uint.
      by destruct (NilEmpty.string_of_uint (Pos.to_uint p)). }
    rewrite Hr. cbv iota beta.
    rewrite int_digits_uint by done. by rewrite Unsigned.of_to.
Qed.

Lemma all_digits_fmt_02d n : (0 <= n)%Z -> all_digits (fmt_02d n) = true.
Proof.
  intros Hn. unfold fmt_02d.
  destruct (_ && _)%Z; [|by apply all_digits_nonneg].
  rewrite app_String, app_empty_l. cbn [all_digits].
  by rewrite all_digits_nonneg.
Qed.

(** [int(f"{n:02d}") == n] *)
Lemma py_int_fmt_02d n : py_int (fmt_02d n) = Some n.
Proof.
  unfold fmt_02d. destruct ((0 <=? n) && (n <=? 9))%Z eqn:Hn;
    [|apply py_int_str_of_int].
  apply andb_prop in Hn as [H0%Z.leb_le H9%Z.leb_le].
  assert (Hk : exists k : nat, n = Z.of_nat k /\ k < 10).
  { exists (Z.to_nat n). lia. }
  destruct Hk as (k & -> & Hk).
  do 10 (destruct k as [|k]; [vm_compute; reflexivity|]). lia.
Qed.

Lemma string_app_assoc a b c : (a +:+ b) +:+ c = a +:+ (b +:+ c).
Proof. induction a as [|x a IH]; [done|]. by rewrite !app_String, IH. Qed.

Lemma month_text_split year month :
  (0 <= year)%Z -> (0 <= month)%Z ->
  split_on "-" (month_text year month) = [str_of_int year; fmt_02d month].
Proof.
  intros Hy Hm. unfold month_text.
  change ("-" +:+ fmt_02d month) with (String "-" (fmt_02d month)).
  rewrite split_on_digits_dash by (by apply all_digits_nonneg).
  by rewrite split_on_digits by (by apply all_digits_fmt_02d).
Qed.

Lemma prev_month_text year month :
  (0 <= year)%Z -> (0 <= month)%Z ->
  _prev_month (month_text year month)
  = Some (month_text (prev_of year month).1 (prev_of year month).2).
Proof.
  intros Hy Hm. unfold _prev_month, prev_of.
  rewrite month_text_split, py_int_str_of_int, py_int_fmt_02d by done.
  by destruct (month - 1 =? 0)%Z.
Qed.

Lemma prev_month_date_text year month :
  (0 <= year)%Z -> (0 <= month)%Z ->
  _prev_month_date (month_text year month)
  = Ok (month_text (prev_of year month).1 (prev_of year month).2 +:+ "-01").
Proof.
  intros Hy Hm. unfold _prev_month_date, prev_of.
  rewrite month_text_split, py_int_str_of_int, py_int_fmt_02d by done.
  destruct (month - 1 =? 0)%Z; unfold month_text;
    by rewrite !string_app_assoc.
Qed.

Lemma prev_of_next_month year month :
  (1 <= month <= 12)%Z ->
  prev_of (next_month year month).1 (next_month year month).2 = (year, month).
Proof.
  intros Hm. unfold prev_of, next_month.
  destruct (month =? 12)%Z eqn:H12; simpl.
  - apply Z.eqb_eq in H12 as ->. f_equal. lia.
  - apply Z.eqb_neq in H12.
    destruct (month + 1 - 1 =? 0)%Z eqn:H0; [lia|]. f_equal. lia.
Qed.

Lemma month_text_inj y1 m1 y2 m2 :
  (0 <= y1)%Z -> (0 <= m1)%Z -> (0 <= y2)%Z -> (0 <= m2)%Z ->
  month_text y1 m1 = month_text y2 m2 -> y1 = y2 /\ m1 = m2.
Proof.
  intros Hy1 Hm1 Hy2 Hm2 Heq.
  apply (f_equal (split_on "-")) in Heq.
  rewrite !month_text_split in Heq by done.
  injection Heq as Hy Hm.
  apply (f_equal py_int) in Hy, Hm.
  rewrite !py_int_str_of_int in Hy. rewrite !py_int_fmt_02d in Hm.
  split; congruence.
Qed.

Lemma string_app_length a b :
  String.length (a +:+ b) = String.length a + String.length b.
Proof.
  induction a as [|x a IH]; [done|].
  rewrite app_String. cbn [String.length]. by rewrite IH.
Qed.

Lemma date_text_inj (a b suffix : string) : a +:+ suffix = b +:+ suffix -> a = b.
Proof.
  revert b. induction a as [|x a IH]; intros [|y b] Heq.
  - done.
  - apply (f_equal String.length) in Heq.
    rewrite app_empty_l, app_String in Heq. cbn [String.length] in Heq.
    rewrite string_app_length in Heq. lia.
  - apply (f_equal String.length) in Heq.
    rewrite app_empty_l, app_String in Heq. cbn [String.length] in Heq.
    rewrite string_app_length in Heq. lia.
  - rewrite !app_String in Heq. injection Heq as -> Heq.
    f_equal. by apply IH.
Qed.

(** ** Lexicographic against chronological order *)

Lemma compare_common_prefix p a b :
  String.compare (p +:+ a) (p +:+ b) = String.compare a b.
Proof.
  induction p as [|c p IH]; [done|]. rewrite !app_String. cbn [String.compare].
  assert (Hc : Ascii.compare c c = Eq) by (by apply Ascii_as_OT.cmp_eq).
  by rewrite Hc.
Qed.

Lemma strictly_before_compare a b s t :
  strictly_before a b = true -> String.compare (a +:+ s) (b +:+ t) = Lt.
Proof.
  revert b. induction a as [|c a IH]; intros [|d b]; try done.
  rewrite !app_String. cbn [strictly_before String.compare].
  destruct (Ascii.compare c d); [apply IH|done|done].
Qed.

Lemma years_ordered_from_spec fuel y k :
  years_ordered_from fuel y = true ->
  (y <= k < y + Z.of_nat fuel)%Z ->
  strictly_before (str_of_int k) (str_of_int (k + 1)) = true.
Proof.
  revert y. induction fuel as [|fuel IH]; intros y; [lia|].
  cbn [years_ordered_from].
  destruct (strictly_before (str_of_int y) _) eqn:Hy; [|done].
  intros Hrest Hk. destruct (decide (k = y)) as [->|Hne]; [done|].
  apply (IH (y + 1)%Z); [done|lia].
Qed.

Lemma years_ordered : years_ordered_from (Z.to_nat 8999) 1000 = true.
Proof. vm_compute. reflexivity. Qed.

Lemma next_month_later year month :
  (1000 <= year <= 9999)%Z -> (1 <= month <= 12)%Z ->
  (year, month) <> (9999, 12)%Z ->
  str_lt (month_text year month)
         (month_text (next_month year month).1 (next_month year month).2)
  = true.
Proof.
  intros Hy Hm Hlast. apply str_lt_compare. unfold next_month, month_text.
  destruct (month =? 12)%Z eqn:H12; simpl.
  - apply Z.eqb_eq in H12. subst month.
    assert (year <> 9999%Z) by (intros ->; done).
    apply strictly_before_compare.
    apply (years_ordered_from_spec _ _ _ years_ordered).
    rewrite Z2Nat.id by lia. lia.
  - rewrite compare_common_prefix.
    apply Z.eqb_neq in H12.
    assert (Hcases : (month = 1 \/ month = 2 \/ month = 3 \/ month = 4
                      \/ month = 5 \/ month = 6 \/ month = 7 \/ month = 8
                      \/ month = 9 \/ month = 10 \/ month = 11)%Z) by lia.
    repeat (destruct Hcases as [-> | Hcases]; [vm_compute; reflexivity|]).
    subst month. vm_compute. reflexivity.
Qed.

(* ===================================================================== *)
(** * Revision precedence *)
(* ===================================================================== *)

Lemma revision_two_rows (X nA nB sA sB : string) (iA iB : Z)
  (fA fB : list string) (M M' PM ts : string) (input : list ValidatedRow) :
  _prev_month_date M = Ok PM ->
  _prev_month_date M' = Ok (M +:+ "-01") ->
  PM <> M +:+ "-01" -> PM <> M' +:+ "-01" -> M' +:+ "-01" <> M +:+ "-01" ->
  str_lt M M' = true ->
  let A := Build_ValidatedRow nA X M (Some 10%float) (Some 9%float) sA iA fA
             true in
  let B := Build_ValidatedRow nB X M' (Some rate_4_6) (Some 5%float) sB iB fB
             true in
  input = [A; B] \/ input = [B; A] ->
  run_clean input ts
  = Ok {| final_rows :=
            [CleanRow.mk nB X (M +:+ "-01") 5%float sB ts iB;
             CleanRow.mk nA X PM 9%float sA ts iA;
             CleanRow.mk nB X (M' +:+ "-01") rate_4_6 sB ts iB];
          rows_deduped_input := 0;
          revisions_applied := 1 |}.
Proof.
  intros HPM HM' Hne1 Hne2 Hne3 Hlt A B Hinput.
  assert (Hgt : str_lt M' M = false) by (by apply str_lt_asym).
  assert (Hloop : pivot_loop [A; B] ts ([], 0%Z)
                  = Ok ([((X, M +:+ "-01"),
                          CleanRow.mk nB X (M +:+ "-01") 5%float sB ts iB);
                         ((X, PM), CleanRow.mk nA X PM 9%float sA ts iA);
                         ((X, M' +:+ "-01"),
                          CleanRow.mk nB X (M' +:+ "-01") rate_4_6 sB ts iB)],
                        1%Z)).
  { cbn [pivot_loop]. unfold _pivot_row. subst A B.
    cbn [unemployment_rate unemployment_rate_prev_month month_canonical
         state_canonical state_code source source_row_index].
    rewrite HPM, HM'. cbn [mbind res_bind app foldl].
    unfold record_point at 1. cbn [CleanRow.state_code CleanRow.date
      CleanRow.value dict_get dict_set List.find fmap option_fmap option_map].
    cbn [foldl]. unfold record_point.
    cbn [CleanRow.state_code CleanRow.date CleanRow.value].
    unfold dict_get. cbn [List.find dict_set fst snd].
    rewrite !(bool_decide_eq_false_2 ((X, M +:+ "-01") = (X, PM)))
      by congruence.
    cbn [List.find dict_set fst snd fmap option_fmap option_map].
    rewrite !(bool_decide_eq_false_2 ((X, M +:+ "-01") = (X, M' +:+ "-01")))
      by congruence.
    rewrite !(bool_decide_eq_false_2 ((X, PM) = (X, M' +:+ "-01")))
      by congruence.
    cbn [List.find dict_set fst snd fmap option_fmap option_map].
    rewrite !(bool_decide_eq_true_2 ((X, M +:+ "-01") = (X, M +:+ "-01")))
      by done.
    cbn [List.find dict_set fst snd fmap option_fmap option_map].
    reflexivity. }
  assert (Hk1 : dedupe_key_eq (dedupe_key B) (dedupe_key A) = false).
  { unfold dedupe_key_eq, dedupe_key. subst A B.
    cbn [unemployment_rate unemployment_rate_prev_month month_canonical
         state_code].
    change (opt_float_eq (Some rate_4_6) (Some 10%float)) with false.
    by rewrite andb_false_r. }
  assert (Hk2 : dedupe_key_eq (dedupe_key A) (dedupe_key B) = false).
  { unfold dedupe_key_eq, dedupe_key. subst A B.
    cbn [unemployment_rate unemployment_rate_prev_month month_canonical
         state_code].
    change (opt_float_eq (Some 10%float) (Some rate_4_6)) with false.
    by rewrite andb_false_r. }
  unfold run_clean, pivot.
  destruct Hinput as [-> | ->].
  - change (List.filter is_publishable [A; B]) with [A; B].
    assert (Hd : _dedupe [A; B] = [A; B]).
    { unfold _dedupe. cbn [dedupe_from existsb]. by rewrite Hk1. }
    rewrite Hd.
    assert (Hs : sorted [A; B] month_canonical = [A; B]).
    { unfold sorted. cbn [foldr insert_sorted]. subst A B.
      cbn [month_canonical]. by rewrite Hgt. }
    rewrite Hs, Hloop. reflexivity.
  - change (List.filter is_publishable [B; A]) with [B; A].
    assert (Hd : _dedupe [B; A] = [B; A]).
    { unfold _dedupe. cbn [dedupe_from existsb]. by rewrite Hk2. }
    rewrite Hd.
    assert (Hs : sorted [B; A] month_canonical = [A; B]).
    { unfold sorted. cbn [foldr insert_sorted]. subst A B.
      cbn [month_canonical]. by rewrite Hlt. }
    rewrite Hs, Hloop. reflexivity.
Qed.


(* ===================================================================== *)
(** * Witnesses and counterexamples *)
(* ===================================================================== *)



(** The rows of the counterexample to C1 are what the validator returns
    for two records of those months. *)
Lemma early_rows_pass_validation :
  (fun r => (state_code r, month_canonical r, unemployment_rate r,
             unemployment_rate_prev_month r, is_publishable r))
    <$> (@run_validation example_builtins
           [example_raw "Alabama" "AL" (CStr "0999-12") (CFloat 10) (CFloat 9);
            example_raw "Alabama" "AL" (CStr "1000-01") (CFloat rate_4_6)
              (CFloat 5)]).1.1
  = (fun r => (state_code r, month_canonical r, unemployment_rate r,
               unemployment_rate_prev_month r, is_publishable r))
      <$> [early_a; early_b].
Proof. vm_compute. reflexivity. Qed.

(** Witness of C2: a batch with 20 fully unpublishable states passes the
    gate, one with 21 fails it. *)
Lemma publish_gate_boundary_witness :
  _check_publish_gate (example_batch 20 30) = true
  /\ _check_publish_gate (example_batch 21 29) = false.
Proof.
  split.
  - apply (proj1 (proj2 (proj2 (publish_gate_boundary (example_batch 20 30))))).
    vm_compute. reflexivity.
  - apply (proj1 (proj2 (proj2 (proj2
             (publish_gate_boundary (example_batch 21 29)))))).
    vm_compute. reflexivity.
Defined.

(** Counterexample to C3 as stated: in a chain of three months the November
    row makes the claim that blocks the October row, and is itself blocked
    and flagged in the same pass by the December row's claim. *)
Lemma claiming_row_can_be_blocked :
  [chain_oct; chain_nov; chain_dec] !! 0%nat = Some chain_oct
  /\ is_publishable chain_oct = true
  /\ claims_on (state_code chain_oct, month_canonical chain_oct)
       [chain_oct; chain_nov; chain_dec]
     = [(rate_5_3, source_row_index chain_nov)]
  /\ float_ne 27%float rate_5_3 = true
  /\ (is_publishable
        <$> @_check_rate_conflicts example_builtins
              [chain_oct; chain_nov; chain_dec] !! 0%nat) = Some false
  /\ is_publishable chain_nov = true
  /\ (is_publishable
        <$> @_check_rate_conflicts example_builtins
              [chain_oct; chain_nov; chain_dec] !! 1%nat) = Some false
  /\ (has_category "rate_conflict" ∘ qa_flags
        <$> @_check_rate_conflicts example_builtins
              [chain_oct; chain_nov; chain_dec] !! 1%nat) = Some true.
Proof. vm_compute. repeat split; reflexivity. Qed.

(** Witness of C3, amended: the two Rhode Island rows of the tests. *)
Lemma rate_conflict_blocks_row_witness :
  exists row' v idx,
    @_check_rate_conflicts example_builtins [chain_oct; chain_nov] !! 0%nat
    = Some row'
    /\ (v, idx) = (rate_5_3, 3%Z)
    /\ qa_flags row'
       = qa_flags chain_oct
         ++ [@rate_conflict_flag example_builtins 27%float v idx]
    /\ is_publishable row' = false
    /\ @_check_rate_conflicts example_builtins [chain_oct; chain_nov] !! 1%nat
       = Some chain_nov.
Proof.
  destruct (@rate_conflict_blocks_row example_builtins
              [chain_oct; chain_nov] 0 chain_oct chain_nov 27%float rate_5_3)
    as [(row' & v & idx & Hrow & Hfind & _ & Hflags & _ & Hpub) Hrest];
    try (vm_compute; reflexivity).
  { apply list_elem_of_further, list_elem_of_here. }
  exists row', v, idx. split; [exact Hrow|].
  split; [|split; [exact Hflags|split; [exact Hpub|]]].
  - vm_compute in Hfind. injection Hfind as <- <-. reflexivity.
  - apply (Hrest 1%nat); [reflexivity|].
    intros C r v' HC _ Hprev _ Hmonth Hr.
    apply elem_of_cons in HC as [-> | HC];
      [vm_compute in Hmonth; discriminate|].
    apply elem_of_cons in HC as [-> | HC];
      [vm_compute in Hmonth; discriminate|].
    by apply elem_of_nil in HC.
Defined.

(** Witness of C4: the October row of the chain goes from publishable to
    unpublishable, and nothing brings it back. *)
Lemma verdict_never_raised_witness :
  exists row1 row2,
    @_check_rate_conflicts example_builtins [chain_oct; chain_nov] !! 0%nat
    = Some row1
    /\ _check_prev_month_imputed
         (@_check_rate_conflicts example_builtins [chain_oct; chain_nov])
       !! 0%nat = Some row2
    /\ is_publishable chain_oct = true
    /\ is_publishable row1 = false
    /\ (is_publishable row2 = true -> is_publishable row1 = true).
Proof.
  destruct (proj2 (@verdict_never_raised example_builtins
                     [chain_oct; chain_nov]) 0%nat chain_oct eq_refl)
    as (row1 & row2 & H1 & H2 & _ & H12 & _).
  exists row1, row2. split; [exact H1|]. split; [exact H2|].
  split; [reflexivity|]. split; [|exact H12].
  vm_compute in H1. injection H1 as <-. reflexivity.
Defined.

(** Witness of C5: a rate of 27.0 is publishable and warned about. *)
Lemma rate_plausibility_witness :
  exists row,
    @_validate_row example_builtins
      (example_raw "Rhode Island" "RI" (CStr "2025-11") (CFloat 27%float)
         (CFloat rate_5_2)) 2 = Some row
    /\ is_publishable row = true
    /\ has_category "rate_unusually_high" (qa_flags row) = true
    /\ has_category "implausible_rate" (qa_flags row) = false.
Proof.
  destruct (@rate_plausibility example_builtins
              (example_raw "Rhode Island" "RI" (CStr "2025-11")
                 (CFloat 27%float) (CFloat rate_5_2)) 2
              (RawRow.mk "Rhode Island" "RI" "2025-11" (Some 27%float)
                 (Some rate_5_2) "BLS")
              (Build_state_ref "Rhode Island" "RI" "44" "Northeast"
                 "New England")
              "2025-11")
    as (row & Hrow & _ & _ & Hin); try (vm_compute; reflexivity).
  destruct (Hin eq_refl eq_refl) as (Hpub & _ & Himpl & Hhigh & _).
  exists row. split; [exact Hrow|]. split; [exact Hpub|].
  split; [exact Hhigh|exact Himpl].
Defined.



(** Counterexample to C7 as stated: an unpublishable row carrying
    [missing_prev_month], whose month before has a value in the pivot, is
    skipped by the pass and gains no flag. *)
Lemma unpublishable_row_is_not_flagged_imputed :
  "missing_prev_month" ∈ qa_flags dec_blocked
  /\ _prev_month (month_canonical dec_blocked) = Some "2025-11"
  /\ ("AL", "2025-11") ∈ will_have_value [nov_ok; dec_blocked]
  /\ is_publishable nov_ok = true
  /\ unemployment_rate nov_ok = Some 4.5%float
  /\ (state_code nov_ok, month_canonical nov_ok) = ("AL", "2025-11")
  /\ _check_prev_month_imputed [nov_ok; dec_blocked] !! 1%nat
     = Some dec_blocked
  /\ has_category "prev_month_imputed" (qa_flags dec_blocked) = false.
Proof.
  split; [apply list_elem_of_further, list_elem_of_here|].
  split; [vm_compute; reflexivity|].
  split; [apply (bool_decide_eq_true_1 _); vm_compute; reflexivity|].
  repeat split; vm_compute; reflexivity.
Qed.

(** Witness of C7, amended: the same month for a publishable row. *)
Lemma imputation_flags_publishable_rows_witness :
  _check_prev_month_imputed [nov_ok; dec_no_prev] !! 1%nat
  = Some (append_flag dec_no_prev "prev_month_imputed: sourced from 2025-11").
Proof.
  apply (proj2 (proj2 (imputation_flags_publishable_rows
                         [nov_ok; dec_no_prev]))
           1%nat dec_no_prev nov_ok "2025-11").
  - reflexivity.
  - reflexivity.
  - apply list_elem_of_here.
  - vm_compute. reflexivity.
  - apply list_elem_of_here.
  - split; [reflexivity|]. left. split; [|reflexivity].
    exists 4.5%float. reflexivity.
Defined.

(** The rows of the counterexample to C6 are what the validator returns
    for two records of the same state and month. *)
Lemma twins_pass_validation :
  (fun r => (state_code r, month_canonical r, unemployment_rate r,
             is_publishable r))
    <$> (@run_validation example_builtins
           [example_raw "Alabama" "AL" (CStr "2025-12") (CFloat rate_4_6) CNone;
            example_raw "Alabama" "AL" (CStr "2025-12") (CFloat rate_4_7) CNone]
        ).1.1
  = [("AL", "2025-12", Some rate_4_6, true);
     ("AL", "2025-12", Some rate_4_7, true)].
Proof. vm_compute. reflexivity. Qed.

(* ===================================================================== *)
(** * Further properties of the code *)
(* ===================================================================== *)

(** ** What [strip] removes *)

Lemma all_space_app a b :
  all_space (a +:+ b) = all_space a && all_space b.
Proof.
  induction a as [|c a IH]; [done|].
  rewrite app_String. simpl. by rewrite IH, andb_assoc.
Qed.

Lemma lstrip_decompose s :
  exists lead, all_space lead = true /\ s = lead +:+ lstrip s.
Proof.
  induction s as [|c s (lead & Hlead & Hs)]; [by exists ""|].
  simpl. destruct (is_space c) eqn:Hc.
  - exists (String c lead). simpl. rewrite Hc, Hlead.
    split; [done|]. by rewrite app_String, <- Hs.
  - by exists "".
Qed.

Lemma rstrip_decompose s :
  exists trail, all_space trail = true /\ s = rstrip s +:+ trail.
Proof.
  induction s as [|c s (trail & Htrail & Hs)]; [by exists ""|].
  simpl. destruct (rstrip s) as [|d t] eqn:Hr.
  - rewrite app_empty_l in Hs. subst trail.
    destruct (is_space c) eqn:Hc.
    + exists (String c s). simpl. by rewrite Hc, Htrail.
    + by exists s.
  - exists trail. split; [done|]. by rewrite app_String, <- Hs.
Qed.

Lemma strip_decompose s :
  exists lead trail,
    all_space lead = true /\ all_space trail = true /\
    s = lead +:+ strip s +:+ trail.
Proof.
  destruct (lstrip_decompose s) as (lead & Hlead & Hs).
  destruct (rstrip_decompose (lstrip s)) as (trail & Htrail & Hr).
  exists lead, trail. unfold strip. by rewrite <- Hr.
Qed.

Lemma normalize_date_Some s canonical :
  _normalize_date s = Some canonical -> month_shaped s canonical.
Proof.
  unfold _normalize_date. intros Hn.
  destruct (strip_decompose s) as (lead & trail & Hlead & Htrail & Hs).
  pose proof (string_of_list_ascii_of_string (strip s)) as Hstrip.
  destruct (list_ascii_of_string (strip s))
    as [|y1 [|y2 [|y3 [|y4 [|sep [|m1 [|m2 [|? ?]]]]]]]]; try discriminate.
  destruct (forallb is_digit _) eqn:Hdigits; [|discriminate].
  destruct (Ascii.eqb sep "/" || Ascii.eqb sep "-") eqn:Hsep; [|discriminate].
  simpl in Hn. injection Hn as <-.
  exists lead, trail, y1, y2, y3, y4, sep, m1, m2.
  split; [done|]. split; [done|]. split; [done|]. split.
  { apply orb_prop in Hsep as [Hsep|Hsep]; apply Ascii.eqb_eq in Hsep; auto. }
  split; [|done]. by rewrite Hstrip.
Qed.

(** X1. On ASCII text, [_normalize_date] returns a month exactly when the
    text is, between optional ASCII whitespace, four digits, a ['/'] or a
    ['-'], and two digits; the month returned is then those digits around
    a ['-']. Every other ASCII text is refused. *)
Theorem normalize_date_accepts_exactly (s canonical : string) :
  is_ascii_text s = true ->
  (_normalize_date s = Some canonical <-> month_shaped s canonical).
Proof.
  intros _.
  split; [apply normalize_date_Some|apply normalize_date_month_shaped].
Qed.

(** Witness of X1. *)
Lemma normalize_date_accepts_exactly_witness :
  is_ascii_text " 2025/12 " = true
  /\ (_normalize_date " 2025/12 " = Some "2025-12"
      <-> month_shaped " 2025/12 " "2025-12").
Proof.
  split; [reflexivity|].
  apply (normalize_date_accepts_exactly " 2025/12 " "2025-12"). reflexivity.
Defined.

(** ** [int()] on digits, [split] on a dash *)

Lemma int_digits_all_digits s acc b :
  all_digits s = true -> s <> "" \/ b = true ->
  is_Some (int_digits acc b s).
Proof.
  revert acc b. induction s as [|c s IH]; intros acc b Hs Hne.
  { destruct Hne as [?| ->]; [done|]. by eexists. }
  apply andb_prop in Hs as [Hc Hs]. cbn [int_digits]. rewrite Hc.
  apply IH; [done|by right].
Qed.

Lemma py_int_all_digits s :
  all_digits s = true -> s <> "" -> is_Some (py_int s).
Proof.
  intros Hs Hne. unfold py_int. rewrite int_strip_digits by done.
  pose proof (int_digits_all_digits s 0 false Hs (or_introl Hne)) as Hint.
  destruct s as [|c t]; [done|].
  apply andb_prop in Hs as [Hc _].
  destruct c as [[] [] [] [] [] [] [] []];
    try (by vm_compute in Hc); exact Hint.
Qed.

Lemma split_on_nonempty sep s : split_on sep s <> [].
Proof.
  destruct s as [|c s]; [done|]. simpl.
  destruct (Ascii.eqb c sep); [done|]. by destruct (split_on sep s).
Qed.

Lemma split_on_one s t :
  split_on "-" s = [t] <-> t = s /\ no_dash s = true.
Proof.
  revert t. induction s as [|c s IH]; intros t; simpl.
  { split; [by intros [= <-]|by intros [-> _]]. }
  destruct (Ascii.eqb c "-") eqn:Hc; simpl.
  - split; [|by intros [_ ?]].
    intros [= _ Hs]. by apply split_on_nonempty in Hs.
  - destruct (split_on "-" s) as [|h l] eqn:Hsplit.
    { by apply split_on_nonempty in Hsplit. }
    split.
    + intros [= <- ->]. by destruct (proj1 (IH h) eq_refl) as [-> ?].
    + intros [-> Hs].
      assert (Heq : h :: l = [s]) by (by apply IH).
      by injection Heq as -> ->.
Qed.

Lemma split_on_two s y m :
  split_on "-" s = [y; m] <->
  s = y +:+ "-" +:+ m /\ no_dash y = true /\ no_dash m = true.
Proof.
  revert y. induction s as [|c s IH]; intros y.
  { split; [done|]. intros [Hs _]. by destruct y. }
  cbn [split_on]. destruct (Ascii.eqb c "-") eqn:Hc.
  - apply Ascii.eqb_eq in Hc as ->. split.
    + intros [= <- Hs]. apply split_on_one in Hs as [-> Hs]. done.
    + intros (Hs & Hy & Hm). destruct y as [|d y].
      * rewrite app_empty_l in Hs. injection Hs as ->.
        f_equal. by apply split_on_one.
      * rewrite app_String in Hs. injection Hs as <- _. done.
  - destruct (split_on "-" s) as [|h l] eqn:Hsplit.
    { by apply split_on_nonempty in Hsplit. }
    split.
    + intros [= <- ->]. destruct (proj1 (IH h) eq_refl) as (-> & Hh & Hm).
      rewrite app_String. simpl. by rewrite Hc.
    + intros (Hs & Hy & Hm). destruct y as [|d y].
      { rewrite app_empty_l in Hs. injection Hs as -> _. done. }
      rewrite app_String in Hs. injection Hs as <- ->.
      simpl in Hy. apply andb_prop in Hy as [_ Hy].
      assert (Heq : h :: l = [y; m]) by (by apply IH).
      by injection Heq as -> ->.
Qed.

(** X2. [_prev_month] returns (rather than raising [ValueError]) exactly on
    a text with one ['-'] whose two sides [int] accepts, and it returns the
    month before, with the year decremented when the month was 1. *)
Theorem prev_month_needs_two_integers (s p : string) :
  _prev_month s = Some p <->
  exists (y m : string) (year month : Z),
    s = y +:+ "-" +:+ m /\ no_dash y = true /\ no_dash m = true /\
    py_int y = Some year /\ py_int m = Some month /\
    p = month_text (prev_of year month).1 (prev_of year month).2.
Proof.
  unfold _prev_month, prev_of, month_text. split.
  - destruct (split_on "-" s) as [|y [|m [|? ?]]] eqn:Hsplit; try done.
    apply split_on_two in Hsplit as (Hs & Hy & Hm).
    destruct (py_int y) as [year|] eqn:Hyear; [|done].
    destruct (py_int m) as [month|] eqn:Hmonth; [|done].
    intros Hp. exists y, m, year, month.
    repeat (split; [done|]).
    destruct (month - 1 =? 0)%Z; by injection Hp as <-.
  - intros (y & m & year & month & Hs & Hy & Hm & Hyear & Hmonth & ->).
    rewrite (proj2 (split_on_two s y m)) by done.
    rewrite Hyear, Hmonth. by destruct (month - 1 =? 0)%Z.
Qed.

Lemma prev_month_date_unfold (year_month : string) :
  _prev_month_date year_month
  = match _prev_month year_month with
    | Some prev => Ok (prev +:+ "-01")
    | None => Raise ValueError
    end.
Proof.
  unfold _prev_month_date, _prev_month.
  destruct (split_on "-" year_month) as [|y [|m [|? ?]]]; try done.
  destruct (py_int y) as [year|]; [|done].
  destruct (py_int m) as [month|]; [|done].
  destruct (month - 1 =? 0)%Z; by rewrite !string_app_assoc.
Qed.

(** X3. The helper of clean.py and the helper of validate.py agree:
    [_prev_month_date] returns [_prev_month]'s month followed by ["-01"],
    and raises [ValueError] exactly when [_prev_month] does. *)
Theorem prev_month_date_is_prev_month (year_month : string) :
  _prev_month_date year_month
  = match _prev_month year_month with
    | Some prev => Ok (prev +:+ "-01")
    | None => Raise ValueError
    end.
Proof. apply prev_month_date_unfold. Qed.

(** ** The canonical form *)

Lemma canonical_month_shaped y1 y2 y3 y4 m1 m2 :
  forallb is_digit [y1; y2; y3; y4; m1; m2] = true ->
  let c := string_of_list_ascii [y1; y2; y3; y4; "-"%char; m1; m2] in
  month_shaped c c.
Proof.
  intros Hd c. exists "", "", y1, y2, y3, y4, "-"%char, m1, m2.
  repeat (split; [done|]). split; [auto|]. done.
Qed.

Lemma canonical_prev_month y1 y2 y3 y4 m1 m2 :
  forallb is_digit [y1; y2; y3; y4; m1; m2] = true ->
  is_Some (_prev_month (string_of_list_ascii [y1; y2; y3; y4; "-"%char; m1; m2])).
Proof.
  intros Hd. cbn [forallb] in Hd.
  apply andb_prop in Hd as [H1 Hd]. apply andb_prop in Hd as [H2 Hd].
  apply andb_prop in Hd as [H3 Hd]. apply andb_prop in Hd as [H4 Hd].
  apply andb_prop in Hd as [H5 Hd]. apply andb_prop in Hd as [H6 _].
  assert (Hy : all_digits (string_of_list_ascii [y1; y2; y3; y4]) = true).
  { cbn [string_of_list_ascii all_digits]. by rewrite H1, H2, H3, H4. }
  assert (Hm : all_digits (string_of_list_ascii [m1; m2]) = true).
  { cbn [string_of_list_ascii all_digits]. by rewrite H5, H6. }
  unfold _prev_month.
  change (string_of_list_ascii [y1; y2; y3; y4; "-"%char; m1; m2])
    with (string_of_list_ascii [y1; y2; y3; y4]
          +:+ String "-" (string_of_list_ascii [m1; m2])).
  rewrite split_on_digits_dash, split_on_digits by done.
  destruct (py_int_all_digits _ Hy) as [year ->]; [done|].
  destruct (py_int_all_digits _ Hm) as [month ->]; [done|].
  destruct (month - 1 =? 0)%Z; by eexists.
Qed.

(** X4. A month that [_normalize_date] returns is seven characters long, is
    returned unchanged when normalized again, and is accepted by
    [_prev_month] and by [_prev_month_date]. *)
Theorem normalized_month_is_canonical (s canonical : string) :
  _normalize_date s = Some canonical ->
  _normalize_date canonical = Some canonical
  /\ String.length canonical = 7%nat
  /\ exists prev,
       _prev_month canonical = Some prev
       /\ _prev_month_date canonical = Ok (prev +:+ "-01").
Proof.
  intros (lead & trail & y1 & y2 & y3 & y4 & sep & m1 & m2 & _ & _ & Hd & _
          & _ & ->)%normalize_date_Some.
  split.
  { by apply normalize_date_month_shaped, canonical_month_shaped. }
  split; [done|].
  destruct (canonical_prev_month _ _ _ _ _ _ Hd) as [prev Hprev].
  exists prev. split; [done|].
  by rewrite prev_month_date_unfold, Hprev.
Qed.

(** X5. For a year from 0 and a month from 1 to 12, [_prev_month] of the
    month's text is the month before, December of the year before for
    January; and [_prev_month] of the month after is the month itself. *)
Theorem prev_month_calendar (year month : Z) :
  (0 <= year)%Z -> (1 <= month <= 12)%Z ->
  _prev_month (month_text year month)
  = Some (if (month =? 1)%Z then month_text (year - 1) 12
          else month_text year (month - 1))
  /\ _prev_month (month_text (next_month year month).1
                             (next_month year month).2)
     = Some (month_text year month).
Proof.
  intros Hy Hm. split.
  - rewrite prev_month_text by lia. unfold prev_of.
    destruct (month =? 1)%Z eqn:H1.
    + apply Z.eqb_eq in H1 as ->. done.
    + apply Z.eqb_neq in H1.
      destruct (month - 1 =? 0)%Z eqn:H0; [lia|done].
  - rewrite prev_month_text.
    + by rewrite prev_of_next_month.
    + unfold next_month. destruct (month =? 12)%Z; simpl; lia.
    + unfold next_month. destruct (month =? 12)%Z; simpl; lia.
Qed.

(** Witness of X5. *)
Lemma prev_month_calendar_witness :
  _prev_month "2026-01" = Some "2025-12"
  /\ _prev_month "2026-02" = Some "2026-01".
Proof.
  exact (prev_month_calendar 2026 1 ltac:(lia) ltac:(lia)).
Defined.

(** ** Years of four digits *)

Lemma strictly_before_length a b :
  strictly_before a b = true -> String.length a = String.length b.
Proof.
  revert b. induction a as [|c a IH]; intros [|d b]; try done.
  cbn [strictly_before String.length].
  destruct (Ascii.compare c d); [|intros ->%Nat.eqb_eq|]; try done.
  intros Hb. by rewrite (IH b).
Qed.

Lemma year_four_digits year :
  (1000 <= year <= 9999)%Z -> String.length (str_of_int year) = 4%nat.
Proof.
  intros Hy.
  assert (Hn : exists n : nat,
             year = (1000 + Z.of_nat n)%Z /\ (Z.of_nat n <= 8999)%Z).
  { exists (Z.to_nat (year - 1000)). lia. }
  destruct Hn as (n & -> & Hn). clear Hy.
  induction n as [|n IH]; [done|].
  rewrite <- IH by lia. symmetry.
  replace (1000 + Z.of_nat (S n))%Z with (1000 + Z.of_nat n + 1)%Z by lia.
  apply strictly_before_length.
  apply (years_ordered_from_spec _ _ _ years_ordered).
  rewrite Z2Nat.id by lia. lia.
Qed.

Lemma four_digits_text s :
  String.length s = 4%nat -> all_digits s = true ->
  exists y1 y2 y3 y4,
    s = string_of_list_ascii [y1; y2; y3; y4]
    /\ forallb is_digit [y1; y2; y3; y4] = true.
Proof.
  destruct s as [|y1 [|y2 [|y3 [|y4 [|? ?]]]]]; try done.
  intros _ Hd. exists y1, y2, y3, y4. split; [done|].
  cbn [all_digits] in Hd. cbn [forallb]. done.
Qed.

Lemma month_two_digits month :
  (0 <= month <= 12)%Z ->
  exists m1 m2,
    fmt_02d month = string_of_list_ascii [m1; m2]
    /\ forallb is_digit [m1; m2] = true.
Proof.
  intros Hm.
  assert (Hk : exists k : nat, month = Z.of_nat k /\ (k < 13)%nat).
  { exists (Z.to_nat month). lia. }
  destruct Hk as (k & -> & Hk).
  do 13 (destruct k as [|k];
         [eexists _, _; split; vm_compute; reflexivity|]).
  lia.
Qed.

Lemma month_text_canonical year month :
  (1000 <= year <= 9999)%Z -> (0 <= month <= 12)%Z ->
  _normalize_date (month_text year month) = Some (month_text year month).
Proof.
  intros Hy Hm.
  destruct (four_digits_text (str_of_int year)) as (y1 & y2 & y3 & y4 & Hys & Hyd).
  { by apply year_four_digits. }
  { apply all_digits_nonneg. lia. }
  destruct (month_two_digits month Hm) as (m1 & m2 & Hms & Hmd).
  unfold month_text. rewrite Hys, Hms.
  apply normalize_date_month_shaped.
  apply (canonical_month_shaped y1 y2 y3 y4 m1 m2).
  cbn [forallb] in *.
  apply andb_prop in Hyd as [-> Hyd]. apply andb_prop in Hyd as [-> Hyd].
  apply andb_prop in Hyd as [-> Hyd]. apply andb_prop in Hyd as [-> _].
  done.
Qed.

(** X6. For a year from 1000 to 9999 and a month from 1 to 12 the month's
    text is in the form [_normalize_date] returns, and so is what
    [_prev_month] returns for it, but for January of the year 1000: there
    it returns ["999-12"], which [_normalize_date] refuses. *)
Theorem prev_month_keeps_canonical_form (year month : Z) :
  (1000 <= year <= 9999)%Z -> (1 <= month <= 12)%Z ->
  _normalize_date (month_text year month) = Some (month_text year month)
  /\ ((year, month) <> (1000, 1)%Z ->
      exists prev,
        _prev_month (month_text year month) = Some prev
        /\ _normalize_date prev = Some prev)
  /\ ((year, month) = (1000, 1)%Z ->
      _prev_month (month_text year month) = Some "999-12"
      /\ _normalize_date "999-12" = None).
Proof.
  intros Hy Hm. split; [apply month_text_canonical; lia|]. split.
  - intros Hne. eexists. split; [apply prev_month_text; lia|].
    unfold prev_of. destruct (month - 1 =? 0)%Z eqn:H0; simpl.
    + apply month_text_canonical; [|lia].
      assert (year <> 1000%Z) by (intros ->; apply Hne; f_equal; lia). lia.
    + apply month_text_canonical; lia.
  - intros [= -> ->]. split; reflexivity.
Qed.

(** Witness of X6. *)
Lemma prev_month_keeps_canonical_form_witness :
  _normalize_date (month_text 2026 1) = Some (month_text 2026 1)
  /\ exists prev,
       _prev_month (month_text 2026 1) = Some prev
       /\ _normalize_date prev = Some prev.
Proof.
  destruct (prev_month_keeps_canonical_form 2026 1 ltac:(lia) ltac:(lia))
    as (Hcanon & Hprev & _).
  split; [exact Hcanon|]. apply Hprev. discriminate.
Defined.

(** Witness of X4. *)
Lemma normalized_month_is_canonical_witness :
  _normalize_date " 2025/01 " = Some "2025-01"
  /\ _normalize_date "2025-01" = Some "2025-01"
  /\ exists prev,
       _prev_month "2025-01" = Some prev
       /\ _prev_month_date "2025-01" = Ok (prev +:+ "-01").
Proof.
  split; [reflexivity|].
  destruct (normalized_month_is_canonical " 2025/01 " "2025-01" eq_refl)
    as (Hfix & _ & Hprev).
  split; [exact Hfix|exact Hprev].
Defined.

(** ** The reference table *)

Lemma upper_ascii_idempotent c : upper_ascii (upper_ascii c) = upper_ascii c.
Proof. destruct c as [[] [] [] [] [] [] [] []]; vm_compute; reflexivity. Qed.

Lemma upper_idempotent s : upper (upper s) = upper s.
Proof.
  induction s as [|c s IH]; [done|].
  simpl. by rewrite upper_ascii_idempotent, IH.
Qed.

Lemma STATES_codes_upper :
  Forall (fun s => upper (usps_code s) = usps_code s) STATES.
Proof. apply (bool_decide_eq_true_1 _). vm_compute. reflexivity. Qed.

Lemma STATES_codes_found :
  Forall (fun s => get_state_by_code (usps_code s) = Some s) STATES.
Proof. apply (bool_decide_eq_true_1 _). vm_compute. reflexivity. Qed.

#[local] Transparent _BY_CODE.

Lemma BY_CODE_lookup key ref :
  _BY_CODE !! key = Some ref -> ref ∈ STATES /\ key = upper (usps_code ref).
Proof.
  unfold _BY_CODE.
  enough (Hgen : forall (l : list state_ref) (acc : gmap string state_ref),
    (forall r, acc !! key = Some r -> r ∈ STATES /\ key = upper (usps_code r)) ->
    (forall s, s ∈ l -> s ∈ STATES) ->
    forall r, foldl (fun m s => <[upper (usps_code s) := s]> m) acc l !! key
              = Some r ->
              r ∈ STATES /\ key = upper (usps_code r)).
  { intros Hk. apply (Hgen STATES ∅); [by intros r|done|done]. }
  induction l as [|s l IH]; intros acc Hacc Hl r; simpl; [apply Hacc|].
  apply IH.
  - intros r'. destruct (decide (upper (usps_code s) = key)) as [<-|Hne].
    + rewrite lookup_insert_eq. intros [= <-]. split; [|done].
      apply Hl. by left.
    + rewrite lookup_insert_ne by done. apply Hacc.
  - intros s' Hs'. apply Hl. by right.
Qed.

#[local] Opaque _BY_CODE.

Lemma get_state_by_code_Some code ref :
  get_state_by_code code = Some ref ->
  ref ∈ STATES /\ usps_code ref = upper code.
Proof.
  unfold get_state_by_code. intros [Hin Hkey]%BY_CODE_lookup.
  split; [done|]. rewrite Hkey. symmetry.
  by apply (proj1 (Forall_forall _ _) STATES_codes_upper).
Qed.

(** X7. [get_state_by_code] finds every state of [STATES] under its own
    code; what it returns for a code is a state of [STATES] whose code is
    the code in upper case; and it does not depend on the case of the
    code. *)
Theorem state_lookup_by_code :
  (forall s, s ∈ STATES -> get_state_by_code (usps_code s) = Some s)
  /\ (forall code ref,
        get_state_by_code code = Some ref ->
        ref ∈ STATES /\ usps_code ref = upper code)
  /\ (forall code, get_state_by_code (upper code) = get_state_by_code code).
Proof.
  split; [apply (proj1 (Forall_forall _ _) STATES_codes_found)|].
  split; [apply get_state_by_code_Some|].
  intros code. unfold get_state_by_code. by rewrite upper_idempotent.
Qed.

(** ** The flags of the row-local checks, by category *)

Ltac foreign_category :=
  match goal with
  | |- has_category ?c ?flags = false =>
      let E := fresh "E" in
      destruct (has_category c flags) eqn:E; [|reflexivity];
      first [ apply state_flags_categories in E as [?|?]
            | apply date_flags_categories in E as [?|?]
            | apply rate_flags_categories in E as [?|[?|?]]
            | apply prev_flags_categories in E ];
      discriminate
  end.

Section row_flags.
Context `{Builtins}.

Lemma checks_category raw cat :
has_category cat (state_flags raw ++ date_flags raw ++ rate_flags raw
                  ++ prev_flags raw)
= has_category cat (state_flags raw) || has_category cat (date_flags raw)
  || has_category cat (rate_flags raw) || has_category cat (prev_flags raw).
Proof. rewrite !has_category_app. by rewrite !orb_assoc. Qed.

Lemma state_flags_unknown raw :
has_category "unknown_state_code" (state_flags raw) = negb (state_known raw).
Proof.
unfold state_flags, state_known.
destruct (get_state_by_code _) as [ref|].
- rewrite bool_decide_eq_true_2 by (by eexists).
  by destruct (String.eqb _ _).
- rewrite bool_decide_eq_false_2 by (by intros [? ?]). done.
Qed.

Lemma date_flags_unparseable raw :
has_category "unparseable_date" (date_flags raw) = negb (date_parses raw).
Proof.
unfold date_flags, date_parses.
destruct (_normalize_date _) as [canonical|].
- rewrite bool_decide_eq_true_2 by (by eexists).
  by destruct (String.eqb _ _).
- rewrite bool_decide_eq_false_2 by (by intros [? ?]). done.
Qed.

Lemma rate_flags_blocking raw :
has_category "missing_rate" (rate_flags raw)
|| has_category "implausible_rate" (rate_flags raw)
= negb (rate_plausible raw).
Proof.
unfold rate_flags, rate_plausible.
destruct (RawRow.unemployment_rate raw) as [rate|]; [|done].
destruct (PrimFloat.ltb rate 0 || PrimFloat.leb 100 rate); [done|].
by destruct (PrimFloat.leb 15 rate).
Qed.

Lemma checks_blocking raw :
has_blocking_flag (state_flags raw ++ date_flags raw ++ rate_flags raw
                   ++ prev_flags raw)
= negb (state_known raw && date_parses raw && rate_plausible raw).
Proof.
unfold has_blocking_flag, BLOCKING_CATEGORIES. cbn [existsb].
rewrite !checks_category.
rewrite state_flags_unknown, date_flags_unparseable.
pose proof (rate_flags_blocking raw) as Hrate.
replace (has_category "unknown_state_code" (date_flags raw)) with false
  by (symmetry; foreign_category).
replace (has_category "unknown_state_code" (rate_flags raw)) with false
  by (symmetry; foreign_category).
replace (has_category "unknown_state_code" (prev_flags raw)) with false
  by (symmetry; foreign_category).
replace (has_category "unparseable_date" (state_flags raw)) with false
  by (symmetry; foreign_category).
replace (has_category "unparseable_date" (rate_flags raw)) with false
  by (symmetry; foreign_category).
replace (has_category "unparseable_date" (prev_flags raw)) with false
  by (symmetry; foreign_category).
replace (has_category "missing_rate" (state_flags raw)) with false
  by (symmetry; foreign_category).
replace (has_category "missing_rate" (date_flags raw)) with false
  by (symmetry; foreign_category).
replace (has_category "missing_rate" (prev_flags raw)) with false
  by (symmetry; foreign_category).
replace (has_category "implausible_rate" (state_flags raw)) with false
  by (symmetry; foreign_category).
replace (has_category "implausible_rate" (date_flags raw)) with false
  by (symmetry; foreign_category).
replace (has_category "implausible_rate" (prev_flags raw)) with false
  by (symmetry; foreign_category).
replace (has_category "rate_conflict" (state_flags raw)) with false
  by (symmetry; foreign_category).
replace (has_category "rate_conflict" (date_flags raw)) with false
  by (symmetry; foreign_category).
replace (has_category "rate_conflict" (rate_flags raw)) with false
  by (symmetry; foreign_category).
replace (has_category "rate_conflict" (prev_flags raw)) with false
  by (symmetry; foreign_category).
destruct (state_known raw), (date_parses raw), (rate_plausible raw);
  simpl in *;
  destruct (has_category "missing_rate" (rate_flags raw)),
    (has_category "implausible_rate" (rate_flags raw)); done.
Qed.

End row_flags.

(** ** The two passes, row by row *)

Section passes.
Context `{Builtins}.

Lemma passes_cases claims seen row :
let row' := check_imputed seen (check_rate_conflict claims row) in
row' = row
\/ (exists flag,
      is_publishable row = true /\ flag_category flag = "rate_conflict" /\
      row' = set_unpublishable (append_flag row flag))
\/ (exists flag,
      is_publishable row = true /\
      flag_category flag = "prev_month_imputed" /\
      "missing_prev_month" ∈ qa_flags row /\
      row' = append_flag row flag).
Proof.
intros row'. unfold row'.
destruct (check_rate_conflict_cases claims row)
  as [-> | (rate & claimed & idx & Hpub & _ & _ & ->)].
- destruct (check_imputed_cases seen row)
    as [-> | (prev & Hpub & Hflag & _ & _ & ->)]; [by left|].
  right. right. exists ("prev_month_imputed: sourced from " +:+ prev).
  split; [done|]. split; [reflexivity|].
  split; [by apply has_flag_elem_of|done].
- right. left. exists (rate_conflict_flag rate claimed idx).
  split; [done|]. split; [reflexivity|].
  unfold check_imputed. done.
Qed.

Lemma passes_fmap validated :
_check_prev_month_imputed (_check_rate_conflicts validated)
= (fun row =>
     check_imputed (will_have_value (_check_rate_conflicts validated))
       (check_rate_conflict (prev_month_claims validated) row))
  <$> validated.
Proof.
unfold _check_prev_month_imputed.
unfold _check_rate_conflicts at 2. by rewrite <- list_fmap_compose.
Qed.

(** X8. The two reconciliation passes keep the number and the order of the
  rows and, in every row, everything but the flags and the verdict. A
  row gains at most one flag over both passes: a [rate_conflict] flag,
  and then it was publishable and no longer is, or a
  [prev_month_imputed] flag, and then it is publishable. *)
Theorem passes_keep_the_observation (validated : list ValidatedRow) :
Forall2
  (fun before after =>
     same_observation before after
     /\ exists added,
          qa_flags after = qa_flags before ++ added
          /\ (length added <= 1)%nat
          /\ (forall flag, flag ∈ added ->
                (flag_category flag = "rate_conflict"
                 /\ is_publishable before = true
                 /\ is_publishable after = false)
                \/ (flag_category flag = "prev_month_imputed"
                    /\ is_publishable after = true)))
  validated
  (_check_prev_month_imputed (_check_rate_conflicts validated)).
Proof.
rewrite passes_fmap. apply Forall2_fmap_r, Forall_Forall2_diag.
apply Forall_forall. intros row _.
pose proof (passes_cases (prev_month_claims validated)
              (will_have_value (_check_rate_conflicts validated)) row)
  as Hcases. cbv zeta in Hcases. unfold compose. cbv beta.
destruct Hcases
  as [-> | [(flag & Hpub & Hcat & ->) | (flag & Hpub & Hcat & _ & ->)]].
- split; [by repeat split|]. exists []. rewrite app_nil_r.
  split; [done|]. split; [simpl; lia|]. by intros flag ?%elem_of_nil.
- split; [by repeat split|]. exists [flag]. split; [done|].
  split; [done|]. intros ? ->%list_elem_of_singleton. by left.
- split; [by repeat split|]. exists [flag]. split; [done|].
  split; [done|]. intros ? ->%list_elem_of_singleton. by right.
Qed.

End passes.

(** ** Where the rows of [run_validation] come from *)

Section rows.
Context `{Builtins}.

Lemma validate_row_index raw_dict row_index row :
_validate_row raw_dict row_index = Some row ->
source_row_index row = row_index.
Proof. by intros (raw & _ & _ & _ & _ & _ & ? & _)%validate_row_Some. Qed.

Lemma validate_from_spec (raw_records : list (gmap string cell)) (start : Z) :
let rows :=
  omap (fun '(i, rec) => _validate_row rec i)
       (zip (seqZ start (Z.of_nat (length raw_records))) raw_records) in
StronglySorted Z.lt (source_row_index <$> rows)
/\ Forall
     (fun row =>
        exists (k : nat) raw_dict,
          raw_records !! k = Some raw_dict
          /\ _validate_row raw_dict (start + Z.of_nat k) = Some row)
     rows
/\ (length rows <= length raw_records)%nat.
Proof.
revert start. induction raw_records as [|rec recs IH]; intros start.
{ simpl. split; [constructor|]. split; [constructor|done]. }
cbn [length]. rewrite seqZ_cons by lia. cbn [zip zip_with omap].
replace (Z.pred (Z.of_nat (S (length recs)))) with (Z.of_nat (length recs))
  by lia.
destruct (IH (Z.succ start)) as (Hsorted & Horigin & Hlen).
assert (Horigin' : Forall
     (fun row =>
        exists (k : nat) raw_dict,
          (rec :: recs) !! k = Some raw_dict
          /\ _validate_row raw_dict (start + Z.of_nat k) = Some row)
     (omap (fun '(i, rec) => _validate_row rec i)
        (zip (seqZ (Z.succ start) (Z.of_nat (length recs))) recs))).
{ eapply Forall_impl; [exact Horigin|].
  intros row (k & raw_dict & Hk & Hrow). exists (S k), raw_dict.
  split; [done|]. by replace (start + Z.of_nat (S k))%Z
                    with (Z.succ start + Z.of_nat k)%Z by lia. }
destruct (_validate_row rec start) as [row|] eqn:Hrow; cbn [list_omap].
- rewrite Hrow. cbn [fmap list_fmap]. split; [|split].
  + apply StronglySorted_cons. split; [|done].
    apply Forall_fmap, Forall_forall. intros row' Hrow'.
    apply (proj1 (Forall_forall _ _) Horigin) in Hrow'
      as (k & raw_dict & _ & Hk).
    apply validate_row_index in Hrow, Hk. simpl. lia.
  + constructor; [|done]. exists 0%nat, rec. split; [done|].
    by rewrite Z.add_0_r.
  + cbn [length]. apply le_n_S, Hlen.
- rewrite Hrow. split; [done|]. split; [done|].
  etrans; [exact Hlen|]. cbn [length]. lia.
Qed.

Lemma run_validation_origin raw_records row :
row ∈ (run_validation raw_records).1.1 ->
exists row0 claims seen,
  row0 ∈ validate_records raw_records
  /\ row = check_imputed seen (check_rate_conflict claims row0).
Proof.
unfold run_validation. simpl. rewrite passes_fmap.
intros (row0 & -> & Hin)%list_elem_of_fmap. eauto.
Qed.

Lemma passes_same_observation claims seen row :
same_observation row (check_imputed seen (check_rate_conflict claims row)).
Proof.
pose proof (passes_cases claims seen row) as Hcases. cbv zeta in Hcases.
destruct Hcases as [-> | [(flag & _ & _ & ->) | (flag & _ & _ & _ & ->)]];
  by repeat split.
Qed.

(** X9. The rows [run_validation] returns are in the order of the records,
  with strictly increasing [source_row_index], and there are no more of
  them than records. The row numbered [2 + k] was made by
  [_validate_row] from the record at position [k], and differs from what
  [_validate_row] returned at most in its flags and verdict. *)
Theorem rows_are_numbered_from_two (raw_records : list (gmap string cell)) :
let rows := (run_validation raw_records).1.1 in
StronglySorted Z.lt (source_row_index <$> rows)
/\ (length rows <= length raw_records)%nat
/\ forall row, row ∈ rows ->
     exists (k : nat) raw_dict row0,
       source_row_index row = (2 + Z.of_nat k)%Z
       /\ raw_records !! k = Some raw_dict
       /\ _validate_row raw_dict (2 + Z.of_nat k) = Some row0
       /\ same_observation row0 row.
Proof.
intros rows.
destruct (validate_from_spec raw_records 2) as (Hsorted & Horigin & Hlen).
fold (validate_records raw_records) in Hsorted, Horigin, Hlen.
assert (Hrows : rows
                = (fun row =>
                     check_imputed
                       (will_have_value
                          (_check_rate_conflicts
                             (validate_records raw_records)))
                       (check_rate_conflict
                          (prev_month_claims (validate_records raw_records))
                          row))
                  <$> validate_records raw_records).
{ unfold rows, run_validation. simpl. apply passes_fmap. }
split; [|split].
- rewrite Hrows, <- list_fmap_compose.
  erewrite list_fmap_ext; [exact Hsorted|].
  intros i row _. simpl. symmetry. apply passes_same_observation.
- by rewrite Hrows, length_fmap.
- intros row Hrow. rewrite Hrows in Hrow.
  apply list_elem_of_fmap in Hrow as (row0 & -> & Hin).
  apply (proj1 (Forall_forall _ _) Horigin) in Hin as Hk.
  destruct Hk as (k & raw_dict & Hk & Hrow0).
  exists k, raw_dict, row0.
  pose proof (passes_same_observation
                (prev_month_claims (validate_records raw_records))
                (will_have_value
                   (_check_rate_conflicts (validate_records raw_records)))
                row0) as Hsame.
  split; [|done].
  destruct Hsame as (_ & _ & _ & _ & _ & _ & <-).
  by apply validate_row_index in Hrow0.
Qed.

End rows.

(** ** What a row's flags and verdict say *)

Section verdicts.
Context `{Builtins}.

Lemma validate_records_row raw_records row0 :
row0 ∈ validate_records raw_records ->
exists raw_dict row_index, _validate_row raw_dict row_index = Some row0.
Proof.
unfold validate_records.
intros ([i rec] & _ & Hrow)%list_elem_of_omap. eauto.
Qed.

Lemma has_blocking_flag_snoc flags flag :
has_blocking_flag (flags ++ [flag])
= has_blocking_flag flags
  || existsb (String.eqb (flag_category flag)) BLOCKING_CATEGORIES.
Proof.
unfold has_blocking_flag, BLOCKING_CATEGORIES. cbn [existsb].
rewrite !has_category_app, !has_category_singleton.
repeat match goal with
       | |- context [has_category ?c flags] =>
           destruct (has_category c flags)
       end;
  cbn [orb]; try reflexivity;
  repeat match goal with
         | |- context [String.eqb ?a ?b] => destruct (String.eqb a b)
         end; reflexivity.
Qed.

(** X10. A row that [run_validation] returns is unpublishable exactly when it
  carries a flag of one of the categories [unknown_state_code],
  [unparseable_date], [missing_rate], [implausible_rate] and
  [rate_conflict]. *)
Theorem unpublishable_rows_say_why (raw_records : list (gmap string cell))
(row : ValidatedRow) :
row ∈ (run_validation raw_records).1.1 ->
is_publishable row = negb (has_blocking_flag (qa_flags row)).
Proof.
intros (row0 & claims & seen & Hin & ->)%run_validation_origin.
apply validate_records_row in Hin as (raw_dict & row_index & Hrow0).
apply validate_row_Some in Hrow0
  as (raw & _ & _ & _ & _ & _ & _ & Hflags & Hpub).
pose proof (checks_blocking raw) as Hblock. rewrite <- Hflags, <- Hpub in Hblock.
pose proof (passes_cases claims seen row0) as Hcases. cbv zeta in Hcases.
destruct Hcases
  as [-> | [(flag & Hp & Hcat & ->) | (flag & Hp & Hcat & _ & ->)]].
- rewrite Hblock. by rewrite negb_involutive.
- simpl. rewrite has_blocking_flag_snoc, Hcat. simpl.
  by rewrite orb_true_r.
- simpl. rewrite has_blocking_flag_snoc, Hcat. simpl.
  rewrite orb_false_r, Hblock. by rewrite negb_involutive.
Qed.

Lemma missing_prev_month_checks raw :
"missing_prev_month"
∈ state_flags raw ++ date_flags raw ++ rate_flags raw ++ prev_flags raw
<-> RawRow.unemployment_rate_prev_month raw = None.
Proof.
split.
- rewrite !elem_of_app. intros [Hin | [Hin | [Hin | Hin]]].
  + apply (has_category_elem_of "missing_prev_month") in Hin; [|done].
    assert (has_category "missing_prev_month" (state_flags raw) = false)
      by foreign_category. congruence.
  + apply (has_category_elem_of "missing_prev_month") in Hin; [|done].
    assert (has_category "missing_prev_month" (date_flags raw) = false)
      by foreign_category. congruence.
  + apply (has_category_elem_of "missing_prev_month") in Hin; [|done].
    assert (has_category "missing_prev_month" (rate_flags raw) = false)
      by foreign_category. congruence.
  + unfold prev_flags in Hin.
    destruct (RawRow.unemployment_rate_prev_month raw); [|done].
    by apply elem_of_nil in Hin.
- intros Hnone. rewrite !elem_of_app. right. right. right.
  unfold prev_flags. rewrite Hnone. apply list_elem_of_here.
Qed.

(** X11. A row that [run_validation] returns carries the flag
  [missing_prev_month] exactly when it has no prior rate; so the test of
  the flag in [_check_prev_month_imputed] is a test of the field. *)
Theorem missing_prev_month_flag_iff (raw_records : list (gmap string cell))
(row : ValidatedRow) :
row ∈ (run_validation raw_records).1.1 ->
("missing_prev_month" ∈ qa_flags row
 <-> unemployment_rate_prev_month row = None).
Proof.
intros (row0 & claims & seen & Hin & ->)%run_validation_origin.
apply validate_records_row in Hin as (raw_dict & row_index & Hrow0).
apply validate_row_Some in Hrow0
  as (raw & _ & _ & _ & _ & Hprev & _ & Hflags & _).
pose proof (missing_prev_month_checks raw) as Hchecks.
rewrite <- Hflags, <- Hprev in Hchecks.
pose proof (passes_cases claims seen row0) as Hcases. cbv zeta in Hcases.
destruct Hcases
  as [-> | [(flag & _ & Hcat & ->) | (flag & _ & Hcat & _ & ->)]];
  [done|..]; simpl; rewrite elem_of_app, list_elem_of_singleton;
  (split; [intros [?| <-]; [by apply Hchecks|discriminate Hcat]|]);
  intros ?; left; by apply Hchecks.
Qed.

(** X12. The state code of a row [_validate_row] returns is in upper case.
  When the reference table has the code, the row's state name is the
  table's name for it, whatever name the record gave, and the row has no
  [unknown_state_code] flag; when it has not, the row is unpublishable
  and has that flag. *)
Theorem state_name_is_taken_from_the_code (raw_dict : gmap string cell)
(row_index : Z) (row : ValidatedRow) :
_validate_row raw_dict row_index = Some row ->
upper (state_code row) = state_code row
/\ match get_state_by_code (state_code row) with
   | Some ref =>
       state_canonical row = name ref
       /\ usps_code ref = state_code row
       /\ has_category "unknown_state_code" (qa_flags row) = false
   | None =>
       is_publishable row = false
       /\ has_category "unknown_state_code" (qa_flags row) = true
   end.
Proof.
intros Hrow. pose proof Hrow as Hchecks.
rewrite validate_row_checks in Hchecks.
apply validate_row_Some in Hrow
  as (raw & Hraw & Hcode & _ & _ & _ & _ & Hflags & Hpub).
rewrite Hraw in Hchecks. injection Hchecks as Hrow.
apply (f_equal state_canonical) in Hrow. simpl in Hrow.
split; [by rewrite Hcode, upper_idempotent|].
assert (Hunknown : has_category "unknown_state_code" (qa_flags row)
                   = negb (state_known raw)).
{ rewrite Hflags, checks_category, state_flags_unknown.
  replace (has_category "unknown_state_code" (date_flags raw)) with false
    by (symmetry; foreign_category).
  replace (has_category "unknown_state_code" (rate_flags raw)) with false
    by (symmetry; foreign_category).
  replace (has_category "unknown_state_code" (prev_flags raw)) with false
    by (symmetry; foreign_category).
  by rewrite !orb_false_r. }
assert (Hsame : get_state_by_code (state_code row)
                = get_state_by_code (upper (strip (RawRow.state_code raw)))).
{ rewrite Hcode. unfold get_state_by_code. by rewrite upper_idempotent. }
rewrite Hunknown, Hpub. unfold state_known. rewrite Hsame.
destruct (get_state_by_code (upper (strip (RawRow.state_code raw))))
  as [ref|] eqn:Href.
- rewrite bool_decide_eq_true_2 by (by eexists).
  split; [done|]. split; [|done].
  apply get_state_by_code_Some in Href as [_ ->].
  by rewrite Hcode, upper_idempotent.
- rewrite bool_decide_eq_false_2 by (by intros [? ?]). done.
Qed.

End verdicts.

(** ** A rate that is not a number *)

Lemma SFeqb_irrefl_nan x : SFeqb x x = false -> x = S754_nan.
Proof.
  unfold SFeqb, SFcompare.
  destruct x as [s|s| |s m e]; try done.
  - by destruct s.
  - by destruct s; rewrite Z.compare_refl, ?Pos.compare_cont_refl.
Qed.

Lemma nan_compares_false (rate bound : float) :
  PrimFloat.is_nan rate = true ->
  PrimFloat.ltb rate bound = false /\ PrimFloat.leb bound rate = false.
Proof.
  unfold PrimFloat.is_nan.
  rewrite FloatAxioms.eqb_spec, FloatAxioms.ltb_spec, FloatAxioms.leb_spec.
  intros Hnan%negb_true_iff%SFeqb_irrefl_nan. rewrite Hnan.
  split; [done|]. unfold SFleb, SFcompare. by destruct (Prim2SF bound) as [[]|[]| |[]].
Qed.

Section not_a_number.
Context `{Builtins}.

(** X13. A rate that is not a number passes the plausibility check: every
  comparison with it is false, so the row gets none of the flags
  [missing_rate], [implausible_rate] and [rate_unusually_high], and it is
  publishable exactly when its state code and its month are accepted. *)
Theorem nan_rate_is_not_implausible (raw_dict : gmap string cell)
(row_index : Z) (row : ValidatedRow) (rate : float) :
_validate_row raw_dict row_index = Some row ->
unemployment_rate row = Some rate ->
PrimFloat.is_nan rate = true ->
has_category "missing_rate" (qa_flags row) = false
/\ has_category "implausible_rate" (qa_flags row) = false
/\ has_category "rate_unusually_high" (qa_flags row) = false
/\ is_publishable row
   = negb (has_category "unknown_state_code" (qa_flags row)
           || has_category "unparseable_date" (qa_flags row)).
Proof.
intros (raw & _ & _ & _ & Hrate & _ & _ & Hflags & Hpub)%validate_row_Some
  Hsome Hnan.
rewrite Hrate in Hsome.
destruct (nan_compares_false rate 0 Hnan) as [Hlt0 _].
destruct (nan_compares_false rate 100 Hnan) as [_ Hge100].
destruct (nan_compares_false rate 15 Hnan) as [_ Hge15].
assert (Hnone : rate_flags raw = []).
{ unfold rate_flags. by rewrite Hsome, Hlt0, Hge100, Hge15. }
assert (Hplausible : rate_plausible raw = true).
{ unfold rate_plausible. by rewrite Hsome, Hlt0, Hge100. }
rewrite Hflags.
rewrite !has_category_other_checks, Hnone
  by (rewrite !elem_of_cons; auto).
repeat (split; [done|]).
rewrite Hpub, Hplausible, andb_true_r, !has_category_app.
rewrite state_flags_unknown, date_flags_unparseable.
replace (has_category "unknown_state_code" (date_flags raw)) with false
  by (symmetry; foreign_category).
replace (has_category "unknown_state_code" (prev_flags raw)) with false
  by (symmetry; foreign_category).
replace (has_category "unparseable_date" (state_flags raw)) with false
  by (symmetry; foreign_category).
replace (has_category "unparseable_date" (prev_flags raw)) with false
  by (symmetry; foreign_category).
rewrite !has_category_nil.
by destruct (state_known raw), (date_parses raw).
Qed.

End not_a_number.

(** ** The latest month *)

Lemma latest_month_fold best rest :
  let latest := foldl (fun best x => if str_lt best x then x else best)
                      best rest in
  latest ∈ best :: rest
  /\ str_lt latest best = false
  /\ Forall (fun x => str_lt latest x = false) rest.
Proof.
  revert best. induction rest as [|x rest IH]; intros best; simpl.
  { split; [apply list_elem_of_here|]. split; [|constructor].
    destruct (str_lt best best) eqn:Hlt; [|done].
    by rewrite (str_lt_asym _ _ Hlt) in Hlt. }
  destruct (IH (if str_lt best x then x else best)) as (Hin & Hbest & Hrest).
  set (latest := foldl _ _ rest) in *.
  destruct (str_lt best x) eqn:Hbx.
  - split; [by right|]. split; [|by constructor].
    destruct (str_lt latest best) eqn:Hlb; [|done].
    by rewrite (str_lt_trans _ _ _ Hlb Hbx) in Hbest.
  - split.
    { apply elem_of_cons in Hin as [->|Hin]; [left|right; right]; done. }
    split; [done|]. constructor; [|done].
    destruct (str_lt latest x) eqn:Hlx; [|done].
    destruct (str_lt x best) eqn:Hxb.
    + by rewrite (str_lt_trans _ _ _ Hlx Hxb) in Hbest.
    + rewrite (str_lt_total _ _ Hbx Hxb) in Hbest. congruence.
Qed.

Section latest.
Context `{Builtins}.

(** X14. The latest data month [run_validation] returns is [""] when no row
  is publishable; otherwise it is the month of a publishable row, and no
  publishable row has a month that compares greater. *)
Theorem latest_data_month_is_the_maximum
(raw_records : list (gmap string cell)) :
let rows := (run_validation raw_records).1.1 in
let latest := (run_validation raw_records).2 in
(Forall (fun row => is_publishable row = false) rows /\ latest = "")
\/ ((exists row, row ∈ rows /\ is_publishable row = true
                 /\ month_canonical row = latest)
    /\ forall row, row ∈ rows -> is_publishable row = true ->
                   str_lt latest (month_canonical row) = false).
Proof.
intros rows latest. unfold latest, rows, run_validation. simpl.
set (validated := _check_prev_month_imputed _).
destruct (List.filter is_publishable validated) as [|first rest] eqn:Hfilter.
- left. split; [|done]. apply Forall_forall. intros row Hrow.
  destruct (is_publishable row) eqn:Hpub; [|done].
  assert (Hin : In row (List.filter is_publishable validated)).
  { apply filter_In. split; [by apply list_elem_of_In|done]. }
  by rewrite Hfilter in Hin.
- right. cbn [fmap list_fmap latest_month].
  pose proof (latest_month_fold (month_canonical first)
                (month_canonical <$> rest)) as (Hin & Hfirst & Hrest).
  set (l := foldl _ _ _) in *.
  assert (Hpubs : forall row, row ∈ first :: rest <->
                              row ∈ validated /\ is_publishable row = true).
  { intros row. rewrite <- Hfilter, !list_elem_of_In. apply filter_In. }
  split.
  + change (month_canonical first :: (month_canonical <$> rest))
      with (month_canonical <$> first :: rest) in Hin.
    apply list_elem_of_fmap in Hin as (row & Hl & Hrow).
    apply Hpubs in Hrow as [Hrow Hpub]. by exists row.
  + intros row Hrow Hpub.
    assert (Hrow' : row ∈ first :: rest) by (by apply Hpubs).
    apply elem_of_cons in Hrow' as [->|Hrow']; [done|].
    apply (proj1 (Forall_forall _ _) Hrest).
    by apply list_elem_of_fmap_2.
Qed.

End latest.

(** ** Examples *)

Lemma example_lowercase_validated :
  example_lowercase_row
  ∈ (@run_validation example_builtins [example_lowercase]).1.1.
Proof. vm_compute. apply list_elem_of_here. Qed.

(** Witness of X12. *)
Lemma state_name_is_taken_from_the_code_witness :
  @_validate_row example_builtins example_lowercase 2
  = Some example_lowercase_row
  /\ upper "AL" = "AL"
  /\ exists ref,
       get_state_by_code "AL" = Some ref
       /\ state_canonical example_lowercase_row = name ref
       /\ usps_code ref = "AL".
Proof.
  assert (Hrow : @_validate_row example_builtins example_lowercase 2
                 = Some example_lowercase_row)
    by (vm_compute; reflexivity).
  split; [exact Hrow|].
  destruct (@state_name_is_taken_from_the_code example_builtins
              example_lowercase 2 example_lowercase_row Hrow)
    as [Hupper Hstate].
  split; [exact Hupper|].
  change (state_code example_lowercase_row) with "AL" in Hstate.
  destruct (get_state_by_code "AL") as [ref|].
  - destruct Hstate as (Hname & Hcode & _). exists ref.
    split; [reflexivity|]. split; [exact Hname|exact Hcode].
  - destruct Hstate as [_ Hflag]. vm_compute in Hflag. discriminate Hflag.
Defined.

(** Witness of X10. *)
Lemma unpublishable_rows_say_why_witness :
  example_lowercase_row
  ∈ (@run_validation example_builtins [example_lowercase]).1.1
  /\ is_publishable example_lowercase_row = false
  /\ has_blocking_flag (qa_flags example_lowercase_row) = true.
Proof.
  split; [exact example_lowercase_validated|]. split; [reflexivity|].
  pose proof (@unpublishable_rows_say_why example_builtins
                [example_lowercase] example_lowercase_row
                example_lowercase_validated) as Hwhy.
  change (is_publishable example_lowercase_row) with false in Hwhy.
  destruct (has_blocking_flag (qa_flags example_lowercase_row));
    [reflexivity|discriminate Hwhy].
Defined.

(** Witness of X11. *)
Lemma missing_prev_month_flag_iff_witness :
  example_lowercase_row
  ∈ (@run_validation example_builtins [example_lowercase]).1.1
  /\ unemployment_rate_prev_month example_lowercase_row = None
  /\ "missing_prev_month" ∈ qa_flags example_lowercase_row.
Proof.
  split; [exact example_lowercase_validated|]. split; [reflexivity|].
  apply (@missing_prev_month_flag_iff example_builtins
           [example_lowercase] example_lowercase_row
           example_lowercase_validated).
  reflexivity.
Defined.

(** Witness of X13. *)
Lemma nan_rate_is_not_implausible_witness :
  @_validate_row example_builtins example_nan 2 = Some example_nan_row
  /\ PrimFloat.is_nan nan = true
  /\ is_publishable example_nan_row = true
  /\ has_category "implausible_rate" (qa_flags example_nan_row) = false.
Proof.
  assert (Hrow : @_validate_row example_builtins example_nan 2
                 = Some example_nan_row)
    by (vm_compute; reflexivity).
  split; [exact Hrow|]. split; [reflexivity|]. split; [reflexivity|].
  destruct (@nan_rate_is_not_implausible example_builtins example_nan 2
              example_nan_row nan Hrow eq_refl eq_refl)
    as (_ & Himplausible & _).
  exact Himplausible.
Defined.

(** ** Deduplication *)

Lemma dedupe_from_spec seen rows :
  Forall (fun r => existsb (dedupe_key_eq (dedupe_key r)) seen = false)
         (dedupe_from seen rows)
  /\ StronglySorted
       (fun a b => dedupe_key_eq (dedupe_key b) (dedupe_key a) = false)
       (dedupe_from seen rows).
Proof.
  revert seen. induction rows as [|row rows IH]; intros seen; simpl.
  { split; constructor. }
  destruct (existsb _ seen) eqn:Hseen; [apply IH|].
  destruct (IH (dedupe_key row :: seen)) as [Hnew Hsorted].
  split.
  - constructor; [done|]. eapply Forall_impl; [exact Hnew|].
    intros r Hr. simpl in Hr. by apply orb_false_elim in Hr as [_ ?].
  - constructor; [done|]. eapply Forall_impl; [exact Hnew|].
    intros r Hr. simpl in Hr. by apply orb_false_elim in Hr as [? _].
Qed.

Lemma dedupe_from_complete seen rows row :
  row ∈ rows ->
  row ∈ dedupe_from seen rows
  \/ existsb (dedupe_key_eq (dedupe_key row))
       (seen ++ (dedupe_key <$> dedupe_from seen rows)) = true.
Proof.
  revert seen. induction rows as [|r rows IH]; intros seen Hin.
  { by apply elem_of_nil in Hin. }
  simpl. destruct (existsb _ seen) eqn:Hseen.
  - apply elem_of_cons in Hin as [->|Hin]; [|by apply IH].
    right. rewrite existsb_app, Hseen. done.
  - apply elem_of_cons in Hin as [->|Hin]; [left; by left|].
    destruct (IH (dedupe_key r :: seen) Hin) as [Hkept|Hdup].
    + left. by right.
    + right. rewrite existsb_app in Hdup. cbn [existsb] in Hdup.
      rewrite existsb_app. rewrite fmap_cons. cbn [existsb].
      apply orb_prop in Hdup as [Hdup|Hdup];
        [apply orb_prop in Hdup as [Hdup|Hdup]|]; rewrite Hdup;
        by rewrite ?orb_true_r.
Qed.

Lemma dedupe_from_idempotent seen rows :
  dedupe_from seen (dedupe_from seen rows) = dedupe_from seen rows.
Proof.
  revert seen. induction rows as [|row rows IH]; intros seen; simpl; [done|].
  destruct (existsb _ seen) eqn:Hseen; [apply IH|].
  simpl. by rewrite Hseen, IH.
Qed.

(** X15. [_dedupe] returns a sublist of its input in which no row's key
    equals the key of an earlier row; every row of the input whose rates
    are numbers is in the result or has the key of a row of the result;
    and deduplicating twice changes nothing more. A row with a NaN for a
    rate is left out of the second part: its key equals no key, yet
    Python's set finds it when the NaN is an object met before. *)
Theorem dedupe_keeps_first_occurrences (rows : list ValidatedRow) :
  _dedupe rows `sublist_of` rows
  /\ StronglySorted
       (fun a b => dedupe_key_eq (dedupe_key b) (dedupe_key a) = false)
       (_dedupe rows)
  /\ (forall row, row ∈ rows -> rates_are_numbers row = true ->
        row ∈ _dedupe rows
        \/ exists kept, kept ∈ _dedupe rows
                        /\ dedupe_key_eq (dedupe_key row) (dedupe_key kept)
                           = true)
  /\ _dedupe (_dedupe rows) = _dedupe rows.
Proof.
  unfold _dedupe. split; [apply dedupe_from_sublist|].
  split; [apply dedupe_from_spec|]. split; [|apply dedupe_from_idempotent].
  intros row Hin _.
  destruct (dedupe_from_complete [] rows row Hin) as [?|Hdup]; [by left|].
  right. apply existsb_exists in Hdup as (key & Hkey & Heq).
  apply list_elem_of_In, list_elem_of_fmap in Hkey as (kept & -> & Hkept).
  by exists kept.
Qed.

(** ** What the pivot holds *)

Lemma foldl_record_point_elem pts st kv :
  kv ∈ (foldl record_point st pts).1 ->
  kv ∈ st.1 \/ exists c, c ∈ pts /\ kv = (key_of c, c).
Proof.
  revert st. induction pts as [|c pts IH]; intros [d n]; [by left|].
  cbn [foldl]. intros [Hin | (c' & Hc' & ->)]%IH.
  - rewrite record_point_dict in Hin.
    apply elem_of_dict_set in Hin as [-> | Hin]; [|by left].
    right. exists c. split; [by left|done].
  - right. exists c'. split; [by right|done].
Qed.

Lemma pivot_loop_elem rows ts st st' kv :
  pivot_loop rows ts st = Ok st' -> kv ∈ st'.1 ->
  kv ∈ st.1
  \/ exists row pts c,
       row ∈ rows /\ _pivot_row row ts = Ok pts /\ c ∈ pts
       /\ kv = (key_of c, c).
Proof.
  revert st. induction rows as [|row rows IH]; intros st; simpl.
  { intros [= <-]. by left. }
  destruct (_pivot_row row ts) as [pts|e] eqn:Hrow; [|done]. simpl.
  intros Hloop Hin.
  destruct (IH _ Hloop Hin) as [Hst | (r & p & c & Hr & Hp & Hc & ->)].
  - apply foldl_record_point_elem in Hst as [? | (c & Hc & ->)]; [by left|].
    right. exists row, pts, c. split; [by left|done].
  - right. exists r, p, c. split; [by right|done].
Qed.

Lemma dict_set_key_in key v d key' :
  key' ∈ (dict_set key v d).*1 <-> key' = key \/ key' ∈ d.*1.
Proof.
  induction d as [|[k old] d IH]; simpl.
  { rewrite list_elem_of_singleton. split; [by left|].
    intros [?|?%elem_of_nil]; done. }
  destruct (bool_decide_reflect (k = key)) as [->|Hk]; simpl.
  - rewrite elem_of_cons. tauto.
  - rewrite !elem_of_cons, IH. tauto.
Qed.

Lemma foldl_record_point_key_in pts st key :
  key ∈ (foldl record_point st pts).1.*1 <->
  key ∈ st.1.*1 \/ key ∈ key_of <$> pts.
Proof.
  revert st. induction pts as [|c pts IH]; intros [d n].
  { simpl. split; [by left|]. intros [?|?%elem_of_nil]; done. }
  cbn [foldl]. rewrite IH, record_point_dict, dict_set_key_in.
  rewrite fmap_cons, elem_of_cons. simpl. tauto.
Qed.

Lemma pivot_loop_key_kept rows ts st st' key :
  pivot_loop rows ts st = Ok st' -> key ∈ st.1.*1 -> key ∈ st'.1.*1.
Proof.
  revert st. induction rows as [|r rows IH]; intros st; simpl.
  { by intros [= <-]. }
  destruct (_pivot_row r ts) as [p|e]; [|done]. simpl.
  intros Hloop Hkey. apply (IH _ Hloop).
  apply foldl_record_point_key_in. by left.
Qed.

Lemma pivot_loop_key_in rows ts st st' row pts key :
  pivot_loop rows ts st = Ok st' ->
  row ∈ rows -> _pivot_row row ts = Ok pts -> key ∈ key_of <$> pts ->
  key ∈ st'.1.*1.
Proof.
  revert st. induction rows as [|r rows IH]; intros st; simpl.
  { by intros _ ?%elem_of_nil. }
  destruct (_pivot_row r ts) as [p|e] eqn:Hr; [|done]. simpl.
  intros Hloop [-> | Hin]%elem_of_cons Hrow Hkey.
  - assert (p = pts) as -> by congruence.
    apply (pivot_loop_key_kept _ _ _ _ _ Hloop).
    apply foldl_record_point_key_in. by right.
  - by apply (IH _ Hloop).
Qed.

Lemma pivot_row_Ok row ts pts :
  _pivot_row row ts = Ok pts ->
  exists rate,
    unemployment_rate row = Some rate
    /\ let current :=
         CleanRow.mk (state_canonical row) (state_code row)
           (month_canonical row +:+ "-01") rate (source row) ts
           (source_row_index row) in
       match unemployment_rate_prev_month row with
       | None => pts = [current]
       | Some prev =>
           exists prev_date,
             _prev_month_date (month_canonical row) = Ok prev_date
             /\ pts = [current;
                       CleanRow.mk (state_canonical row) (state_code row)
                         prev_date prev (source row) ts
                         (source_row_index row)]
       end.
Proof.
  unfold _pivot_row.
  destruct (unemployment_rate row) as [rate|]; [|done].
  intros Hpts. exists rate. split; [done|]. simpl.
  destruct (unemployment_rate_prev_month row) as [prev|].
  - destruct (_prev_month_date (month_canonical row)) as [d|e]; [|done].
    simpl in Hpts. injection Hpts as <-. by exists d.
  - by injection Hpts as <-.
Qed.

Lemma pivot_row_returns row ts :
  is_Some (unemployment_rate row) ->
  (is_Some (unemployment_rate_prev_month row) ->
   is_Some (_prev_month (month_canonical row))) ->
  exists pts, _pivot_row row ts = Ok pts.
Proof.
  intros [rate Hrate] Hprev. unfold _pivot_row. rewrite Hrate.
  destruct (unemployment_rate_prev_month row) as [prev|]; [|by eexists].
  destruct (Hprev (mk_is_Some _ _ eq_refl)) as [p Hp].
  rewrite prev_month_date_unfold, Hp. by eexists.
Qed.

Lemma pivot_loop_returns rows ts st :
  (forall row, row ∈ rows -> exists pts, _pivot_row row ts = Ok pts) ->
  exists st', pivot_loop rows ts st = Ok st'.
Proof.
  intros Hrows. destruct (pivot_loop rows ts st) as [st'|e] eqn:Hloop.
  { by exists st'. }
  apply pivot_loop_raises in Hloop as (row & Hin & Hraise).
  destruct (Hrows row Hin) as [pts Hpts]. congruence.
Qed.

Lemma dedupe_key_eq_fields a b :
  dedupe_key_eq (dedupe_key a) (dedupe_key b) = true ->
  state_code a = state_code b /\ month_canonical a = month_canonical b
  /\ (is_Some (unemployment_rate a) <-> is_Some (unemployment_rate b))
  /\ (is_Some (unemployment_rate_prev_month a)
      <-> is_Some (unemployment_rate_prev_month b)).
Proof.
  unfold dedupe_key_eq, dedupe_key.
  intros [[[Hs%String.eqb_eq Hm%String.eqb_eq]%andb_prop Hr]%andb_prop Hp]%andb_prop.
  split; [done|]. split; [done|]. split.
  - destruct (unemployment_rate a), (unemployment_rate b); try done;
      split; intros [? ?]; done.
  - destruct (unemployment_rate_prev_month a),
      (unemployment_rate_prev_month b); try done; split; intros [? ?]; done.
Qed.

Lemma clean_row_kept rows row :
  row ∈ rows -> is_publishable row = true ->
  exists kept,
    kept ∈ sorted (_dedupe (List.filter is_publishable rows)) month_canonical
    /\ state_code kept = state_code row
    /\ month_canonical kept = month_canonical row
    /\ (is_Some (unemployment_rate kept) <-> is_Some (unemployment_rate row))
    /\ (is_Some (unemployment_rate_prev_month kept)
        <-> is_Some (unemployment_rate_prev_month row)).
Proof.
  intros Hin Hpub.
  assert (Hfil : row ∈ List.filter is_publishable rows).
  { apply list_elem_of_In, filter_In. split; [by apply list_elem_of_In|done]. }
  destruct (dedupe_from_complete [] _ row Hfil) as [Hkept|Hdup].
  - exists row. rewrite sorted_Permutation. by repeat split.
  - apply existsb_exists in Hdup as (key & Hkey & Heq).
    apply list_elem_of_In, list_elem_of_fmap in Hkey as (kept & -> & Hkept).
    apply dedupe_key_eq_fields in Heq as (Hs & Hm & Hr & Hp).
    exists kept. rewrite sorted_Permutation. split; [done|].
    split; [done|]. split; [done|]. split; by symmetry.
Qed.

Lemma clean_row_input rows row :
  row ∈ sorted (_dedupe (List.filter is_publishable rows)) month_canonical ->
  row ∈ rows /\ is_publishable row = true.
Proof.
  rewrite sorted_Permutation.
  intros Hin%elem_of_dedupe%list_elem_of_In%filter_In.
  destruct Hin as [Hin Hpub]. split; [by apply list_elem_of_In|done].
Qed.

Lemma run_clean_Ok rows ts out :
  run_clean rows ts = Ok out ->
  exists d n,
    pivot_loop
      (sorted (_dedupe (List.filter is_publishable rows)) month_canonical)
      ts ([], 0%Z) = Ok (d, n)
    /\ final_rows out = d.*2 /\ revisions_applied out = n.
Proof.
  unfold run_clean, pivot.
  destruct (pivot_loop _ ts ([], 0%Z)) as [[d n]|e] eqn:Hloop; [|done].
  simpl. intros [= <-]. by exists d, n.
Qed.

Lemma dict_wf_keys d : dict_wf d -> key_of <$> d.*2 = d.*1.
Proof.
  intros [_ Hkeys]. induction d as [|[k c] d IH]; [done|].
  apply Forall_cons in Hkeys as [Hk Hkeys]. simpl in *.
  rewrite <- Hk. f_equal. by apply IH.
Qed.

Lemma run_clean_returns rows ts :
  (forall row, row ∈ rows -> is_publishable row = true ->
     is_Some (unemployment_rate row)
     /\ (is_Some (unemployment_rate_prev_month row) ->
         is_Some (_prev_month (month_canonical row)))) ->
  exists out, run_clean rows ts = Ok out.
Proof.
  intros Hrows. unfold run_clean, pivot.
  destruct (pivot_loop_returns
              (sorted (_dedupe (List.filter is_publishable rows))
                 month_canonical) ts ([], 0%Z)) as [[d n] ->].
  - intros row [Hin Hpub]%clean_row_input.
    destruct (Hrows row Hin Hpub) as [Hrate Hprev].
    by apply pivot_row_returns.
  - simpl. by eexists.
Qed.

(** X16. When [run_clean] returns, no two of its rows share
    [(state_code, date)], and each of its rows was built from a publishable
    row of the input that has a current rate: it is that row's point for
    its own month with the current rate, or its point for the month before
    with the prior rate. *)
Theorem clean_rows_come_from_publishable_rows (rows : list ValidatedRow)
  (ts : string) (out : clean_output) :
  run_clean rows ts = Ok out ->
  NoDup (key_of <$> final_rows out)
  /\ forall c, c ∈ final_rows out ->
       exists row rate,
         row ∈ rows /\ is_publishable row = true
         /\ unemployment_rate row = Some rate
         /\ (c = CleanRow.mk (state_canonical row) (state_code row)
                   (month_canonical row +:+ "-01") rate (source row) ts
                   (source_row_index row)
             \/ exists prev prev_date,
                  unemployment_rate_prev_month row = Some prev
                  /\ _prev_month_date (month_canonical row) = Ok prev_date
                  /\ c = CleanRow.mk (state_canonical row) (state_code row)
                           prev_date prev (source row) ts
                           (source_row_index row)).
Proof.
  intros (d & n & Hloop & Hrows & _)%run_clean_Ok. rewrite Hrows.
  pose proof (pivot_loop_wf _ _ ([], 0%Z) _ dict_wf_nil Hloop) as Hwf.
  simpl in Hwf.
  split.
  { rewrite dict_wf_keys by done. apply Hwf. }
  intros c ([k c'] & -> & Hin)%list_elem_of_fmap. simpl.
  destruct (pivot_loop_elem _ _ _ _ _ Hloop Hin)
    as [?%elem_of_nil | (row & pts & c & Hrow & Hpts & Hc & [= _ ->])];
    [done|].
  apply clean_row_input in Hrow as [Hrow Hpub].
  apply pivot_row_Ok in Hpts as (rate & Hrate & Hpts). simpl in Hpts.
  exists row, rate. split; [done|]. split; [done|]. split; [done|].
  destruct (unemployment_rate_prev_month row) as [prev|].
  - destruct Hpts as (prev_date & Hdate & ->).
    apply elem_of_cons in Hc as [-> | Hc]; [by left|].
    apply list_elem_of_singleton in Hc as ->.
    right. by exists prev, prev_date.
  - subst pts. apply list_elem_of_singleton in Hc as ->. by left.
Qed.

(** X17. When [run_clean] returns, every publishable row of the input has a
    row in the result under its state and its own month, and, when it has
    a prior rate, one under its state and the month before. *)
Theorem clean_covers_every_publishable_month (rows : list ValidatedRow)
  (ts : string) (out : clean_output) (row : ValidatedRow) :
  run_clean rows ts = Ok out ->
  row ∈ rows -> is_publishable row = true ->
  (state_code row, month_canonical row +:+ "-01")
  ∈ key_of <$> final_rows out
  /\ (is_Some (unemployment_rate_prev_month row) ->
      exists prev_date,
        _prev_month_date (month_canonical row) = Ok prev_date
        /\ (state_code row, prev_date) ∈ key_of <$> final_rows out).
Proof.
  intros (d & n & Hloop & Hrows & _)%run_clean_Ok Hin Hpub. rewrite Hrows.
  pose proof (pivot_loop_wf _ _ ([], 0%Z) _ dict_wf_nil Hloop) as Hwf.
  simpl in Hwf.
  rewrite dict_wf_keys by done.
  destruct (clean_row_kept rows row Hin Hpub)
    as (kept & Hkept & Hs & Hm & _ & Hp).
  destruct (_pivot_row kept ts) as [pts|e] eqn:Hpts.
  2: { destruct (pivot_loop_raise_elem _ ts ([], 0%Z) _ _ Hkept Hpts).
       congruence. }
  assert (Hkey : forall key, key ∈ key_of <$> pts -> key ∈ d.*1).
  { intros key. apply (pivot_loop_key_in _ _ _ _ _ _ _ Hloop Hkept Hpts). }
  apply pivot_row_Ok in Hpts as (rate & Hrate & Hpts'). simpl in Hpts'.
  rewrite <- Hs, <- Hm. split.
  - apply Hkey.
    destruct (unemployment_rate_prev_month kept) as [prev|].
    + destruct Hpts' as (prev_date & _ & ->). simpl. by left.
    + subst pts. simpl. by left.
  - intros Hprev%Hp.
    destruct (unemployment_rate_prev_month kept) as [prev|];
      [|by destruct Hprev].
    destruct Hpts' as (prev_date & Hdate & ->).
    exists prev_date. split; [done|]. apply Hkey. simpl. right. by left.
Qed.

(** X18. [run_clean] returns, rather than raising, exactly when every
    publishable row of its input has a current rate and, if it has a prior
    rate, a month that [_prev_month] accepts. *)
Theorem clean_returns_exactly_when (rows : list ValidatedRow) (ts : string) :
  (exists out, run_clean rows ts = Ok out) <->
  forall row, row ∈ rows -> is_publishable row = true ->
    is_Some (unemployment_rate row)
    /\ (is_Some (unemployment_rate_prev_month row) ->
        is_Some (_prev_month (month_canonical row))).
Proof.
  split; [|apply run_clean_returns].
  intros (out & (d & n & Hloop & _)%run_clean_Ok) row Hin Hpub.
  destruct (clean_row_kept rows row Hin Hpub)
    as (kept & Hkept & _ & Hm & Hr & Hp).
  destruct (_pivot_row kept ts) as [pts|e] eqn:Hpts.
  2: { destruct (pivot_loop_raise_elem _ ts ([], 0%Z) _ _ Hkept Hpts).
       congruence. }
  apply pivot_row_Ok in Hpts as (rate & Hrate & Hpts). simpl in Hpts.
  split.
  - apply Hr. by rewrite Hrate.
  - intros Hprev%Hp. rewrite <- Hm.
    destruct (unemployment_rate_prev_month kept) as [prev|];
      [|by destruct Hprev].
    destruct Hpts as (prev_date & Hdate & _).
    rewrite prev_month_date_unfold in Hdate.
    by destruct (_prev_month (month_canonical kept)).
Qed.

Section validated_rows.
Context `{Builtins}.

(** X19. [run_clean] never raises on the rows [run_validation] returns. *)
Theorem clean_accepts_validated_rows (raw_records : list (gmap string cell))
(ts : string) :
exists out, run_clean (run_validation raw_records).1.1 ts = Ok out.
Proof.
apply run_clean_returns.
intros row (row0 & claims & seen & Hin & ->)%run_validation_origin Hpub.
destruct (passes_same_observation claims seen row0)
  as (_ & _ & <- & <- & <- & _).
rewrite check_imputed_publishable in Hpub.
apply check_rate_conflict_publishable in Hpub.
apply validate_records_row in Hin as (raw_dict & row_index & Hrow0).
split; [by eapply validate_row_publishable_rate|].
intros _.
apply validate_row_Some in Hrow0
  as (raw & _ & _ & Hmonth & _ & _ & _ & _ & Hverdict).
rewrite Hpub in Hverdict. symmetry in Hverdict.
apply andb_prop in Hverdict as [[_ Hdate]%andb_prop _].
unfold date_parses in Hdate. apply bool_decide_eq_true_1 in Hdate.
destruct Hdate as [canonical Hcanonical].
rewrite Hmonth, Hcanonical. simpl.
apply normalize_date_Some in Hcanonical
  as (? & ? & y1 & y2 & y3 & y4 & ? & m1 & m2 & _ & _ & Hd & _ & _ & ->).
by apply canonical_prev_month.
Qed.

End validated_rows.

(** ** Examples *)

(** Witness of X16. *)
Lemma clean_rows_come_from_publishable_rows_witness :
  exists out,
    run_clean [nov_ok; dec_blocked] "t" = Ok out
    /\ NoDup (key_of <$> final_rows out)
    /\ key_of <$> final_rows out
       = [("AL", "2025-11-01"); ("AL", "2025-10-01")].
Proof.
  destruct (run_clean [nov_ok; dec_blocked] "t") as [out|e] eqn:Hout;
    [|vm_compute in Hout; discriminate Hout].
  exists out. split; [reflexivity|].
  split;
    [exact (proj1 (clean_rows_come_from_publishable_rows _ _ _ Hout))|].
  vm_compute in Hout. injection Hout as <-. reflexivity.
Defined.

(** Witness of X17. *)
Lemma clean_covers_every_publishable_month_witness :
  exists out,
    run_clean [nov_ok; dec_blocked] "t" = Ok out
    /\ ("AL", "2025-11-01") ∈ key_of <$> final_rows out.
Proof.
  destruct (run_clean [nov_ok; dec_blocked] "t") as [out|e] eqn:Hout;
    [|vm_compute in Hout; discriminate Hout].
  exists out. split; [reflexivity|].
  exact (proj1 (clean_covers_every_publishable_month
                  [nov_ok; dec_blocked] "t" out nov_ok Hout
                  (list_elem_of_here _ _) eq_refl)).
Defined.

(** ** The reference table, by name *)

#[local] Opaque _BY_NAME.

Lemma STATES_names_found :
  Forall (fun s => get_state_by_name (name s) = Some s) STATES.
Proof. apply (bool_decide_eq_true_1 _). vm_compute. reflexivity. Qed.

#[local] Transparent _BY_NAME.

Lemma BY_NAME_lookup key ref :
  _BY_NAME !! key = Some ref -> ref ∈ STATES /\ key = lower (name ref).
Proof.
  unfold _BY_NAME.
  enough (Hgen : forall (l : list state_ref) (acc : gmap string state_ref),
    (forall r, acc !! key = Some r -> r ∈ STATES /\ key = lower (name r)) ->
    (forall s, s ∈ l -> s ∈ STATES) ->
    forall r, foldl (fun m s => <[lower (name s) := s]> m) acc l !! key
              = Some r ->
              r ∈ STATES /\ key = lower (name r)).
  { intros Hk. apply (Hgen STATES ∅); [by intros r|done|done]. }
  induction l as [|s l IH]; intros acc Hacc Hl r; simpl; [apply Hacc|].
  apply IH.
  - intros r'. destruct (decide (lower (name s) = key)) as [<-|Hne].
    + rewrite lookup_insert_eq. intros [= <-]. split; [|done].
      apply Hl. by left.
    + rewrite lookup_insert_ne by done. apply Hacc.
  - intros s' Hs'. apply Hl. by right.
Qed.

#[local] Opaque _BY_NAME.

Lemma lower_ascii_idempotent c : lower_ascii (lower_ascii c) = lower_ascii c.
Proof. destruct c as [[] [] [] [] [] [] [] []]; vm_compute; reflexivity. Qed.

Lemma lower_idempotent s : lower (lower s) = lower s.
Proof.
  induction s as [|c s IH]; [done|].
  simpl. by rewrite lower_ascii_idempotent, IH.
Qed.

(** X20. [get_state_by_name] finds every state of [STATES] under its own
    name; what it returns is a state of [STATES] whose name is the given
    name up to case; and a state found by its code is found by its
    name. *)
Theorem state_lookup_by_name :
  (forall s, s ∈ STATES -> get_state_by_name (name s) = Some s)
  /\ (forall state_name ref,
        get_state_by_name state_name = Some ref ->
        ref ∈ STATES /\ lower (name ref) = lower state_name)
  /\ (forall state_name,
        get_state_by_name (lower state_name) = get_state_by_name state_name)
  /\ (forall code ref,
        get_state_by_code code = Some ref ->
        get_state_by_name (name ref) = Some ref).
Proof.
  split; [apply (proj1 (Forall_forall _ _) STATES_names_found)|].
  split.
  { intros state_name ref [Hin Hkey]%BY_NAME_lookup. by split. }
  split.
  { intros state_name. unfold get_state_by_name. by rewrite lower_idempotent. }
  intros code ref [Hin _]%get_state_by_code_Some.
  by apply (proj1 (Forall_forall _ _) STATES_names_found).
Qed.

(** ** Counting *)

Lemma occurrences_cons key k keys :
  occurrences key (k :: keys)
  = ((if String.eqb key k then 1 else 0) + occurrences key keys)%nat.
Proof. unfold occurrences. simpl. by destruct (String.eqb key k). Qed.

Lemma tally_fold keys acc key :
  foldl tally acc keys !! key
  = match occurrences key keys with
    | O => acc !! key
    | S n => Some (S n + default 0 (acc !! key))%nat
    end.
Proof.
  revert acc. induction keys as [|k keys IH]; intros acc; [done|].
  cbn [foldl]. rewrite IH, occurrences_cons. unfold tally.
  destruct (String.eqb_spec key k) as [->|Hne].
  - rewrite lookup_insert_eq. simpl.
    destruct (occurrences k keys); f_equal; lia.
  - rewrite lookup_insert_ne by done. done.
Qed.

Lemma Counter_lookup keys key :
  Counter keys !! key
  = match occurrences key keys with
    | O => None
    | S n => Some (S n)
    end.
Proof.
  unfold Counter. rewrite tally_fold, lookup_empty. simpl.
  destruct (occurrences key keys); [done|]. f_equal. lia.
Qed.

Lemma qa_summary_Counter validated :
  _qa_summary validated
  = Counter (flag_category <$> concat (qa_flags <$> validated)).
Proof.
  unfold _qa_summary, Counter. generalize (∅ : gmap string nat).
  induction validated as [|row validated IH]; intros acc; [done|].
  cbn [foldl fmap list_fmap concat]. rewrite IH.
  rewrite fmap_app, foldl_app. f_equal.
  generalize acc. clear. induction (qa_flags row) as [|flag flags IH];
    intros acc; [done|]. cbn [foldl fmap list_fmap]. apply IH.
Qed.

(** X21. [_qa_summary] maps a category to the number of flags of that
    category over all rows; a category has an entry exactly when some row
    carries a flag of it, and no entry is 0. *)
Theorem qa_summary_counts_flags (validated : list ValidatedRow)
  (cat : string) :
  let flags := concat (qa_flags <$> validated) in
  default 0%nat (_qa_summary validated !! cat)
  = occurrences cat (flag_category <$> flags)
  /\ (is_Some (_qa_summary validated !! cat)
      <-> exists row, row ∈ validated
                      /\ has_category cat (qa_flags row) = true)
  /\ _qa_summary validated !! cat <> Some 0%nat.
Proof.
  intros flags. rewrite qa_summary_Counter, Counter_lookup. fold flags.
  split; [by destruct (occurrences _ _)|]. split; [|by destruct (occurrences _ _)].
  assert (Hocc : occurrences cat (flag_category <$> flags) <> 0%nat
                 <-> exists flag, flag ∈ flags /\ flag_category flag = cat).
  { unfold occurrences. rewrite length_zero_iff_nil. split.
    - destruct (List.filter _ _) as [|k l] eqn:Hfilter; [done|]. intros _.
      assert (Hk : In k (List.filter (String.eqb cat) (flag_category <$> flags)))
        by (rewrite Hfilter; by left).
      apply filter_In in Hk as [Hk Heq%String.eqb_eq]. subst k.
      apply list_elem_of_In, list_elem_of_fmap in Hk as (flag & Hcat & Hflag).
      by exists flag.
    - intros (flag & Hflag & Hcat) Hnil.
      assert (Hk : In cat (List.filter (String.eqb cat) (flag_category <$> flags))).
      { apply filter_In. split; [|apply String.eqb_refl].
        apply list_elem_of_In, list_elem_of_fmap. by exists flag. }
      by rewrite Hnil in Hk. }
  split.
  - intros Hsome.
    destruct Hocc as [Hocc _].
    destruct Hocc as (flag & Hflag & Hcat).
    { destruct (occurrences _ _); [by destruct Hsome|done]. }
    apply list_elem_of_In, in_concat in Hflag as (l & Hl & Hflag).
    apply list_elem_of_In, list_elem_of_fmap in Hl as (row & -> & Hrow).
    apply list_elem_of_In in Hflag.
    exists row. split; [done|]. by eapply has_category_elem_of.
  - intros (row & Hrow & Hcat).
    apply existsb_exists in Hcat as (flag & Hflag & Heq%String.eqb_eq).
    destruct Hocc as [_ Hocc].
    destruct (occurrences _ _) eqn:Hn; [|by eexists].
    exfalso. apply Hocc; [|done]. exists flag. split; [|done].
    apply list_elem_of_In, in_concat. exists (qa_flags row).
    split; [|done]. by apply list_elem_of_In, list_elem_of_fmap_2.
Qed.

Lemma occurrences_fmap {A} (f : A -> string) key (l : list A) :
  occurrences key (f <$> l)
  = length (List.filter (fun x => String.eqb key (f x)) l).
Proof.
  unfold occurrences. induction l as [|x l IH]; [done|].
  cbn [fmap list_fmap List.filter].
  change (list_fmap A string f l) with (f <$> l).
  destruct (String.eqb key (f x)); simpl; by rewrite IH.
Qed.

(** X22. [REGION_STATE_COUNTS] and [DIVISION_STATE_COUNTS] give for a region
    and for a division the number of states of [STATES] in it (0 standing
    for no entry); each adds up to the number of states, which is the
    [TOTAL_STATES] of the publish gate. *)
Theorem state_counts_cover_the_table :
  (forall region,
     default 0%nat (REGION_STATE_COUNTS !! region)
     = length (List.filter
                 (fun s => String.eqb region (census_region s)) STATES))
  /\ (forall division,
        default 0%nat (DIVISION_STATE_COUNTS !! division)
        = length (List.filter
                    (fun s => String.eqb division (census_division s))
                    STATES))
  /\ map_fold (fun _ n total => (n + total)%nat) 0%nat REGION_STATE_COUNTS
     = length STATES
  /\ map_fold (fun _ n total => (n + total)%nat) 0%nat DIVISION_STATE_COUNTS
     = length STATES
  /\ Z.of_nat (length STATES) = TOTAL_STATES.
Proof.
  split.
  { intros region. unfold REGION_STATE_COUNTS.
    rewrite Counter_lookup, occurrences_fmap.
    by destruct (length _). }
  split.
  { intros division. unfold DIVISION_STATE_COUNTS.
    rewrite Counter_lookup, occurrences_fmap.
    by destruct (length _). }
  split; [vm_compute; reflexivity|]. split; [vm_compute; reflexivity|].
  reflexivity.
Qed.

(** ** Dates in the output step *)

Lemma split_on_app sep s t :
  split_on sep (s +:+ String sep t) = split_on sep s ++ split_on sep t.
Proof.
  induction s as [|c s IH].
  { rewrite app_empty_l. simpl. by rewrite Ascii.eqb_refl. }
  rewrite app_String. cbn [split_on]. rewrite IH.
  destruct (Ascii.eqb c sep); [done|].
  destruct (split_on sep s) as [|h l] eqn:Hsplit; [|done].
  by apply split_on_nonempty in Hsplit.
Qed.

(** X23. The helper of output.py applied to a date [m + "-01"] returns what
    the helper of clean.py returns for the month [m], and raises
    [ValueError] when that one does: the output step looks for the prior
    month under the key the pivot wrote it under. *)
Theorem output_prev_month_date_agrees (year_month : string) :
  output._prev_month_date (year_month +:+ "-01")
  = match _prev_month_date year_month with
    | Ok prev_date => inr prev_date
    | Raise _ => inl output.ValueError
    end.
Proof.
  unfold output._prev_month_date, _prev_month_date.
  change (year_month +:+ "-01") with (year_month +:+ String "-" "01").
  rewrite split_on_app.
  destruct (split_on "-" year_month) as [|y [|m [|? ?]]]; try done.
  - cbn [app]. change (split_on "-" "01") with ["01"]. simpl.
    change (py_int "01") with (Some 1%Z).
    destruct (py_int y) as [year|]; [|done].
    destruct (py_int m) as [month|]; [|done].
    by destruct (month - 1 =? 0)%Z.
  - by destruct l.
Qed.

Lemma MONTH_ABBREVS_lookup month :
  is_Some (output._MONTH_ABBREVS !! month) <-> (1 <= month <= 12)%Z.
Proof.
  split.
  - intros Hsome.
    destruct (decide (1 <= month <= 12)%Z) as [|Hout]; [done|].
    unfold output._MONTH_ABBREVS in Hsome.
    cbn [list_to_map foldr fst snd] in Hsome.
    rewrite !lookup_insert_ne in Hsome by lia.
    rewrite lookup_empty in Hsome. by destruct Hsome.
  - intros Hm.
    assert (Hk : exists k : nat, month = Z.of_nat (S k) /\ (k < 12)%nat).
    { exists (Z.to_nat (month - 1)). lia. }
    destruct Hk as (k & -> & Hk).
    do 12 (destruct k as [|k]; [vm_compute; by eexists|]). lia.
Qed.

(** X24. For a year and a month from 0, [_format_ap_date] of the first day of
    the month returns the month's abbreviation, [" 1, "] and the year when
    the month is from 1 to 12, and raises [KeyError] otherwise, as for the
    month 13 that the validator lets through. *)
Theorem format_ap_date_of_a_month (year month : Z) :
  (0 <= year)%Z -> (0 <= month)%Z ->
  output._format_ap_date (month_text year month +:+ "-01")
  = match output._MONTH_ABBREVS !! month with
    | Some abbrev => inr (abbrev +:+ " 1, " +:+ str_of_int year)
    | None => inl output.KeyError
    end
  /\ (is_Some (output._MONTH_ABBREVS !! month) <-> (1 <= month <= 12)%Z).
Proof.
  intros Hy Hm. split; [|apply MONTH_ABBREVS_lookup].
  unfold output._format_ap_date.
  change (month_text year month +:+ "-01")
    with (month_text year month +:+ String "-" "01").
  rewrite split_on_app, month_text_split by done.
  change (split_on "-" "01") with ["01"]. cbn [app].
  rewrite py_int_str_of_int, py_int_fmt_02d.
  change (py_int "01") with (Some 1%Z). cbv iota beta.
  by destruct (output._MONTH_ABBREVS !! month).
Qed.

(** Witness of X24. *)
Lemma format_ap_date_of_a_month_witness :
  output._format_ap_date "2025-12-01" = inr "Dec. 1, 2025"
  /\ output._format_ap_date "2025-13-01" = inl output.KeyError.
Proof.
  split.
  - exact (proj1 (format_ap_date_of_a_month 2025 12 ltac:(lia) ltac:(lia))).
  - exact (proj1 (format_ap_date_of_a_month 2025 13 ltac:(lia) ltac:(lia))).
Defined.

(** ** Ordinals *)

Lemma app_inj_suffix (a b s t : string) :
  String.length s = String.length t -> a +:+ s = b +:+ t -> a = b /\ s = t.
Proof.
  intros Hlen. revert b. induction a as [|x a IH]; intros [|y b] Heq.
  - by rewrite !app_empty_l in Heq.
  - apply (f_equal String.length) in Heq.
    rewrite app_empty_l, app_String in Heq. cbn [String.length] in Heq.
    rewrite string_app_length in Heq. lia.
  - apply (f_equal String.length) in Heq.
    rewrite app_empty_l, app_String in Heq. cbn [String.length] in Heq.
    rewrite string_app_length in Heq. lia.
  - rewrite !app_String in Heq. injection Heq as -> Heq.
    destruct (IH _ Heq) as [-> ->]. done.
Qed.

Lemma ordinal_suffix n :
  exists suffix,
    output.ordinal n = str_of_int n +:+ suffix
    /\ (suffix = "st" \/ suffix = "nd" \/ suffix = "rd" \/ suffix = "th")
    /\ ((10 <= n mod 100 <= 19)%Z -> suffix = "th").
Proof.
  unfold output.ordinal.
  destruct ((11 <=? n mod 100) && (n mod 100 <=? 13))%Z eqn:Hteen.
  { exists "th". split; [done|]. split; [|done]. auto. }
  assert (Hteen' : ~ (11 <= n mod 100 <= 13)%Z).
  { intros [H1 H2]. apply Z.leb_le in H1, H2. by rewrite H1, H2 in Hteen. }
  destruct (n mod 10 =? 1)%Z eqn:H1.
  { exists "st". apply Z.eqb_eq in H1. split; [done|]. split; [auto|].
    intros Hrange. exfalso. Z.div_mod_to_equations. lia. }
  destruct (n mod 10 =? 2)%Z eqn:H2.
  { exists "nd". apply Z.eqb_eq in H2. split; [done|]. split; [auto|].
    intros Hrange. exfalso. Z.div_mod_to_equations. lia. }
  destruct (n mod 10 =? 3)%Z eqn:H3.
  { exists "rd". apply Z.eqb_eq in H3. split; [done|]. split; [auto|].
    intros Hrange. exfalso. Z.div_mod_to_equations. lia. }
  exists "th". split; [done|]. split; [|done]. auto.
Qed.

(** X25. [ordinal] returns the decimal text of its argument followed by one
    of [st], [nd], [rd] and [th], and [th] whenever the last two digits
    are from 10 to 19; different numbers have different ordinals. *)
Theorem ordinal_names_its_number :
  (forall n, exists suffix,
      output.ordinal n = str_of_int n +:+ suffix
      /\ (suffix = "st" \/ suffix = "nd" \/ suffix = "rd" \/ suffix = "th")
      /\ ((10 <= n mod 100 <= 19)%Z -> suffix = "th"))
  /\ (forall n m, output.ordinal n = output.ordinal m -> n = m).
Proof.
  split; [apply ordinal_suffix|].
  intros n m Heq.
  destruct (ordinal_suffix n) as (s & Hn & Hs & _).
  destruct (ordinal_suffix m) as (t & Hm & Ht & _).
  rewrite Hn, Hm in Heq.
  apply app_inj_suffix in Heq as [Heq _].
  - apply (f_equal py_int) in Heq. rewrite !py_int_str_of_int in Heq.
    by injection Heq.
  - destruct Hs as [-> | [-> | [-> | ->]]], Ht as [-> | [-> | [-> | ->]]];
      reflexivity.
Qed.

(** ** The latest version of each row *)

Lemma str_lt_irrefl a : str_lt a a = false.
Proof.
  destruct (str_lt a a) eqn:Hlt; [|done].
  by rewrite (str_lt_asym _ _ Hlt) in Hlt.
Qed.

Lemma keep_latest_wf d row : dict_wf d -> dict_wf (output.keep_latest d row).
Proof.
  intros Hwf. unfold output.keep_latest.
  change (CleanRow.state_code row, CleanRow.date row) with (key_of row).
  destruct (dict_get (key_of row) d) as [old|]; [|by apply dict_set_wf].
  destruct (str_lt _ _); [by apply dict_set_wf|done].
Qed.

Lemma keep_latest_elem d row kv :
  kv ∈ output.keep_latest d row -> kv ∈ d \/ kv = (key_of row, row).
Proof.
  unfold output.keep_latest.
  change (CleanRow.state_code row, CleanRow.date row) with (key_of row).
  destruct (dict_get (key_of row) d) as [old|].
  - destruct (str_lt _ _); [|by left].
    intros [->|?]%elem_of_dict_set; [by right|by left].
  - intros [->|?]%elem_of_dict_set; [by right|by left].
Qed.

Lemma keep_latest_row d row :
  exists kept,
    dict_get (key_of row) (output.keep_latest d row) = Some kept
    /\ str_lt (CleanRow.ingest_run kept) (CleanRow.ingest_run row) = false.
Proof.
  unfold output.keep_latest.
  change (CleanRow.state_code row, CleanRow.date row) with (key_of row).
  destruct (dict_get (key_of row) d) as [old|] eqn:Hold.
  - destruct (str_lt _ _) eqn:Hlt.
    + exists row. rewrite dict_get_set, bool_decide_eq_true_2 by done.
      split; [done|apply str_lt_irrefl].
    + by exists old.
  - exists row. rewrite dict_get_set, bool_decide_eq_true_2 by done.
    split; [done|apply str_lt_irrefl].
Qed.

Lemma keep_latest_older d row key kept :
  dict_get key d = Some kept ->
  exists kept',
    dict_get key (output.keep_latest d row) = Some kept'
    /\ str_lt (CleanRow.ingest_run kept') (CleanRow.ingest_run kept) = false.
Proof.
  intros Hkept. unfold output.keep_latest.
  change (CleanRow.state_code row, CleanRow.date row) with (key_of row).
  destruct (dict_get (key_of row) d) as [old|] eqn:Hold.
  - destruct (str_lt _ _) eqn:Hlt.
    + rewrite dict_get_set. case_bool_decide as Hkey.
      * subst key. exists row. split; [done|].
        assert (old = kept) as -> by congruence. by apply str_lt_asym.
      * exists kept. split; [done|apply str_lt_irrefl].
    + exists kept. split; [done|apply str_lt_irrefl].
  - rewrite dict_get_set. case_bool_decide as Hkey; [congruence|].
    exists kept. split; [done|apply str_lt_irrefl].
Qed.

Lemma str_ge_trans a b c :
  str_lt a b = false -> str_lt b c = false -> str_lt a c = false.
Proof.
  intros Hab Hbc.
  exact (key_le_trans (fun x : string => x) c b a Hbc Hab).
Qed.

Lemma keep_latest_fold rows d :
  dict_wf d ->
  let d' := foldl output.keep_latest d rows in
  dict_wf d'
  /\ (forall kv, kv ∈ d' -> kv ∈ d \/ kv.2 ∈ rows)
  /\ (forall key kept,
        dict_get key d = Some kept ->
        exists kept',
          dict_get key d' = Some kept'
          /\ str_lt (CleanRow.ingest_run kept') (CleanRow.ingest_run kept)
             = false)
  /\ (forall c, c ∈ rows ->
        exists kept,
          dict_get (key_of c) d' = Some kept
          /\ str_lt (CleanRow.ingest_run kept) (CleanRow.ingest_run c)
             = false).
Proof.
  revert d. induction rows as [|row rows IH]; intros d Hwf.
  { simpl. split; [done|]. split; [by left|]. split.
    - intros key kept Hkept. exists kept. split; [done|].
      apply str_lt_irrefl.
    - by intros c ?%elem_of_nil. }
  cbn [foldl].
  destruct (IH _ (keep_latest_wf d row Hwf)) as (Hwf' & Helem & Hold & Hrows).
  split; [done|]. split; [|split].
  - intros kv [[Hkv | ->]%keep_latest_elem | Hkv]%Helem.
    + by left.
    + right. by left.
    + right. by right.
  - intros key kept Hkept.
    destruct (keep_latest_older d row key kept Hkept) as (k1 & Hk1 & Hle1).
    destruct (Hold key k1 Hk1) as (k2 & Hk2 & Hle2).
    exists k2. split; [done|]. by eapply str_ge_trans.
  - intros c [-> | Hc]%elem_of_cons; [|by apply Hrows].
    destruct (keep_latest_row d row) as (k1 & Hk1 & Hle1).
    destruct (Hold _ k1 Hk1) as (k2 & Hk2 & Hle2).
    exists k2. split; [done|]. by eapply str_ge_trans.
Qed.

Lemma dict_get_None key d : key ∉ d.*1 -> dict_get key d = None.
Proof.
  intros Hkey. destruct (dict_get key d) as [c|] eqn:Hget; [|done].
  apply dict_get_elem_of in Hget. exfalso. apply Hkey.
  apply list_elem_of_fmap. by exists (key, c).
Qed.

Lemma dict_set_new key v d :
  key ∉ d.*1 -> dict_set key v d = d ++ [(key, v)].
Proof.
  induction d as [|[k old] d IH]; intros Hkey; [done|]. simpl.
  rewrite bool_decide_eq_false_2.
  - f_equal. apply IH. intros Hin. apply Hkey. by right.
  - intros ->. apply Hkey. by left.
Qed.

Lemma keep_latest_fresh rows d :
  NoDup (d.*1 ++ (key_of <$> rows)) ->
  foldl output.keep_latest d rows = d ++ ((fun c => (key_of c, c)) <$> rows).
Proof.
  revert d. induction rows as [|row rows IH]; intros d Hnodup.
  { simpl. by rewrite app_nil_r. }
  cbn [foldl fmap list_fmap].
  assert (Hfresh : key_of row ∉ d.*1).
  { apply NoDup_app in Hnodup as (_ & Hdisj & _).
    intros Hin. apply (Hdisj _ Hin). by left. }
  assert (Hstep : output.keep_latest d row = d ++ [(key_of row, row)]).
  { unfold output.keep_latest.
    change (CleanRow.state_code row, CleanRow.date row) with (key_of row).
    by rewrite dict_get_None, dict_set_new. }
  rewrite Hstep, IH.
  - by rewrite <- app_assoc.
  - rewrite fmap_app. simpl. rewrite <- app_assoc. exact Hnodup.
Qed.

Lemma read_latest_fresh rows :
  NoDup (key_of <$> rows) -> output._read_latest_clean_data rows = rows.
Proof.
  intros Hnodup. unfold output._read_latest_clean_data.
  rewrite keep_latest_fresh by done. simpl.
  rewrite <- list_fmap_compose. apply list_fmap_id.
Qed.

(** X26. [_read_latest_clean_data] returns rows of the file with pairwise
    different [(state_code, date)]; for every row of the file it returns
    one of the same key whose [ingest_run] is not smaller; and a file
    without two rows of one key is returned as it is. *)
Theorem read_latest_keeps_the_latest_version (rows : list CleanRow.t) :
  let latest := output._read_latest_clean_data rows in
  NoDup (key_of <$> latest)
  /\ (forall c, c ∈ latest -> c ∈ rows)
  /\ (forall c, c ∈ rows ->
        exists kept,
          kept ∈ latest /\ key_of kept = key_of c
          /\ str_lt (CleanRow.ingest_run kept) (CleanRow.ingest_run c)
             = false)
  /\ (NoDup (key_of <$> rows) -> latest = rows).
Proof.
  intros latest. unfold latest, output._read_latest_clean_data.
  destruct (keep_latest_fold rows [] dict_wf_nil)
    as (Hwf & Helem & _ & Hrows).
  split; [|split; [|split]].
  - rewrite dict_wf_keys by done. apply Hwf.
  - intros c ([k c'] & -> & Hin)%list_elem_of_fmap.
    by destruct (Helem _ Hin) as [?%elem_of_nil|?].
  - intros c Hc. destruct (Hrows c Hc) as (kept & Hget & Hle).
    exists kept. apply dict_get_elem_of in Hget as Hin.
    split; [|split; [|done]].
    + apply list_elem_of_fmap. by exists (key_of c, kept).
    + destruct Hwf as [_ Hkeys].
      by apply (proj1 (Forall_forall _ _) Hkeys) in Hin.
  - apply read_latest_fresh.
Qed.

(** X27. Reading back the rows of one [run_clean] returns them unchanged. *)
Theorem read_latest_returns_a_clean_run (rows : list ValidatedRow)
  (ts : string) (out : clean_output) :
  run_clean rows ts = Ok out ->
  output._read_latest_clean_data (final_rows out) = final_rows out.
Proof.
  intros (d & n & Hloop & Hrows & _)%run_clean_Ok. rewrite Hrows.
  pose proof (pivot_loop_wf _ _ ([], 0%Z) _ dict_wf_nil Hloop) as Hwf.
  simpl in Hwf. apply read_latest_fresh.
  rewrite dict_wf_keys by done. apply Hwf.
Qed.

(** Witness of X27. *)
Lemma read_latest_returns_a_clean_run_witness :
  exists out,
    run_clean [nov_ok; dec_blocked] "t" = Ok out
    /\ output._read_latest_clean_data (final_rows out) = final_rows out.
Proof.
  destruct (run_clean [nov_ok; dec_blocked] "t") as [out|e] eqn:Hout;
    [|vm_compute in Hout; discriminate Hout].
  exists out. split; [reflexivity|].
  exact (read_latest_returns_a_clean_run _ _ _ Hout).
Defined.

(** ** The order of the floats that are numbers *)

Lemma SFltb_code f1 f2 :
  f1 <> S754_nan -> f2 <> S754_nan ->
  SFltb f1 f2 = true <-> code_lt (float_code f1) (float_code f2).
Proof.
  intros H1 H2. unfold SFltb, SFcompare, code_lt.
  destruct f1 as [s1|s1| |s1 m1 e1], f2 as [s2|s2| |s2 m2 e2]; try done;
    try destruct s1; try destruct s2; simpl; try (split; [done|lia]);
    try (split; [lia|done]);
    change (Pos.compare_cont Eq m1 m2) with (Pos.compare m1 m2);
    destruct (Z.compare_spec e1 e2); destruct (Pos.compare_spec m1 m2);
    simpl; split; intros; try done; try lia.
Qed.

Lemma SFeqb_code f1 f2 :
  f1 <> S754_nan -> f2 <> S754_nan ->
  SFeqb f1 f2 = true <-> float_code f1 = float_code f2.
Proof.
  intros H1 H2. unfold SFeqb, SFcompare.
  destruct f1 as [s1|s1| |s1 m1 e1], f2 as [s2|s2| |s2 m2 e2]; try done;
    try destruct s1; try destruct s2; simpl; try (split; done);
    change (Pos.compare_cont Eq m1 m2) with (Pos.compare m1 m2);
    destruct (Z.compare_spec e1 e2); destruct (Pos.compare_spec m1 m2);
    simpl; split; intros Heq; try done; try (injection Heq; lia);
    try (f_equal; [f_equal|]; lia).
Qed.

Lemma not_nan_spec x : PrimFloat.is_nan x = false -> Prim2SF x <> S754_nan.
Proof.
  unfold PrimFloat.is_nan. rewrite FloatAxioms.eqb_spec. intros Hnan Heq.
  rewrite Heq in Hnan. discriminate Hnan.
Qed.

Lemma ltb_true x y :
  PrimFloat.is_nan x = false -> PrimFloat.is_nan y = false ->
  PrimFloat.ltb x y = true
  <-> code_lt (float_code (Prim2SF x)) (float_code (Prim2SF y)).
Proof.
  intros Hx%not_nan_spec Hy%not_nan_spec. rewrite FloatAxioms.ltb_spec.
  by apply SFltb_code.
Qed.

Lemma ltb_false x y :
  PrimFloat.is_nan x = false -> PrimFloat.is_nan y = false ->
  PrimFloat.ltb x y = false
  <-> ~ code_lt (float_code (Prim2SF x)) (float_code (Prim2SF y)).
Proof.
  intros Hx Hy. rewrite <- (ltb_true x y Hx Hy).
  by destruct (PrimFloat.ltb x y).
Qed.

Lemma eqb_true x y :
  PrimFloat.is_nan x = false -> PrimFloat.is_nan y = false ->
  PrimFloat.eqb x y = true
  <-> code_eq (float_code (Prim2SF x)) (float_code (Prim2SF y)).
Proof.
  intros Hx%not_nan_spec Hy%not_nan_spec. rewrite FloatAxioms.eqb_spec.
  rewrite SFeqb_code by done. unfold code_eq.
  destruct (float_code (Prim2SF x)) as [[a1 a2] a3],
    (float_code (Prim2SF y)) as [[b1 b2] b3]. simpl.
  split; [by intros [= -> -> ->]|by intros (-> & -> & ->)].
Qed.

Lemma eqb_false x y :
  PrimFloat.is_nan x = false -> PrimFloat.is_nan y = false ->
  PrimFloat.eqb x y = false
  <-> ~ code_eq (float_code (Prim2SF x)) (float_code (Prim2SF y)).
Proof.
  intros Hx Hy. rewrite <- (eqb_true x y Hx Hy).
  by destruct (PrimFloat.eqb x y).
Qed.

Ltac float_codes :=
  unfold output.key_lt in *;
  repeat match goal with
         | H : PrimFloat.ltb _ _ = true |- _ =>
             apply ltb_true in H; [|assumption|assumption]
         | H : PrimFloat.ltb _ _ = false |- _ =>
             apply ltb_false in H; [|assumption|assumption]
         | H : PrimFloat.eqb _ _ = true |- _ =>
             apply eqb_true in H; [|assumption|assumption]
         | H : PrimFloat.eqb _ _ = false |- _ =>
             apply eqb_false in H; [|assumption|assumption]
         end;
  try match goal with
      | |- PrimFloat.ltb _ _ = true => apply ltb_true; [assumption..|]
      | |- PrimFloat.ltb _ _ = false => apply ltb_false; [assumption..|]
      | |- PrimFloat.eqb _ _ = true => apply eqb_true; [assumption..|]
      | |- PrimFloat.eqb _ _ = false => apply eqb_false; [assumption..|]
      end;
  unfold code_lt, code_eq in *;
  repeat match goal with
         | H : context [float_code _] |- _ => revert H
         end;
  repeat match goal with
         | |- context [float_code ?f] => destruct (float_code f) as [[? ?] ?]
         end;
  simpl; intros; lia.

Section key_order.
Variable reverse : bool.
Variables a b c : float.
Hypothesis Ha : PrimFloat.is_nan a = false.
Hypothesis Hb : PrimFloat.is_nan b = false.
Hypothesis Hc : PrimFloat.is_nan c = false.

Lemma key_lt_asym :
output.key_lt reverse a b = true -> output.key_lt reverse b a = false.
Proof. destruct reverse; intros; float_codes. Qed.

Lemma key_lt_trans :
output.key_lt reverse a b = true -> output.key_lt reverse b c = true ->
output.key_lt reverse a c = true.
Proof. destruct reverse; intros; float_codes. Qed.

Lemma key_ge_trans :
output.key_lt reverse a b = false -> output.key_lt reverse b c = false ->
output.key_lt reverse a c = false.
Proof. destruct reverse; intros; float_codes. Qed.

Lemma key_lt_ge_trans :
output.key_lt reverse a b = true -> output.key_lt reverse c b = false ->
output.key_lt reverse a c = true.
Proof. destruct reverse; intros; float_codes. Qed.

Lemma key_total :
output.key_lt reverse a b = false -> output.key_lt reverse b a = false ->
PrimFloat.eqb a b = true.
Proof. destruct reverse; intros; float_codes. Qed.

Lemma key_eq_not_lt :
PrimFloat.eqb a b = true -> output.key_lt reverse a b = false.
Proof. destruct reverse; intros; float_codes. Qed.

Lemma key_eq_not_gt :
PrimFloat.eqb a b = true -> output.key_lt reverse b a = false.
Proof. destruct reverse; intros; float_codes. Qed.

Lemma key_eq_lt_l :
PrimFloat.eqb a b = true ->
output.key_lt reverse c a = output.key_lt reverse c b.
Proof.
intros Heq.
destruct (output.key_lt reverse c a) eqn:H1,
  (output.key_lt reverse c b) eqn:H2; try done; exfalso;
  destruct reverse; float_codes.
Qed.

Lemma float_eqb_refl : PrimFloat.eqb a a = true.
Proof. float_codes. Qed.

End key_order.

Lemma float_eqb_sym a b :
  PrimFloat.is_nan a = false -> PrimFloat.is_nan b = false ->
  PrimFloat.eqb a b = true -> PrimFloat.eqb b a = true.
Proof. intros; float_codes. Qed.

Lemma key_eq_lt_r reverse a b c :
  PrimFloat.is_nan a = false -> PrimFloat.is_nan b = false ->
  PrimFloat.is_nan c = false ->
  PrimFloat.eqb a b = true ->
  output.key_lt reverse a c = output.key_lt reverse b c.
Proof.
  intros Ha Hb Hc Heq.
  destruct (output.key_lt reverse a c) eqn:H1,
    (output.key_lt reverse b c) eqn:H2; try done; exfalso;
    destruct reverse; float_codes.
Qed.

Lemma nan_eqb_false v x : PrimFloat.is_nan v = true -> PrimFloat.eqb v x = false.
Proof.
  unfold PrimFloat.is_nan. rewrite !FloatAxioms.eqb_spec.
  intros Hnan%negb_true_iff%SFeqb_irrefl_nan. by rewrite Hnan.
Qed.

(** ** The sort by value *)

Lemma insert_by_value_Permutation reverse x l :
  output.insert_by_value reverse x l ≡ₚ x :: l.
Proof.
  induction l as [|y l IH]; simpl; [done|].
  destruct (output.key_lt _ _ _); [|done].
  rewrite IH. apply Permutation_swap.
Qed.

Lemma sorted_by_value_Permutation items reverse :
  output.sorted_by_value items reverse ≡ₚ items.
Proof.
  unfold output.sorted_by_value. induction items as [|x l IH]; simpl; [done|].
  by rewrite insert_by_value_Permutation, IH.
Qed.

Lemma insert_by_value_sorted reverse x l :
  is_number x -> Forall is_number l ->
  StronglySorted
    (fun a b => output.key_lt reverse (snd b) (snd a) = false) l ->
  StronglySorted
    (fun a b => output.key_lt reverse (snd b) (snd a) = false)
    (output.insert_by_value reverse x l).
Proof.
  intros Hx Hl Hsorted. induction Hsorted as [|y l Hsorted IH Hy]; simpl.
  { repeat constructor. }
  apply Forall_cons in Hl as [Hynum Hl].
  destruct (output.key_lt reverse y.2 x.2) eqn:Hyx.
  - constructor; [by apply IH|].
    rewrite insert_by_value_Permutation. constructor; [|done].
    by apply key_lt_asym.
  - constructor; [by constructor|]. constructor; [done|].
    apply Forall_forall. intros z Hz.
    pose proof (proj1 (Forall_forall _ _) Hy z Hz) as Hzy. simpl in Hzy.
    pose proof (proj1 (Forall_forall _ _) Hl z Hz) as Hznum.
    by apply (key_ge_trans reverse z.2 y.2 x.2).
Qed.

Lemma sorted_by_value_sorted items reverse :
  Forall is_number items ->
  StronglySorted
    (fun a b => output.key_lt reverse (snd b) (snd a) = false)
    (output.sorted_by_value items reverse).
Proof.
  unfold output.sorted_by_value. induction 1 as [|x l Hx Hl IH]; simpl.
  { constructor. }
  apply insert_by_value_sorted; [done| |done].
  fold (output.sorted_by_value l reverse).
  by rewrite sorted_by_value_Permutation.
Qed.

(** ** The runs of equal values *)

Lemma run_length_spec v rest :
  let r := output.run_length v rest in
  (r <= length rest)%nat
  /\ (forall p item, (p < r)%nat -> rest !! p = Some item ->
                     PrimFloat.eqb (snd item) v = true)
  /\ (forall item, rest !! r = Some item ->
                   PrimFloat.eqb (snd item) v = false).
Proof.
  induction rest as [|x rest IH]; simpl.
  { split; [done|]. split; [intros; lia|done]. }
  destruct (PrimFloat.eqb x.2 v) eqn:Hx; simpl.
  - destruct IH as (Hlen & Hrun & Hstop). split; [lia|]. split; [|done].
    intros [|p] item Hp; simpl; [by intros [= <-]|].
    apply Hrun. lia.
  - split; [lia|]. split; [intros; lia|]. by intros item [= <-].
Qed.

Lemma run_length_stop v rest d item :
  rest !! d = Some item -> PrimFloat.eqb (snd item) v = false ->
  (output.run_length v rest <= d)%nat.
Proof.
  intros Hd Hne.
  destruct (run_length_spec v rest) as (_ & Hrun & _).
  destruct (decide (output.run_length v rest <= d)%nat) as [|Hgt]; [done|].
  rewrite (Hrun d item) in Hne; [done|lia|done].
Qed.

Lemma foldl_assign_rank i l ranks key :
  foldl (output.assign_rank i) ranks l !! key
  = if decide (key ∈ l.*1) then Some (Z.of_nat i + 1)%Z else ranks !! key.
Proof.
  revert ranks. induction l as [|x l IH]; intros ranks; cbn [foldl].
  { rewrite decide_False; [done|]. rewrite fmap_nil. apply not_elem_of_nil. }
  rewrite IH, fmap_cons. unfold output.assign_rank.
  destruct (decide (key ∈ l.*1)) as [Hin|Hnot].
  - rewrite decide_True; [done|by right].
  - destruct (decide (key = x.1)) as [->|Hne].
    + rewrite decide_True by (by left). by rewrite lookup_insert_eq.
    + rewrite decide_False.
      * by rewrite lookup_insert_ne.
      * intros [?|?]%elem_of_cons; done.
Qed.

Lemma filter_length_all {A} (f : A -> bool) l :
  Forall (fun x => f x = true) l -> length (List.filter f l) = length l.
Proof.
  induction 1 as [|x l Hx Hl IH]; simpl; [done|]. rewrite Hx. simpl.
  by rewrite IH.
Qed.

Lemma filter_length_none {A} (f : A -> bool) l :
  Forall (fun x => f x = false) l -> length (List.filter f l) = 0%nat.
Proof.
  induction 1 as [|x l Hx Hl IH]; simpl; [done|]. by rewrite Hx.
Qed.

Lemma filter_length_Permutation {A} (f : A -> bool) l1 l2 :
  l1 ≡ₚ l2 -> length (List.filter f l1) = length (List.filter f l2).
Proof.
  induction 1 as [|x l1 l2 Hl IH|x y l|l1 l2 l3 H12 IH12 H23 IH23]; simpl.
  - done.
  - destruct (f x); simpl; by rewrite IH.
  - by destruct (f x), (f y).
  - by rewrite IH12.
Qed.

(** ** The loop over the runs *)

Lemma StronglySorted_lookup {A} (R : A -> A -> Prop) l p q x y :
  StronglySorted R l -> (p < q)%nat ->
  l !! p = Some x -> l !! q = Some y -> R x y.
Proof.
  intros Hl. revert p q.
  induction Hl as [|z l Hl IH Hz]; intros p q Hpq Hp Hq; [done|].
  destruct p as [|p], q as [|q]; try lia; simpl in *.
  - injection Hp as <-.
    apply (proj1 (Forall_forall _ _) Hz). by eapply list_elem_of_lookup_2.
  - apply (IH p q); [lia|done|done].
Qed.

Section rank_loop.
Variable reverse : bool.
Variable s : list (string * float).
Hypothesis Hnum : Forall is_number s.
Hypothesis Hsorted :
StronglySorted (fun a b => output.key_lt reverse (snd b) (snd a) = false) s.
Hypothesis Hkeys : NoDup s.*1.

Lemma item_number q item : s !! q = Some item -> PrimFloat.is_nan item.2 = false.
Proof.
intros Hq. apply (proj1 (Forall_forall _ _) Hnum).
by eapply list_elem_of_lookup_2.
Qed.

Lemma sorted_lookup p q x y :
(p < q)%nat -> s !! p = Some x -> s !! q = Some y ->
output.key_lt reverse y.2 x.2 = false.
Proof.
intros Hpq Hp Hq.
exact (StronglySorted_lookup _ s p q x y Hsorted Hpq Hp Hq).
Qed.

Lemma run_facts i item :
run_boundary reverse s i -> s !! i = Some item ->
let j := (i + output.run_length item.2 (drop i s))%nat in
(i < j)%nat /\ (j <= length s)%nat /\ run_boundary reverse s j
/\ (forall q y, (i <= q < j)%nat -> s !! q = Some y ->
                sorts_before reverse y.2 s = i).
Proof.
intros Hi Hitem j.
pose proof (item_number _ _ Hitem) as Hv.
destruct (run_length_spec item.2 (drop i s)) as (Hlen & Hrun & Hstop).
fold j in Hlen, Hrun, Hstop.
set (r := output.run_length item.2 (drop i s)) in *.
assert (Hr : (0 < r)%nat).
{ unfold r. rewrite (drop_S _ _ _ Hitem). simpl.
  rewrite float_eqb_refl by done. lia. }
rewrite length_drop in Hlen.
assert (Hilen : (i < length s)%nat) by (by eapply lookup_lt_Some).
assert (Hin_run : forall q y, (i <= q < j)%nat -> s !! q = Some y ->
                              PrimFloat.eqb y.2 item.2 = true).
{ intros q y Hq Hy. apply (Hrun (q - i)%nat); [unfold j in Hq; lia|].
  rewrite lookup_drop. by replace (i + (q - i))%nat with q by lia. }
assert (Hafter : forall q y, (j <= q)%nat -> s !! q = Some y ->
                             output.key_lt reverse item.2 y.2 = true).
{ intros q y Hq Hy.
  assert (Hjlen : (j < length s)%nat).
  { apply lookup_lt_Some in Hy. lia. }
  destruct (lookup_lt_is_Some_2 s j Hjlen) as [z Hz].
  pose proof (item_number _ _ Hz) as Hznum.
  pose proof (item_number _ _ Hy) as Hynum.
  assert (Hzne : PrimFloat.eqb z.2 item.2 = false).
  { apply Hstop. rewrite lookup_drop. exact Hz. }
  assert (Hzv : output.key_lt reverse z.2 item.2 = false).
  { apply (sorted_lookup i j); [unfold j; lia|done|done]. }
  assert (Hvz : output.key_lt reverse item.2 z.2 = true).
  { destruct (output.key_lt reverse item.2 z.2) eqn:Hlt; [done|].
    rewrite (key_total reverse z.2 item.2) in Hzne; done. }
  destruct (decide (q = j)) as [->|Hne]; [congruence|].
  apply (key_lt_ge_trans reverse item.2 z.2 y.2); try done.
  apply (sorted_lookup j q); [lia|done|done]. }
split; [unfold j; lia|]. split; [unfold j; lia|]. split.
- intros p q x y Hp Hq Hx Hy.
  destruct (decide (p < i)%nat) as [Hlt|Hge].
  + apply (Hi p q); [done|unfold j in Hq; lia|done|done].
  + pose proof (item_number _ _ Hx) as Hxnum.
    pose proof (item_number _ _ Hy) as Hynum.
    rewrite (key_eq_lt_r reverse x.2 item.2 y.2); try done.
    * by apply (Hafter q).
    * apply (Hin_run p); [lia|done].
- intros q y Hq Hy. unfold sorts_before.
  pose proof (item_number _ _ Hy) as Hynum.
  pose proof (Hin_run q y Hq Hy) as Heq.
  rewrite <- (take_drop i s) at 1. rewrite List.filter_app, length_app.
  rewrite filter_length_all, filter_length_none.
  + rewrite length_take. lia.
  + apply Forall_lookup. intros d z Hz. rewrite lookup_drop in Hz.
    pose proof (item_number _ _ Hz) as Hznum. simpl.
    rewrite (key_eq_lt_l reverse y.2 item.2 z.2) by done.
    destruct (decide (i + d < j)%nat) as [Hlt|Hge].
    * apply key_eq_not_lt; try done. apply (Hin_run (i + d)%nat); [lia|done].
    * apply key_lt_asym; try done. apply (Hafter (i + d)%nat); [lia|done].
  + apply Forall_lookup. intros p z Hz.
    apply lookup_take_Some in Hz as [Hz Hp]. simpl.
    pose proof (item_number _ _ Hz) as Hznum.
    rewrite (key_eq_lt_l reverse y.2 item.2 z.2) by done.
    apply (Hi p i); [done|lia|done|done].
Qed.

Lemma rank_runs_spec fuel i ranks :
run_boundary reverse s i -> (length s - i < fuel)%nat ->
exists ranks',
  output.rank_runs fuel s i ranks = Some ranks'
  /\ (forall q key v, (i <= q)%nat -> s !! q = Some (key, v) ->
        ranks' !! key
        = Some (Z.of_nat (sorts_before reverse v s) + 1)%Z)
  /\ (forall key, key ∉ (drop i s).*1 -> ranks' !! key = ranks !! key).
Proof.
revert i ranks. induction fuel as [|fuel IH]; intros i ranks Hi Hfuel;
  [lia|].
cbn [output.rank_runs].
destruct (s !! i) as [item|] eqn:Hitem.
2: { exists ranks. split; [done|]. split; [|done].
     intros q key v Hq Hsq. apply lookup_ge_None in Hitem.
     apply lookup_lt_Some in Hsq. lia. }
cbv zeta.
destruct (run_facts i item Hi Hitem) as (Hij & Hjlen & Hj & Hcount).
set (r := output.run_length item.2 (drop i s)) in *.
replace (i + r - i)%nat with r by lia.
destruct (IH (i + r)%nat
            (foldl (output.assign_rank i) ranks (take r (drop i s)))
            Hj ltac:(lia)) as (ranks' & Hloop & Hlater & Hother).
exists ranks'. split; [done|].
assert (Hrun_key : forall q key v, (i <= q < i + r)%nat ->
                     s !! q = Some (key, v) ->
                     key ∈ (take r (drop i s)).*1
                     /\ key ∉ (drop (i + r) s).*1).
{ intros q key v Hq Hsq. split.
  - apply list_elem_of_fmap. exists (key, v). split; [done|].
    apply (list_elem_of_lookup_2 _ (q - i)%nat).
    rewrite lookup_take_lt by lia. rewrite lookup_drop.
    by replace (i + (q - i))%nat with q by lia.
  - intros (d & Hd)%list_elem_of_lookup_1.
    rewrite list_lookup_fmap, lookup_drop in Hd.
    assert (Hq' : s.*1 !! q = Some key) by (by rewrite list_lookup_fmap, Hsq).
    assert (Hd' : s.*1 !! (i + r + d)%nat = Some key)
      by (by rewrite list_lookup_fmap).
    pose proof (NoDup_lookup _ _ _ _ Hkeys Hq' Hd'). lia. }
split.
- intros q key v Hq Hsq.
  destruct (decide (i + r <= q)%nat) as [Hge|Hlt]; [by apply (Hlater q)|].
  destruct (Hrun_key q key v ltac:(lia) Hsq) as [Hin Hnot].
  rewrite (Hother key Hnot), foldl_assign_rank, decide_True by done.
  pose proof (Hcount q (key, v) ltac:(lia) Hsq) as Hc. simpl in Hc.
  by rewrite Hc.
- intros key Hkey.
  assert (Hnot1 : key ∉ (drop (i + r) s).*1).
  { intros Hin. apply Hkey.
    rewrite <- (take_drop r (drop i s)), fmap_app, elem_of_app.
    right. by rewrite drop_drop. }
  assert (Hnot2 : key ∉ (take r (drop i s)).*1).
  { intros Hin. apply Hkey.
    rewrite <- (take_drop r (drop i s)), fmap_app, elem_of_app. by left. }
  by rewrite (Hother key Hnot1), foldl_assign_rank, decide_False.
Qed.

End rank_loop.

Lemma rank_runs_nan s p item :
  s !! p = Some item -> PrimFloat.is_nan item.2 = true ->
  forall fuel i ranks, (i <= p)%nat -> output.rank_runs fuel s i ranks = None.
Proof.
  intros Hp Hnan. induction fuel as [|fuel IH]; intros i ranks Hi; [done|].
  cbn [output.rank_runs].
  destruct (s !! i) as [x|] eqn:Hx.
  2: { apply lookup_ge_None in Hx. apply lookup_lt_Some in Hp. lia. }
  cbv zeta. apply IH.
  assert (Hstop : (output.run_length x.2 (drop i s) <= p - i)%nat).
  { apply (run_length_stop _ _ _ item); [|by apply nan_eqb_false].
    rewrite lookup_drop. by replace (i + (p - i))%nat with p by lia. }
  lia.
Qed.

Lemma rank_runs_nan_any s fuel ranks :
  Exists (fun item => PrimFloat.is_nan item.2 = true) s ->
  output.rank_runs fuel s 0 ranks = None.
Proof.
  intros (item & Hin & Hnan)%Exists_exists.
  apply list_elem_of_lookup_1 in Hin as [p Hp].
  apply (rank_runs_nan s p item Hp Hnan). lia.
Qed.

(** X28. For items whose values are numbers and whose keys are pairwise
    different, [_competition_ranks] returns, within one round more than
    there are items, and gives every key the rank 1 plus the number of
    items that sort strictly before its value: under [reverse=True], the
    items with a greater value. Equal values get equal ranks. Keys that
    are not among the items get none. *)
Theorem competition_ranks_count_what_sorts_before
  (items : list (string * float)) (reverse : bool) (fuel : nat) :
  Forall is_number items -> NoDup items.*1 -> (length items < fuel)%nat ->
  exists ranks,
    output._competition_ranks fuel items reverse = Some ranks
    /\ (forall key v, (key, v) ∈ items ->
          ranks !! key
          = Some (Z.of_nat (sorts_before reverse v items) + 1)%Z)
    /\ (forall key, key ∉ items.*1 -> ranks !! key = None).
Proof.
  intros Hnum Hkeys Hfuel. unfold output._competition_ranks.
  pose proof (sorted_by_value_Permutation items reverse) as Hperm.
  set (s := output.sorted_by_value items reverse) in *.
  assert (Hsnum : Forall is_number s) by (by rewrite Hperm).
  assert (Hskeys : NoDup s.*1) by (by rewrite Hperm).
  destruct (rank_runs_spec reverse s Hsnum
              (sorted_by_value_sorted items reverse Hnum) Hskeys fuel 0 ∅)
    as (ranks & Hloop & Hranks & Hother).
  { intros p q x y Hp. lia. }
  { rewrite Hperm. lia. }
  exists ranks. split; [done|]. split.
  - intros key v Hin. rewrite <- Hperm in Hin.
    apply list_elem_of_lookup_1 in Hin as [q Hq].
    rewrite (Hranks q key v) by (done || lia).
    unfold sorts_before. by rewrite (filter_length_Permutation _ _ _ Hperm).
  - intros key Hkey. rewrite Hother, lookup_empty; [done|].
    rewrite drop_0. by rewrite Hperm.
Qed.

(** X29. With an item whose value is not a number the outer loop of
    [_competition_ranks] never ends, in whatever order the items were
    sorted: at that item the inner loop does not move, since the value is
    not equal to itself, and no number of rounds suffices. *)
Theorem competition_ranks_never_return_on_nan :
  (forall sorted_items fuel ranks,
      Exists (fun item => PrimFloat.is_nan item.2 = true) sorted_items ->
      output.rank_runs fuel sorted_items 0 ranks = None)
  /\ (forall items reverse fuel,
        Exists (fun item => PrimFloat.is_nan item.2 = true) items ->
        output._competition_ranks fuel items reverse = None).
Proof.
  split; [intros; by apply rank_runs_nan_any|].
  intros items reverse fuel Hnan. apply rank_runs_nan_any.
  by rewrite sorted_by_value_Permutation.
Qed.

(** Witness of X28. *)
Lemma competition_ranks_count_what_sorts_before_witness :
  exists ranks,
    output._competition_ranks 4
      [("AL", 4.5%float); ("RI", 5.5%float); ("TX", 4.5%float)] true
    = Some ranks
    /\ ranks !! "RI" = Some 1%Z
    /\ ranks !! "AL" = Some 2%Z
    /\ ranks !! "TX" = Some 2%Z.
Proof.
  destruct (competition_ranks_count_what_sorts_before
              [("AL", 4.5%float); ("RI", 5.5%float); ("TX", 4.5%float)]
              true 4)
    as (ranks & Hranks & Hrank & _).
  - repeat constructor.
  - apply (bool_decide_eq_true_1 _). vm_compute. reflexivity.
  - simpl. lia.
  - exists ranks. split; [exact Hranks|]. split; [|split].
    + rewrite (Hrank "RI" 5.5%float) by (right; left). reflexivity.
    + rewrite (Hrank "AL" 4.5%float) by left. reflexivity.
    + rewrite (Hrank "TX" 4.5%float) by (right; right; left). reflexivity.
Defined.

(** ** States with data, and states the gate counts *)

Lemma elem_of_state_set validated_rows code :
  code ∈ state_set validated_rows
  <-> exists r, r ∈ validated_rows /\ is_publishable r = true
                /\ state_code r = code.
Proof.
  unfold state_set.
  enough (Hgen : forall (l : list ValidatedRow) (acc : gset string),
    code ∈ foldl (fun set r => if is_publishable r
                               then set ∪ {[ state_code r ]} else set) acc l
    <-> code ∈ acc \/ exists r, r ∈ l /\ is_publishable r = true
                                /\ state_code r = code).
  { rewrite Hgen. split; [intros [?%elem_of_empty|?]; done|by right]. }
  induction l as [|r l IH]; intros acc; simpl.
  { split; [by left|]. intros [?|(r & ?%elem_of_nil & _)]; done. }
  rewrite IH. destruct (is_publishable r) eqn:Hpub.
  - rewrite elem_of_union, elem_of_singleton. split.
    + intros [[?| ->]|(r' & Hr' & ?)]; [by left| |].
      * right. exists r. split; [by left|done].
      * right. exists r'. split; [by right|done].
    + intros [?|(r' & [->|Hr']%elem_of_cons & Hp & Hc)]; [by left; left| |].
      * left. by right.
      * right. by exists r'.
  - split.
    + intros [?|(r' & Hr' & ?)]; [by left|].
      right. exists r'. split; [by right|done].
    + intros [?|(r' & [->|Hr']%elem_of_cons & Hp & Hc)]; [by left|congruence|].
      right. by exists r'.
Qed.

(** X30. The state codes main.py counts as states with data (those with a
    publishable row) and the state codes the publish gate counts as fully
    unpublishable are disjoint and together are all the state codes of the
    batch, so their two counts add up to the number of state codes; and no
    row is publishable exactly when no state has data. *)
Theorem every_state_has_data_or_is_counted
  (validated_rows : list ValidatedRow) :
  state_set validated_rows ## fully_unpublishable_states validated_rows
  /\ state_set validated_rows ∪ fully_unpublishable_states validated_rows
     = list_to_set (state_code <$> validated_rows)
  /\ (Z.of_nat (size (state_set validated_rows))
      + fully_unpublishable validated_rows
      = Z.of_nat (size (list_to_set (state_code <$> validated_rows)
                        : gset string)))%Z
  /\ (publishable_count validated_rows = 0%Z
      <-> state_set validated_rows = ∅).
Proof.
  assert (Hdisj : state_set validated_rows
                  ## fully_unpublishable_states validated_rows).
  { intros code (r & Hr & Hpub & Hcode)%elem_of_state_set Hfull.
    unfold fully_unpublishable_states in Hfull.
    apply elem_of_filter in Hfull as [Hall _].
    pose proof (proj1 (Forall_forall _ _) Hall r Hr Hcode). congruence. }
  assert (Hunion : state_set validated_rows
                   ∪ fully_unpublishable_states validated_rows
                   = list_to_set (state_code <$> validated_rows)).
  { apply set_eq. intros code.
    rewrite elem_of_union, elem_of_list_to_set, elem_of_state_set.
    unfold fully_unpublishable_states.
    rewrite elem_of_filter, elem_of_list_to_set. split.
    - intros [(r & Hr & _ & <-)|[_ ?]]; [|done].
      by apply list_elem_of_fmap_2.
    - intros Hcode.
      destruct (decide (Forall (fun row => state_code row = code ->
                                           is_publishable row = false)
                               validated_rows)) as [Hall|Hsome].
      + by right.
      + left. apply not_Forall_Exists in Hsome; [|solve_decision].
        apply Exists_exists in Hsome as (r & Hr & Hnot). exists r.
        split; [done|].
        destruct (decide (state_code r = code)) as [Hc|Hc];
          [|by destruct Hnot].
        split; [|done].
        destruct (is_publishable r) eqn:Hpub; [done|]. by destruct Hnot. }
  split; [done|]. split; [done|]. split.
  - rewrite fully_unpublishable_count, <- Hunion, size_union by done. lia.
  - unfold publishable_count. split.
    + intros Hzero. apply set_eq. intros code. rewrite elem_of_state_set.
      split; [|by intros ?%elem_of_empty].
      intros (r & Hr & Hpub & _).
      assert (Hin : In r (List.filter is_publishable validated_rows)).
      { apply filter_In. split; [by apply list_elem_of_In|done]. }
      destruct (List.filter is_publishable validated_rows); [done|].
      simpl in Hzero. lia.
    + intros Hempty.
      destruct (List.filter is_publishable validated_rows) as [|r l] eqn:Hf;
        [done|].
      assert (Hin : In r (List.filter is_publishable validated_rows))
        by (rewrite Hf; by left).
      apply filter_In in Hin as [Hin Hpub].
      assert (Hcode : state_code r ∈ state_set validated_rows).
      { apply elem_of_state_set. exists r.
        split; [by apply list_elem_of_In|done]. }
      rewrite Hempty in Hcode. by apply elem_of_empty in Hcode.
Qed.

